(** * CPPython: a shallow embedding of the interpreter pipeline

    The development follows the C++ sources class by class:
    - [Lexer]    : lexer.cpp  (character scanner producing [Token]s),
    - [Parser]   : parser.cpp (recursive descent over the token vector),
    - [Value]    : executor.h / executor.cpp (dynamic values and coercions),
    - [Executor] : executor.cpp (tree-walking evaluator, built-ins, eval/exec,
                   f-strings, file pseudo-methods, with-statement).

    Conventions of the embedding.
    - [std::string] is [string]; a [char] is an [ascii]; character classes
      are those of the "C" locale.
    - [int], [size_t] positions and counters are [nat]: no source text or
      token vector is long enough to wrap them.
    - [double] is [spec_float] at binary64 parameters (53, 1024).
    - A C++ exception is the outcome [Throw msg], with [msg] the text that
      [what()] returns.  Member state (the lexer position, the parser
      cursor, the executor's variables and streams) is threaded explicitly
      and survives a throw, as it does in C++.
    - Loops and recursive descent are driven by a fuel counter; running out
      is the distinguished outcome [OutOfFuel] (or [None] in the lexer),
      and the theorems show that the fuel handed out by the entry points
      suffices. *)

From Stdlib Require Import ZArith List Ascii String Lia Bool.
From Stdlib Require Import Floats.SpecFloat.
From stdpp Require Import gmap strings list pretty.

Open Scope string_scope.
Open Scope nat_scope.
Open Scope list_scope.

Set Warnings "-register-all".

(** ** Characters *)

Definition NUL : ascii := "000"%char.
Definition TAB : ascii := "009"%char.
Definition LF : ascii := "010"%char.
Definition VT : ascii := "011"%char.
Definition FF : ascii := "012"%char.
Definition CR : ascii := "013"%char.
Definition BS : ascii := "008"%char.
Definition DQUOTE : ascii := "034"%char.
Definition SQUOTE : ascii := "039"%char.
Definition BACKSLASH : ascii := "092"%char.

(** [<cctype>] in the "C" locale. *)
Definition isdigit (c : ascii) : bool :=
  let n := nat_of_ascii c in (48 <=? n) && (n <=? 57).

Definition isalpha (c : ascii) : bool :=
  let n := nat_of_ascii c in
  ((65 <=? n) && (n <=? 90)) || ((97 <=? n) && (n <=? 122)).

Definition isalnum (c : ascii) : bool := isalpha c || isdigit c.

Definition isspace (c : ascii) : bool :=
  let n := nat_of_ascii c in (n =? 32) || ((9 <=? n) && (n <=? 13)).

(** [s[i]] with the end-of-string convention the sources use throughout:
    past the end the character is NUL. *)
Definition char_at (s : string) (i : nat) : ascii :=
  match String.get i s with
  | Some c => c
  | None => NUL
  end.

(** [s.substr(start, n)] *)
Definition substr (s : string) (start n : nat) : string :=
  String.substring start n s.

(** [std::all_of(s.begin(), s.end(), p)] *)
Definition all_of (p : ascii -> bool) (s : string) : bool :=
  forallb p (list_ascii_of_string s).

(** [s.find(c) != std::string::npos] *)
Definition contains (c : ascii) (s : string) : bool :=
  existsb (Ascii.eqb c) (list_ascii_of_string s).

(** The text behind its leading white space. *)
Fixpoint dropwhile_space (s : list ascii) : list ascii :=
  match s with
  | c :: r => if isspace c then dropwhile_space r else s
  | [] => []
  end.

(** [std::to_string] on a non-negative integer. *)
Definition to_string (n : nat) : string := pretty n.

(** ** Loops

    [while fuel cond body s] runs [while (cond) body;] from state [s].
    It answers [None] only when the fuel is used up while the condition
    still holds. *)
Fixpoint while {S : Type} (fuel : nat) (cond : S -> bool) (body : S -> S)
    (s : S) : option S :=
  if cond s then
    match fuel with
    | O => None
    | Datatypes.S n => while n cond body (body s)
    end
  else Some s.

(** ** Tokens (lexer.h) *)

Inductive TokenType : Set :=
  (* literals *)
  | NUMBER | STRING | IDENTIFIER | F_STRING
  (* keywords *)
  | PRINT | INPUT | IF | ELSE | FOR | WHILE | DEF | RETURN | TRUE | FALSE | NONE
  | WITH | AS
  (* operators *)
  | PLUS | MINUS | MULTIPLY | DIVIDE | MODULO
  | ASSIGN | EQUAL | NOT_EQUAL | LESS | GREATER
  (* delimiters *)
  | LPAREN | RPAREN | LBRACE | RBRACE | LBRACKET | RBRACKET
  | COMMA | DOT | COLON | SEMICOLON
  (* others *)
  | NEWLINE | EOF_TOKEN | COMMENT.

#[global] Instance TokenType_eq_dec : EqDecision TokenType.
Proof. solve_decision. Defined.

Record Token : Set := mkToken {
  type : TokenType;
  value : string;
  line : nat;
  col : nat
}.

(** ** The lexer (lexer.cpp) *)

Module Lexer.

Record t : Set := mk {
  source : string;
  pos : nat;
  line : nat;
  col : nat
}.

(** [Lexer::Lexer(sourceCode)] *)
Definition init (sourceCode : string) : t := mk sourceCode 0 1 0.

Definition currentChar (lx : t) : ascii := char_at (source lx) (pos lx).

Definition peekChar (lx : t) : ascii := char_at (source lx) (pos lx + 1).

Definition advance (lx : t) : t :=
  if pos lx <? String.length (source lx) then
    if (char_at (source lx) (pos lx) =? LF)%char
    then mk (source lx) (pos lx + 1) (line lx + 1) 0
    else mk (source lx) (pos lx + 1) (line lx) (col lx + 1)
  else lx.

(** Every scanning loop consumes at least one character per round, so the
    length of the source bounds the number of rounds. *)
Definition loop_fuel (lx : t) : nat := String.length (source lx).

(** Three [q] in a row from the current position on. *)
Definition tripleAt (q : ascii) (lx : t) : bool :=
  (char_at (source lx) (pos lx) =? q)%char
  && (char_at (source lx) (pos lx + 1) =? q)%char
  && (char_at (source lx) (pos lx + 2) =? q)%char.

(** The body shared by the two triple-quote branches of [readString]; the
    lexer stands on the second quote character. *)
Definition readTriple (q : ascii) (lx : t) : option (Token * t) :=
  let lx := advance (advance lx) in
  let start := pos lx in
  lx ← while (loop_fuel lx)
          (fun lx => (pos lx + 2 <? String.length (source lx))
                     && negb (tripleAt q lx))
          advance lx;
  let value := substr (source lx) start (pos lx - start) in
  let lx := if pos lx + 2 <? String.length (source lx)
            then advance (advance (advance lx)) else lx in
  Some (mkToken STRING value (line lx) (col lx), lx).

Definition readString (lx : t) : option (Token * t) :=
  let quote := currentChar lx in
  let lx := advance lx in
  if (quote =? DQUOTE)%char && (pos lx + 1 <? String.length (source lx))
     && (currentChar lx =? DQUOTE)%char && (peekChar lx =? DQUOTE)%char
  then readTriple DQUOTE lx
  else if (quote =? SQUOTE)%char && (pos lx + 1 <? String.length (source lx))
     && (currentChar lx =? SQUOTE)%char && (peekChar lx =? SQUOTE)%char
  then readTriple SQUOTE lx
  else
    let start := pos lx in
    lx ← while (loop_fuel lx)
            (fun lx => negb (currentChar lx =? quote)%char
                       && negb (currentChar lx =? NUL)%char
                       && negb (currentChar lx =? LF)%char)
            (fun lx =>
               let lx := if (currentChar lx =? BACKSLASH)%char
                            && negb (peekChar lx =? NUL)%char
                         then advance lx else lx in
               advance lx)
            lx;
    let value := substr (source lx) start (pos lx - start) in
    let lx := if (currentChar lx =? quote)%char then advance lx else lx in
    Some (mkToken STRING value (line lx) (col lx), lx).

(** The loop of [readNumber] carries [hasDot]; a second dot breaks out. *)
Definition readNumber (lx : t) : option (Token * t) :=
  let start := pos lx in
  '(lx, _) ← while (loop_fuel lx)
          (fun '(lx, hasDot) =>
             (isdigit (currentChar lx) || (currentChar lx =? ".")%char)
             && negb ((currentChar lx =? ".")%char && hasDot))
          (fun '(lx, hasDot) =>
             (advance lx, hasDot || (currentChar lx =? ".")%char))
          (lx, false);
  Some (mkToken NUMBER (substr (source lx) start (pos lx - start))
          (line lx) (col lx), lx).

Definition getKeywordType (identifier : string) : TokenType :=
  if String.eqb identifier "print" then PRINT
  else if String.eqb identifier "input" then INPUT
  else if String.eqb identifier "if" then IF
  else if String.eqb identifier "else" then ELSE
  else if String.eqb identifier "for" then FOR
  else if String.eqb identifier "while" then WHILE
  else if String.eqb identifier "def" then DEF
  else if String.eqb identifier "return" then RETURN
  else if String.eqb identifier "True" then TRUE
  else if String.eqb identifier "False" then FALSE
  else if String.eqb identifier "None" then NONE
  else IDENTIFIER.

Definition readIdentifier (lx : t) : option (Token * t) :=
  let start := pos lx in
  lx ← while (loop_fuel lx)
          (fun lx => isalnum (currentChar lx) || (currentChar lx =? "_")%char)
          advance lx;
  let identifier := substr (source lx) start (pos lx - start) in
  Some (mkToken (getKeywordType identifier) identifier (line lx) (col lx), lx).

(** The [switch] on operators and delimiters at the end of the main loop:
    the token pushed, if any, and the lexer after it.  Note the position
    recorded by EQUAL and NOT_EQUAL, taken after the two characters. *)
Definition operatorToken (lx : t) : option Token * t :=
  let c := currentChar lx in
  let one ty txt := (Some (mkToken ty txt (line lx) (col lx)), advance lx) in
  if (c =? "+")%char then one PLUS "+"
  else if (c =? "-")%char then one MINUS "-"
  else if (c =? "*")%char then one MULTIPLY "*"
  else if (c =? "/")%char then one DIVIDE "/"
  else if (c =? "%")%char then one MODULO "%"
  else if (c =? "=")%char then
    if (peekChar lx =? "=")%char then
      let lx' := advance (advance lx) in
      (Some (mkToken EQUAL "==" (line lx') (col lx')), lx')
    else one ASSIGN "="
  else if (c =? "!")%char then
    if (peekChar lx =? "=")%char then
      let lx' := advance (advance lx) in
      (Some (mkToken NOT_EQUAL "!=" (line lx') (col lx')), lx')
    else (None, advance lx)
  else if (c =? "<")%char then one LESS "<"
  else if (c =? ">")%char then one GREATER ">"
  else if (c =? "(")%char then one LPAREN "("
  else if (c =? ")")%char then one RPAREN ")"
  else if (c =? "{")%char then one LBRACE "{"
  else if (c =? "}")%char then one RBRACE "}"
  else if (c =? "[")%char then one LBRACKET "["
  else if (c =? "]")%char then one RBRACKET "]"
  else if (c =? ",")%char then one COMMA ","
  else if (c =? ".")%char then one DOT "."
  else if (c =? ":")%char then one COLON ":"
  else if (c =? ";")%char then one SEMICOLON ";"
  else if (c =? LF)%char then one NEWLINE (String LF EmptyString)
  else (None, advance lx).

(** The main loop of [tokenize]: the tokens pushed so far are [tokens]; the
    answer is the final vector and the lexer state at loop exit. *)
Fixpoint tokenizeLoop (fuel : nat) (lx : t) (tokens : list Token)
    : option (list Token * t) :=
  match fuel with
  | O => None
  | S fuel =>
    if pos lx <? String.length (source lx) then
      lx ← while (loop_fuel lx)
              (fun lx => isspace (currentChar lx)
                         && negb (currentChar lx =? LF)%char)
              advance lx;
      if (currentChar lx =? NUL)%char then Some (tokens, lx)
      else if (currentChar lx =? "#")%char then
        lx ← while (loop_fuel lx)
                (fun lx => negb (currentChar lx =? LF)%char
                           && negb (currentChar lx =? NUL)%char)
                advance lx;
        tokenizeLoop fuel lx tokens
      else if isdigit (currentChar lx) then
        '(tok, lx) ← readNumber lx;
        tokenizeLoop fuel lx (tokens ++ [tok])
      else if (currentChar lx =? DQUOTE)%char || (currentChar lx =? SQUOTE)%char then
        '(tok, lx) ← readString lx;
        tokenizeLoop fuel lx (tokens ++ [tok])
      else if isalpha (currentChar lx) || (currentChar lx =? "_")%char then
        '(tok, lx) ← readIdentifier lx;
        tokenizeLoop fuel lx (tokens ++ [tok])
      else
        let '(tok, lx) := operatorToken lx in
        tokenizeLoop fuel lx (tokens ++ option_list tok)
    else Some (tokens, lx)
  end.

(** The tokens produced from the state [lx] onwards, EOF included. *)
Definition tokenizeFrom (lx : t) : option (list Token) :=
  '(tokens, lx) ← tokenizeLoop (S (String.length (source lx) - pos lx)) lx [];
  Some (tokens ++ [mkToken EOF_TOKEN "" (line lx) (col lx)]).

(** [Lexer(sourceCode).tokenize()] *)
Definition tokenize (sourceCode : string) : option (list Token) :=
  tokenizeFrom (init sourceCode).

End Lexer.

(** ** Outcomes

    What a call of a C++ member function can come to: a returned value, a
    thrown [std::exception] (with its [what()] text), the fuel of the
    embedding running out, or undefined behaviour (a null pointer
    dereference). *)
Inductive result (A : Type) : Type :=
  | Ok (a : A)
  | Throw (what : string)
  | OutOfFuel
  | Undefined.

Arguments Ok {A} a.
Arguments Throw {A} what.
Arguments OutOfFuel {A}.
Arguments Undefined {A}.

(** ** Member functions

    A member function of a class whose mutable state has type [St]: it
    runs from a state and leaves a state behind, also when it throws. *)
Definition Member (St A : Type) : Type := St -> result A * St.

Definition ret {St A} (a : A) : Member St A := fun st => (Ok a, st).

Definition bind {St A B} (m : Member St A) (k : A -> Member St B) : Member St B :=
  fun st =>
    match m st with
    | (Ok a, st) => k a st
    | (Throw what, st) => (Throw what, st)
    | (OutOfFuel, st) => (OutOfFuel, st)
    | (Undefined, st) => (Undefined, st)
    end.

Definition throw {St A} (what : string) : Member St A :=
  fun st => (Throw what, st).

Definition out_of_fuel {St A} : Member St A := fun st => (OutOfFuel, st).

Definition undefined {St A} : Member St A := fun st => (Undefined, st).

(** [try { m } catch (const std::exception& e) { handler(e.what()) }] *)
Definition try_catch {St A} (m : Member St A) (handler : string -> Member St A)
    : Member St A :=
  fun st =>
    match m st with
    | (Throw what, st) => handler what st
    | r => r
    end.

(** A computation that does not touch the state. *)
Definition lift {St A} (r : result A) : Member St A := fun st => (r, st).

Notation "'let*' x ':=' m 'in' k" := (bind m (fun x => k))
  (at level 10, x name, m at level 100, k at level 200).

(** ** The syntax tree (parser.h)

    Reconstructed from the constructor calls in parser.cpp and the member
    accesses in executor.cpp. *)
Inductive ExprNode : Set :=
  | LiteralExpr (value : string) (type : TokenType)
  | FStringExpr (template_string : string)
  | IdentifierExpr (name : string)
  | BinaryExpr (left : ExprNode) (op : TokenType) (right : ExprNode)
  | CallExpr (callee : ExprNode) (arguments : list ExprNode)
  | ListExpr (elements : list ExprNode)
  | IndexExpr (array : ExprNode) (index : ExprNode).

Inductive StmtNode : Set :=
  | PrintStmt (expressions : list ExprNode)
  | AssignStmt (variable : string) (value : ExprNode)
  | ExprStmt (expression : ExprNode)
  | WithStmt (context_expr : ExprNode) (optional_vars : string)
             (body : list StmtNode).

(** ** The parser (parser.cpp) *)

Module Parser.

(** A member function of [Parser]: it runs from a cursor [current] and
    leaves a cursor behind, also when it throws. *)
Definition M (A : Type) : Type := Member nat A.

Section WithTokens.

Variable tokens : list Token.

(** Reading [tokens[i]] past the end of the vector is undefined in C++.
    The embedding reads an EOF token there; on a vector that holds an EOF
    token (every vector the lexer returns ends with one) the cursor never
    gets that far. *)
Definition token_at (i : nat) : Token := nth i tokens (mkToken EOF_TOKEN "" 0 0).

Definition peek : M Token := fun current => (Ok (token_at current), current).

Definition previous : M Token := fun current => (Ok (token_at (current - 1)), current).

Definition isAtEnd : M bool :=
  fun current => (Ok (bool_decide (type (token_at current) = EOF_TOKEN)), current).

(** [advance()]; the token it returns is not used by any caller. *)
Definition advance : M unit :=
  fun current =>
    if bool_decide (type (token_at current) = EOF_TOKEN)
    then (Ok tt, current) else (Ok tt, current + 1).

(** [current--] *)
Definition back : M unit := fun current => (Ok tt, current - 1).

Definition match_ (ty : TokenType) : M bool :=
  let* tok := peek in
  if bool_decide (type tok = ty) then let* _ := advance in ret true else ret false.

(** [match(t1) || match(t2) || ...], left to right with short circuit. *)
Fixpoint matchAny (tys : list TokenType) : M bool :=
  match tys with
  | [] => ret false
  | ty :: tys => let* b := match_ ty in if b then ret true else matchAny tys
  end.

Definition consume (ty : TokenType) (message : string) : M Token :=
  let* tok := peek in
  if bool_decide (type tok = ty) then let* _ := advance in ret tok
  else throw (message +:+ " at line " +:+ to_string (line tok)).

(** The descent.  Each function is the one of the same name in
    parser.cpp; the functions named [...Loop] are the [while] and
    [do ... while] loops inside them, with the loop-carried variable as an
    argument. *)
Fixpoint parseExpression (fuel : nat) : M ExprNode :=
  match fuel with
  | O => out_of_fuel
  | S fuel => parseComparison fuel
  end

with parseComparison (fuel : nat) : M ExprNode :=
  match fuel with
  | O => out_of_fuel
  | S fuel => let* expr := parseTerm fuel in parseComparisonLoop fuel expr
  end

with parseComparisonLoop (fuel : nat) (expr : ExprNode) : M ExprNode :=
  match fuel with
  | O => out_of_fuel
  | S fuel =>
    let* b := matchAny [EQUAL; NOT_EQUAL; LESS; GREATER] in
    if b then
      let* op := previous in
      let* right := parseTerm fuel in
      parseComparisonLoop fuel (BinaryExpr expr (type op) right)
    else ret expr
  end

with parseTerm (fuel : nat) : M ExprNode :=
  match fuel with
  | O => out_of_fuel
  | S fuel => let* expr := parseFactor fuel in parseTermLoop fuel expr
  end

with parseTermLoop (fuel : nat) (expr : ExprNode) : M ExprNode :=
  match fuel with
  | O => out_of_fuel
  | S fuel =>
    let* b := matchAny [PLUS; MINUS] in
    if b then
      let* op := previous in
      let* right := parseFactor fuel in
      parseTermLoop fuel (BinaryExpr expr (type op) right)
    else ret expr
  end

with parseFactor (fuel : nat) : M ExprNode :=
  match fuel with
  | O => out_of_fuel
  | S fuel => let* expr := parseUnary fuel in parseFactorLoop fuel expr
  end

with parseFactorLoop (fuel : nat) (expr : ExprNode) : M ExprNode :=
  match fuel with
  | O => out_of_fuel
  | S fuel =>
    let* b := matchAny [MULTIPLY; DIVIDE; MODULO] in
    if b then
      let* op := previous in
      let* right := parseUnary fuel in
      parseFactorLoop fuel (BinaryExpr expr (type op) right)
    else ret expr
  end

with parseUnary (fuel : nat) : M ExprNode :=
  match fuel with
  | O => out_of_fuel
  | S fuel => parsePrimary fuel
  end

(** [do { v.push_back(parseExpression()); } while (match(COMMA));], the
    loop of both [parseCall] and [parseList]. *)
with parseElementsLoop (fuel : nat) (v : list ExprNode) : M (list ExprNode) :=
  match fuel with
  | O => out_of_fuel
  | S fuel =>
    let* e := parseExpression fuel in
    let* b := match_ COMMA in
    if b then parseElementsLoop fuel (v ++ [e]) else ret (v ++ [e])
  end

with parseCall (fuel : nat) (callee : ExprNode) : M ExprNode :=
  match fuel with
  | O => out_of_fuel
  | S fuel =>
    let* b := match_ RPAREN in
    if b then ret (CallExpr callee [])
    else
      let* arguments := parseElementsLoop fuel [] in
      let* _ := consume RPAREN "Expected ')' after arguments" in
      ret (CallExpr callee arguments)
  end

with parseList (fuel : nat) : M ExprNode :=
  match fuel with
  | O => out_of_fuel
  | S fuel =>
    let* _ := consume LBRACKET "Expected '[' for list" in
    let* b := match_ RBRACKET in
    if b then ret (ListExpr [])
    else
      let* elements := parseElementsLoop fuel [] in
      let* _ := consume RBRACKET "Expected ']' after list elements" in
      ret (ListExpr elements)
  end

with parseIndex (fuel : nat) (array : ExprNode) : M ExprNode :=
  match fuel with
  | O => out_of_fuel
  | S fuel =>
    let* _ := consume LBRACKET "Expected '[' for index" in
    let* index := parseExpression fuel in
    let* _ := consume RBRACKET "Expected ']' after index" in
    ret (IndexExpr array index)
  end

with parsePrimary (fuel : nat) : M ExprNode :=
  match fuel with
  | O => out_of_fuel
  | S fuel =>
    let* b := match_ NUMBER in
    if b then let* tok := previous in ret (LiteralExpr (value tok) NUMBER) else
    let* b := match_ STRING in
    if b then let* tok := previous in ret (LiteralExpr (value tok) STRING) else
    let* b := match_ F_STRING in
    if b then let* tok := previous in ret (FStringExpr (value tok)) else
    let* b := match_ TRUE in
    if b then ret (LiteralExpr "True" TRUE) else
    let* b := match_ FALSE in
    if b then ret (LiteralExpr "False" FALSE) else
    let* b := match_ LBRACKET in
    if b then let* _ := back in parseList fuel else
    let* b := match_ IDENTIFIER in
    if b then let* tok := previous in parsePrimaryLoop fuel (IdentifierExpr (value tok)) else
    let* b := match_ LPAREN in
    if b then
      let* expr := parseExpression fuel in
      let* _ := consume RPAREN "Expected ')' after expression" in
      ret expr
    else
      let* tok := peek in
      throw ("Expected expression at line " +:+ to_string (line tok))
  end

(** The [while (true)] after an identifier: a call ends it, an index
    continues it. *)
with parsePrimaryLoop (fuel : nat) (base_expr : ExprNode) : M ExprNode :=
  match fuel with
  | O => out_of_fuel
  | S fuel =>
    let* b := match_ LPAREN in
    if b then parseCall fuel base_expr else
    let* b := match_ LBRACKET in
    if b then
      let* _ := back in
      let* base_expr := parseIndex fuel base_expr in
      parsePrimaryLoop fuel base_expr
    else ret base_expr
  end.

(** The statements.  [parsePrintStatement] and [parseAssignmentStatement]
    do not recurse; they pass their fuel on to the expression descent. *)
Fixpoint parsePrintLoop (fuel : nat) (expressions : list ExprNode)
    : M (list ExprNode) :=
  match fuel with
  | O => out_of_fuel
  | S fuel =>
    let* b := match_ COMMA in
    if b then
      let* e := parseExpression fuel in
      parsePrintLoop fuel (expressions ++ [e])
    else ret expressions
  end.

Definition parsePrintStatement (fuel : nat) : M StmtNode :=
  let* _ := consume PRINT "Expected 'print'" in
  let* _ := consume LPAREN "Expected '(' after 'print'" in
  let* tok := peek in
  let* expressions :=
    (if bool_decide (type tok = RPAREN) then ret []
     else
       let* e := parseExpression fuel in
       parsePrintLoop fuel [e]) in
  let* _ := consume RPAREN "Expected ')' after print arguments" in
  ret (PrintStmt expressions).

Definition parseAssignmentStatement (fuel : nat) : M StmtNode :=
  let* identifier := consume IDENTIFIER "Expected identifier" in
  let* _ := consume ASSIGN "Expected '=' after identifier" in
  let* value_ := parseExpression fuel in
  ret (AssignStmt (value identifier) value_).

Fixpoint parseWithStatement (fuel : nat) : M StmtNode :=
  match fuel with
  | O => out_of_fuel
  | S fuel =>
    let* _ := consume WITH "Expected 'with'" in
    let* context_expr := parseExpression fuel in
    let* b := match_ AS in
    let* optional_vars :=
      (if b then
         let* var_token := consume IDENTIFIER "Expected identifier after 'as'" in
         ret (value var_token)
       else ret "") in
    let* _ := consume COLON "Expected ':' after with statement" in
    let* _ := consume NEWLINE "Expected newline after with statement" in
    let* body := parseWithLoop fuel [] in
    ret (WithStmt context_expr optional_vars body)
  end

(** [while (!isAtEnd() && peek().type != NEWLINE && peek().type != EOF_TOKEN)] *)
with parseWithLoop (fuel : nat) (body : list StmtNode) : M (list StmtNode) :=
  match fuel with
  | O => out_of_fuel
  | S fuel =>
    let* tok := peek in
    if bool_decide (type tok = EOF_TOKEN) || bool_decide (type tok = NEWLINE)
    then ret body
    else
      let* stmt := parseStatement fuel in
      let* tok := peek in
      let* _ := (if bool_decide (type tok = NEWLINE) then advance else ret tt) in
      parseWithLoop fuel (body ++ [stmt])
  end

with parseStatement (fuel : nat) : M StmtNode :=
  match fuel with
  | O => out_of_fuel
  | S fuel =>
    fun current =>
      if bool_decide (type (token_at current) = PRINT)
      then parsePrintStatement fuel current
      else if bool_decide (type (token_at current) = WITH)
      then parseWithStatement fuel current
      else if bool_decide (type (token_at current) = IDENTIFIER)
              && (current + 1 <? length tokens)
              && bool_decide (type (token_at (current + 1)) = ASSIGN)
      then parseAssignmentStatement fuel current
      else (let* expr := parseExpression fuel in ret (ExprStmt expr)) current
  end.

(** The fuel the entry points hand to the descent: a multiple of the
    number of tokens (theorem [descent_fuel_suffices] shows it is enough). *)
Definition descent_fuel : nat := 16 * S (length tokens).

(** The [catch] block of [parse]: skip to the next NEWLINE or EOF, and over
    the NEWLINE. *)
Definition synchronize : M unit :=
  fun current =>
    match while (length tokens)
            (fun c => negb (bool_decide (type (token_at c) = EOF_TOKEN))
                      && negb (bool_decide (type (token_at c) = NEWLINE))
                      && negb (bool_decide (type (token_at c) = EOF_TOKEN)))
            (fun c => snd (advance c)) current with
    | Some c =>
      if bool_decide (type (token_at c) = NEWLINE) then advance c else (Ok tt, c)
    | None => (OutOfFuel, current)
    end.

(** The loop of [parse]; [statements] is the vector built so far. *)
Fixpoint parseLoop (fuel : nat) (statements : list StmtNode)
    : M (list StmtNode) :=
  match fuel with
  | O => out_of_fuel
  | S fuel =>
    fun current =>
      if bool_decide (type (token_at current) = EOF_TOKEN)
      then (Ok statements, current)
      else if bool_decide (type (token_at current) = NEWLINE)
      then (let* _ := advance in parseLoop fuel statements) current
      else
        match parseStatement descent_fuel current with
        | (Ok stmt, current) =>
          (let* tok := peek in
           let* _ := (if bool_decide (type tok = NEWLINE) then advance else ret tt) in
           parseLoop fuel (statements ++ [stmt])) current
        | (Throw _, current) =>
          (let* _ := synchronize in parseLoop fuel statements) current
        | (OutOfFuel, current) => (OutOfFuel, current)
        | (Undefined, current) => (Undefined, current)
        end
  end.

(** [Parser(tokens).parse()] *)
Definition parse : result (list StmtNode) :=
  fst (parseLoop (S (length tokens)) [] 0).

(** Modelled from the spec: [Parser::parseExpressionPublic], which
    [Executor::evaluateEval] calls on the tokens of its text, is neither
    declared nor defined in the sources (the parser header is not among
    them).  The spec says of [eval] that it "re-tokenizes and re-parses the
    string as a single expression via the full Tokenizer+Parser": the
    member is [parseExpression] run from the first token. *)
Definition parseExpressionPublic : result ExprNode :=
  fst (parseExpression descent_fuel 0).

End WithTokens.

End Parser.

(** ** [double] and the library routines the interpreter calls on it

    [std::stod], [std::fmod], the casts to integer types and the default
    stream rendering belong to the C++ library, not to the interpreter; they
    are modelled here as glibc and libstdc++ on x86-64 behave. *)

Module Double.

(** A [double]: its value and, for a NaN, the sign bit, which [spec_float]
    does not keep but the stream rendering shows ([nan] or [-nan]).
    [nan_sign] is [false] for every value that is not a NaN. *)
Record t : Set := mk {
  value : spec_float;
  nan_sign : bool
}.

Definition prec : Z := 53.
Definition emax : Z := 1024.

(** A value that is not a NaN. *)
Definition number (x : spec_float) : t := mk x false.

Definition zero : t := number (S754_zero false).

(** The NaN with sign bit [s]. *)
Definition nan (s : bool) : t := mk S754_nan s.

Definition is_nan (x : t) : bool :=
  match value x with
  | S754_nan => true
  | _ => false
  end.

(** The integer [z], rounded to nearest-even. *)
Definition of_Z (z : Z) : t := number (binary_normalize prec emax z 0 false).

Definition of_nat (n : nat) : t := of_Z (Z.of_nat n).

Definition one : t := of_Z 1.

(** The result [r] of an arithmetic operation on [x] and [y], in this
    order.  When it is a NaN, an operand that is a NaN is handed on, the
    first one when both are (what the SSE2 instructions of x86-64 do);
    when no operand is a NaN the operation was invalid ([0/0],
    [inf - inf], [0 * inf]) and the result is the default NaN of x86-64,
    whose sign bit is set. *)
Definition result_of (x y : t) (r : spec_float) : t :=
  match r with
  | S754_nan =>
    nan (if is_nan x then nan_sign x
         else if is_nan y then nan_sign y
         else true)
  | _ => number r
  end.

Definition add (x y : t) : t := result_of x y (SFadd prec emax (value x) (value y)).
Definition sub (x y : t) : t := result_of x y (SFsub prec emax (value x) (value y)).
Definition mul (x y : t) : t := result_of x y (SFmul prec emax (value x) (value y)).
Definition div (x y : t) : t := result_of x y (SFdiv prec emax (value x) (value y)).

(** [x == y] *)
Definition eqb (x y : t) : bool := SFeqb (value x) (value y).

(** The quotient [n / d] of two integers ([0 <= n], [0 < d]) with sign
    [s], rounded to nearest-even.  The numerator is scaled so that the
    integer quotient carries 64 bits or more before the final rounding. *)
Definition of_ratio (s : bool) (n d : Z) : spec_float :=
  if (n =? 0)%Z then S754_zero s
  else
    let shift := Z.max 0 (Z.log2 d - Z.log2 n + 64) in
    let '(q, r) := Z.div_eucl (Z.shiftl n shift) d in
    binary_round_aux prec emax s q (- shift) (new_location d r).

(** Whether the finite value [x] is exactly [n / d] in magnitude. *)
Definition is_ratio (x : spec_float) (n d : Z) : bool :=
  match x with
  | S754_zero _ => (n =? 0)%Z
  | S754_finite _ m e =>
    if (0 <=? e)%Z then (Zpos m * 2 ^ e * d =? n)%Z
    else (Zpos m * d =? n * 2 ^ (- e))%Z
  | _ => false
  end.

Definition is_subnormal_or_zero (x : spec_float) : bool :=
  match x with
  | S754_zero _ => true
  | S754_finite _ m _ => (Zpos (digits2_pos m) <? prec)%Z
  | _ => false
  end.

(** [std::fmod(x, y)]: the remainder of the truncated quotient, exact, with
    the sign of [x]; a NaN when [x] is infinite or [y] is zero (glibc
    computes [(x * y) / (x * y)] then, so the sign of the NaN follows
    [result_of]). *)
Definition fmod (x y : t) : t :=
  result_of x y
    match value x, value y with
    | S754_nan, _ | _, S754_nan => S754_nan
    | S754_infinity _, _ => S754_nan
    | _, S754_zero _ => S754_nan
    | S754_zero _, _ => value x
    | _, S754_infinity _ => value x
    | S754_finite sx mx ex, S754_finite _ my ey =>
      let e := Z.min ex ey in
      let r := Z.rem (Zpos mx * 2 ^ (ex - e)) (Zpos my * 2 ^ (ey - e)) in
      if (r =? 0)%Z then S754_zero sx
      else binary_normalize prec emax (if sx then - r else r) e false
    end.

(** The integer part, towards zero; none for NaN and the infinities. *)
Definition trunc (x : t) : option Z :=
  match value x with
  | S754_zero _ => Some 0%Z
  | S754_finite s m e =>
    let a := if (0 <=? e)%Z then (Zpos m * 2 ^ e)%Z else (Zpos m / 2 ^ (- e))%Z in
    Some (if s then - a else a)%Z
  | _ => None
  end.

(** A cast to a signed integer type of [bits] bits.  When the truncated
    value does not fit (or there is none) the C++ standard leaves the
    result undefined; the conversion instruction of x86-64 delivers the
    most negative integer, and so does the embedding. *)
Definition to_signed (bits : Z) (x : t) : Z :=
  let lo := (- 2 ^ (bits - 1))%Z in
  match trunc x with
  | Some z => if (lo <=? z)%Z && (z <? 2 ^ (bits - 1))%Z then z else lo
  | None => lo
  end.

(** [(int)x] *)
Definition to_int : t -> Z := to_signed 32.

(** [static_cast<long long>(x)] *)
Definition to_long_long : t -> Z := to_signed 64.

(** *** [std::stod]

    The longest prefix of the text, after leading white space, that is an
    optionally signed decimal or hexadecimal floating constant, [inf],
    [infinity] or [nan] (any case) is converted, a NaN taking the sign
    written in front of it; [None] stands for the two
    exceptions of [stod]: [std::invalid_argument] when there is no such
    prefix and [std::out_of_range] when glibc reports [ERANGE] (overflow,
    or an inexact result in the subnormal range). *)

Definition digit_value (c : ascii) : Z := Z.of_nat (nat_of_ascii c) - 48.

Definition isxdigit (c : ascii) : bool :=
  let n := nat_of_ascii c in
  isdigit c || ((65 <=? n) && (n <=? 70)) || ((97 <=? n) && (n <=? 102)).

Definition xdigit_value (c : ascii) : Z :=
  let n := Z.of_nat (nat_of_ascii c) in
  if isdigit c then n - 48
  else if (n <=? 70)%Z then n - 55
  else n - 87.

Definition tolower (c : ascii) : ascii :=
  let n := nat_of_ascii c in
  if (65 <=? n) && (n <=? 90) then ascii_of_nat (n + 32) else c.

(** A run of digits in base [base], accumulated on top of [acc]: the new
    accumulator, the number of digits read and the rest of the text. *)
Fixpoint digits (isd : ascii -> bool) (dv : ascii -> Z) (base : Z)
    (acc : Z) (n : nat) (s : list ascii) : Z * nat * list ascii :=
  match s with
  | c :: r => if isd c then digits isd dv base (base * acc + dv c) (S n) r
              else (acc, n, s)
  | [] => (acc, n, s)
  end.

(** The mantissa [int.frac] in base [base]: its digits as one integer, the
    number of fraction digits, and the rest; none without a digit. *)
Definition mantissa (isd : ascii -> bool) (dv : ascii -> Z) (base : Z)
    (s : list ascii) : option (Z * nat * list ascii) :=
  let '(ip, ni, r) := digits isd dv base 0 0 s in
  match r with
  | "."%char :: r' =>
    let '(m, nf, r'') := digits isd dv base ip 0 r' in
    if (ni + nf =? 0) then None else Some (m, nf, r'')
  | _ => if ni =? 0 then None else Some (ip, 0, r)
  end.

(** The exponent part introduced by [mark] (lower case): its value, [0]
    when the part is absent or has no digit. *)
Definition exponent (mark : ascii) (s : list ascii) : Z :=
  match s with
  | c :: r =>
    if (tolower c =? mark)%char then
      let '(neg, r) :=
        match r with
        | "-"%char :: r' => (true, r')
        | "+"%char :: r' => (false, r')
        | _ => (false, r)
        end in
      let '(e, n, _) := digits isdigit digit_value 10 0 0 r in
      if n =? 0 then 0%Z else if neg then (- e)%Z else e
    else 0%Z
  | [] => 0%Z
  end.

(** [m * base^k] as a ratio of two integers. *)
Definition scaled (m base k : Z) : Z * Z :=
  if (0 <=? k)%Z then (m * base ^ k, 1)%Z else (m, base ^ (- k))%Z.

Definition checked (s : bool) (nd : Z * Z) : option t :=
  let '(n, d) := nd in
  let x := of_ratio s n d in
  match x with
  | S754_infinity _ => None
  | _ => if is_subnormal_or_zero x && negb (is_ratio x n d) then None
         else Some (number x)
  end.

Definition prefix_ci (p : string) (s : list ascii) : bool :=
  let p := list_ascii_of_string p in
  (length p <=? length s)
  && forallb (fun '(a, b) => (a =? tolower b)%char) (combine p s).

Definition stod (str : string) : option t :=
  let s := dropwhile_space (list_ascii_of_string str) in
  let '(neg, s) :=
    match s with
    | "-"%char :: r => (true, r)
    | "+"%char :: r => (false, r)
    | _ => (false, s)
    end in
  if prefix_ci "inf" s then Some (number (S754_infinity neg))
  else if prefix_ci "nan" s then Some (nan neg)
  else
    let hex :=
      match s with
      | "0"%char :: x :: r =>
        if (tolower x =? "x")%char then mantissa isxdigit xdigit_value 16 r
        else None
      | _ => None
      end in
    match hex with
    | Some (m, nf, r) =>
      checked neg (scaled m 2 (exponent "p" r - 4 * Z.of_nat nf))
    | None =>
      match mantissa isdigit digit_value 10 s with
      | Some (m, nf, r) =>
        checked neg (scaled m 10 (exponent "e" r - Z.of_nat nf))
      | None => None
      end
    end.

(** *** The default rendering of [operator<<(double)]

    [%g] with precision 6: six significant digits, rounded to nearest-even
    on the exact binary value; fixed notation when the decimal exponent
    [X] satisfies [-4 <= X < 6], scientific otherwise; trailing zeros and
    a trailing point removed. *)

(** The least [k >= k0] with [d <= n * 10^k] (searched for [fuel] steps). *)
Fixpoint least_scale (fuel : nat) (k n d : Z) : Z :=
  match fuel with
  | O => k
  | S fuel => if (d <=? n * 10 ^ k)%Z then k else least_scale fuel (k + 1) n d
  end.

(** [X] with [10^X <= n / d < 10^(X+1)], for [0 < n] and [0 < d]. *)
Definition decimal_exponent (n d : Z) : Z :=
  if (d <=? n)%Z then Z.of_nat (String.length (pretty (n / d)%Z)) - 1
  else - least_scale (S (Z.to_nat (Z.log2 d))) 1 n d.

(** [n / d] to six significant digits: the six-digit integer and the
    decimal exponent of its leading digit. *)
Definition six_digits (n d : Z) : Z * Z :=
  let X := decimal_exponent n d in
  let '(num, den) := if (0 <=? X - 5)%Z then (n, d * 10 ^ (X - 5))%Z
                     else (n * 10 ^ (5 - X), d)%Z in
  let q := (num / den)%Z in
  let r := (num mod den)%Z in
  let q := match (2 * r ?= den)%Z with
           | Lt => q
           | Gt => (q + 1)%Z
           | Eq => if Z.even q then q else (q + 1)%Z
           end in
  if (q =? 10 ^ 6)%Z then (10 ^ 5, X + 1)%Z else (q, X).

Fixpoint strip_zeros_rev (s : list ascii) : list ascii :=
  match s with
  | "0"%char :: r => strip_zeros_rev r
  | _ => s
  end.

(** The fraction digits with trailing zeros removed, behind their point
    (nothing when no digit remains). *)
Definition fraction (digits : string) : string :=
  match rev (strip_zeros_rev (rev (list_ascii_of_string digits))) with
  | [] => ""
  | l => "." +:+ string_of_list_ascii l
  end.

Fixpoint zeros (n : nat) : string :=
  match n with
  | O => ""
  | S n => "0" +:+ zeros n
  end.

Definition render_g (n d : Z) : string :=
  let '(q, X) := six_digits n d in
  let ds := pretty q in
  if (-4 <=? X)%Z && (X <? 6)%Z then
    if (0 <=? X)%Z then
      let k := S (Z.to_nat X) in
      substr ds 0 k +:+ fraction (substr ds k (6 - k))
    else
      "0" +:+ fraction (zeros (Z.to_nat (- X - 1)) +:+ ds)
  else
    let ex := pretty (Z.abs X) in
    substr ds 0 1 +:+ fraction (substr ds 1 5) +:+ "e"
    +:+ (if (X <? 0)%Z then "-" else "+")
    +:+ (if (Z.abs X <? 10)%Z then "0" +:+ ex else ex).

(** [oss << x] *)
Definition to_stream (x : t) : string :=
  match value x with
  | S754_zero s => if s then "-0" else "0"
  | S754_infinity s => if s then "-inf" else "inf"
  | S754_nan => if nan_sign x then "-nan" else "nan"
  | S754_finite s m e =>
    (if s then "-" else "")
    +:+ (if (0 <=? e)%Z then render_g (Zpos m * 2 ^ e) 1
         else render_g (Zpos m) (2 ^ (- e)))
  end.

End Double.

(** ** Utils (utils.cpp) *)

Module Utils.

(** The loop of [isNumber] from index [start] on, carrying [hasDot]. *)
Fixpoint isNumberLoop (hasDot : bool) (s : list ascii) : bool :=
  match s with
  | [] => true
  | c :: r =>
    if (c =? ".")%char then
      if hasDot then false else isNumberLoop true r
    else if negb (isdigit c) then false
    else isNumberLoop hasDot r
  end.

Definition isNumber (str : string) : bool :=
  match list_ascii_of_string str with
  | [] => false
  | c :: r =>
    if (c =? "-")%char || (c =? "+")%char then isNumberLoop false r
    else isNumberLoop false (c :: r)
  end.

(** The characters of [" \t\r\n"]. *)
Definition blank (c : ascii) : bool :=
  (c =? " ")%char || (c =? TAB)%char || (c =? CR)%char || (c =? LF)%char.

(** [str.find_first_not_of(" \t\r\n")], counting from [i]; [None] is
    [npos]. *)
Fixpoint find_first_not_of (s : string) (i : nat) : option nat :=
  match s with
  | EmptyString => None
  | String c r => if blank c then find_first_not_of r (S i) else Some i
  end.

(** [str.find_last_not_of(" \t\r\n")], counting from [i], with [last] the
    answer so far. *)
Fixpoint find_last_not_of (s : string) (i : nat) (last : option nat) : option nat :=
  match s with
  | EmptyString => last
  | String c r => find_last_not_of r (S i) (if blank c then last else Some i)
  end.

(** [trim].  With [last] at [npos] the count [last - first + 1] wraps to
    [2^64 - first]: nothing for [first = 0], the rest of the text
    otherwise. *)
Definition trim (str : string) : string :=
  match find_first_not_of str 0 with
  | None => ""
  | Some first =>
    match find_last_not_of str 0 None with
    | Some last => substr str first (last - first + 1)
    | None => if first =? 0 then "" else substr str first (String.length str)
    end
  end.

(** [while (std::getline(ss, token, delimiter)) tokens.push_back(trim(token));]
    over the characters [ss] left in the stream.  [token] holds, last
    first, the characters the current [getline] has extracted; a delimiter
    ends the token; at the end of the stream a [getline] that has
    extracted nothing fails, which ends the loop. *)
Fixpoint splitLoop (delimiter : ascii) (ss : list ascii) (token : list ascii)
    : list string :=
  match ss with
  | [] =>
    match token with
    | [] => []
    | _ => [trim (string_of_list_ascii (rev token))]
    end
  | c :: ss =>
    if (c =? delimiter)%char
    then trim (string_of_list_ascii (rev token)) :: splitLoop delimiter ss []
    else splitLoop delimiter ss (c :: token)
  end.

Definition split (str : string) (delimiter : ascii) : list string :=
  splitLoop delimiter (list_ascii_of_string str) [].

(** [std::transform(result.begin(), result.end(), result.begin(), ::tolower)] *)
Definition toLower (str : string) : string :=
  string_of_list_ascii (map Double.tolower (list_ascii_of_string str)).

(** [readFile] in the file system [files]: the content, and what is
    written to [std::cerr]. *)
Definition readFile (files : gmap string string) (filename : string)
    : string * string :=
  match files !! filename with
  | Some content => (content, "")
  | None => ("", "Error: Could not open file " +:+ filename +:+ String LF "")
  end.

(** [throwError]: it always throws; the message names the line unless the
    line is [-1]. *)
Definition throwError {St A} (message : string) (line : Z) : Member St A :=
  if negb (line =? -1)%Z
  then throw ("Error at line " +:+ pretty line +:+ ": " +:+ message)
  else throw ("Error: " +:+ message).

End Utils.

(** ** Values (executor.h, executor.cpp) *)

(** [Value::FileObject].  The constructor of the struct sets [is_open]. *)
Record FileObject : Set := mkFileObject {
  filename : string;
  mode : string;
  is_binary : bool;
  is_open : bool
}.

(** [Value]: the [type] tag decides which member is meaningful, so the
    class is a tagged union.  [file_object] is a [unique_ptr], hence the
    option.  Copying a [Value] copies the meaningful member ([list_value]
    element by element, [file_object] field by field), which is what
    passing a term around does here. *)
Inductive Value : Set :=
  | VNumber (number : Double.t)
  | VString (string_value : string)
  | VBoolean (boolean : bool)
  | VNone
  | VFileObject (file_object : option FileObject)
  | VList (list_value : list Value).

Module Value.

(** The [NUMBER] case of [toString]. *)
Definition numberToString (number : Double.t) : string :=
  let ll := Double.to_long_long number in
  if Double.eqb number (Double.of_Z ll) then pretty ll
  else Double.to_stream number.

Fixpoint toString (v : Value) : string :=
  match v with
  | VNumber number => numberToString number
  | VString string_value => string_value
  | VBoolean boolean => if boolean then "True" else "False"
  | VList list_value =>
    "[" +:+
    (fix elems (i : nat) (l : list Value) : string :=
       match l with
       | [] => ""
       | x :: r => (if 0 <? i then ", " else "") +:+ toString x +:+ elems (S i) r
       end) 0 list_value
    +:+ "]"
  | VFileObject (Some file_object) =>
    "<file '" +:+ filename file_object +:+ "' mode '" +:+ mode file_object +:+ "'>"
  | VFileObject None => "<closed file>"
  | VNone => "None"
  end.

Definition toNumber (v : Value) : Double.t :=
  match v with
  | VNumber number => number
  | VString string_value =>
    match Double.stod string_value with
    | Some x => x
    | None => Double.zero
    end
  | VBoolean boolean => if boolean then Double.one else Double.zero
  | VList list_value => Double.of_nat (length list_value)
  | VNone | VFileObject _ => Double.zero
  end.

Definition toBoolean (v : Value) : bool :=
  match v with
  | VNumber number => negb (Double.eqb number Double.zero)
  | VString string_value => negb (String.eqb string_value "")
  | VBoolean boolean => boolean
  | VList list_value => negb (bool_decide (length list_value = 0))
  | VFileObject (Some file_object) => is_open file_object
  | VFileObject None => false
  | VNone => false
  end.

End Value.

(** ** The executor (executor.cpp) *)

Module Executor.

(** The members of [Executor] and the world it acts on: the standard
    streams ([cin] as the lines still to be read, [cout] as the text
    written so far) and the file system ([files]: the content of each
    file that exists and can be read, by path; [writable]: the paths an
    [ofstream] can open, which leaves out the empty path, paths in
    directories that do not exist and files that are protected). *)
Record t : Type := mk {
  variables : gmap string Value;
  interactiveMode : bool;
  cin : list string;
  cout : string;
  files : gmap string string;
  writable : string -> bool
}.

Definition M (A : Type) : Type := Member t A.

(** [Executor::Executor(isInteractive)] in a given world. *)
Definition init (isInteractive : bool) (cin : list string)
    (files : gmap string string) (writable : string -> bool) : t :=
  mk ∅ isInteractive cin "" files writable.

Definition set_variables (f : gmap string Value -> gmap string Value) : M unit :=
  fun ex => (Ok tt, mk (f (variables ex)) (interactiveMode ex) (cin ex)
                       (cout ex) (files ex) (writable ex)).

Definition get_variables : M (gmap string Value) :=
  fun ex => (Ok (variables ex), ex).

Definition fastPutString (str : string) : M unit :=
  fun ex => (Ok tt, mk (variables ex) (interactiveMode ex) (cin ex)
                       (cout ex +:+ str) (files ex) (writable ex)).

(** [std::getline(std::cin, result)]; at end of input the line is empty. *)
Definition fastGetString : M string :=
  fun ex =>
    match cin ex with
    | l :: rest => (Ok l, mk (variables ex) (interactiveMode ex) rest
                             (cout ex) (files ex) (writable ex))
    | [] => (Ok "", ex)
    end.

(** [for (const auto& x : xs) f(x);] collecting what [f] returns. *)
Fixpoint forEach {A B} (f : A -> M B) (xs : list A) : M (list B) :=
  match xs with
  | [] => ret []
  | x :: xs =>
    let* y := f x in
    let* ys := forEach f xs in
    ret (y :: ys)
  end.

(** [for (int i = n - 1; i >= 0; i--) body(i)], where the body answers
    [Some r] for [return r] and [None] to go on. *)
Fixpoint forDown {A} (n : nat) (body : nat -> option A) : option A :=
  match n with
  | O => None
  | S i =>
    match body i with
    | Some r => Some r
    | None => forDown i body
    end
  end.

(** [expr.erase(std::remove_if(expr.begin(), expr.end(), ::isspace), expr.end())] *)
Definition eraseSpaces (s : string) : string :=
  string_of_list_ascii (List.filter (fun c => negb (isspace c)) (list_ascii_of_string s)).

Definition isDigitOrDot (c : ascii) : bool := isdigit c || (c =? ".")%char.

Definition isAlnumOrUnderscore (c : ascii) : bool := isalnum c || (c =? "_")%char.

(** The f-string mini-evaluator.  It reads the variables and nothing else.
    [self] stands for the recursive calls, which are on proper substrings.
    Nothing in the two [try] blocks can throw, so their
    [catch (...) { continue; }] has no counterpart.  [None] is the fuel
    running out.  For the empty text the code returns [Value("None")]: the
    argument is a string literal, which converts to [bool] by a standard
    conversion and to [std::string] only by a user-defined one, so the
    constructor chosen is [Value(bool)] and the value is the Boolean
    true. *)
Definition simpleExpression (self : string -> option Value)
    (variables : gmap string Value) (expr_str : string) : option Value :=
  let expr := eraseSpaces expr_str in
  if String.eqb expr "" then Some (VBoolean true)
  else if all_of isDigitOrDot expr then
    match Double.stod expr with
    | Some x => Some (VNumber x)
    | None => Some (VString expr)
    end
  else if all_of isAlnumOrUnderscore expr then
    match variables !! expr with
    | Some val =>
      Some match val with
           | VNumber number => VNumber number
           | VString string_value => VString string_value
           | VBoolean boolean => VBoolean boolean
           | VList list_value => VList list_value
           | VFileObject _ => VNone
           | VNone => VNone
           end
    | None => Some (VString ("{" +:+ expr +:+ "}"))
    end
  else
    let operands (i : nat) (k : Value -> Value -> Value) : option (option Value) :=
      let left_str := substr expr 0 i in
      let right_str := substr expr (i + 1) (String.length expr - (i + 1)) in
      if negb (String.eqb left_str "") && negb (String.eqb right_str "") then
        Some (left_val ← self left_str;
              right_val ← self right_str;
              Some (k left_val right_val))
      else None in
    let additive (i : nat) : option (option Value) :=
      let op := char_at expr i in
      if (op =? "+")%char then
        operands i (fun left_val right_val =>
          match left_val, right_val with
          | VString _, _ | _, VString _ =>
            VString (Value.toString left_val +:+ Value.toString right_val)
          | _, _ =>
            VNumber (Double.add (Value.toNumber left_val) (Value.toNumber right_val))
          end)
      else if (op =? "-")%char then
        operands i (fun left_val right_val =>
          VNumber (Double.sub (Value.toNumber left_val) (Value.toNumber right_val)))
      else None in
    let multiplicative (i : nat) : option (option Value) :=
      let op := char_at expr i in
      if (op =? "*")%char then
        operands i (fun left_val right_val =>
          VNumber (Double.mul (Value.toNumber left_val) (Value.toNumber right_val)))
      else if (op =? "/")%char then
        operands i (fun left_val right_val =>
          VNumber (Double.div (Value.toNumber left_val) (Value.toNumber right_val)))
      else if (op =? "%")%char then
        operands i (fun left_val right_val =>
          VNumber (Double.fmod (Value.toNumber left_val) (Value.toNumber right_val)))
      else None in
    match forDown (String.length expr) additive with
    | Some r => r
    | None =>
      match forDown (String.length expr) multiplicative with
      | Some r => r
      | None => Some (VString ("{" +:+ expr_str +:+ "}"))
      end
    end.

Fixpoint parseAndEvaluateSimpleExpressionFuel (fuel : nat)
    (variables : gmap string Value) (expr_str : string) : option Value :=
  match fuel with
  | O => None
  | S fuel =>
    simpleExpression (parseAndEvaluateSimpleExpressionFuel fuel variables)
      variables expr_str
  end.

(** Every recursive call is on a shorter text, so the length of the text
    (and one more for the call itself) is fuel enough. *)
Definition parseAndEvaluateSimpleExpression (expr_str : string) : M Value :=
  let* variables := get_variables in
  match parseAndEvaluateSimpleExpressionFuel (S (String.length expr_str))
          variables expr_str with
  | Some v => ret v
  | None => out_of_fuel
  end.

(** The escape [switch] of [evaluateFString]. *)
Definition unescape (c : ascii) : ascii :=
  if (c =? "n")%char then LF
  else if (c =? "r")%char then CR
  else if (c =? "t")%char then TAB
  else if (c =? "b")%char then BS
  else if (c =? "f")%char then FF
  else if (c =? "v")%char then VT
  else c.

(** The inner loop of [evaluateFString] that looks for the closing brace:
    the state is [(expr_end, brace_count)]. *)
Definition matchBrace (template_str : string) (expr_start : nat) : option (nat * nat) :=
  while (String.length template_str)
    (fun '(expr_end, brace_count) =>
       (expr_end <? String.length template_str) && (0 <? brace_count))
    (fun '(expr_end, brace_count) =>
       let brace_count :=
         if (char_at template_str expr_end =? "{")%char then brace_count + 1
         else if (char_at template_str expr_end =? "}")%char then brace_count - 1
         else brace_count in
       (if 0 <? brace_count then expr_end + 1 else expr_end, brace_count))
    (expr_start, 1).

(** The outer loop of [evaluateFString], from [pos] with [result] built so
    far. *)
Fixpoint evaluateFStringLoop (fuel : nat) (template_str : string) (pos : nat)
    (result : string) : M string :=
  match fuel with
  | O => out_of_fuel
  | S fuel =>
    if pos <? String.length template_str then
      let c := char_at template_str pos in
      if (c =? BACKSLASH)%char then
        if pos + 1 <? String.length template_str then
          evaluateFStringLoop fuel template_str (pos + 2)
            (result +:+ String (unescape (char_at template_str (pos + 1))) "")
        else
          evaluateFStringLoop fuel template_str (pos + 1) (result +:+ String c "")
      else if (c =? "{")%char then
        let expr_start := pos + 1 in
        match matchBrace template_str expr_start with
        | Some (expr_end, brace_count) =>
          if brace_count =? 0 then
            let expr_str := substr template_str expr_start (expr_end - expr_start) in
            let* expr_value := parseAndEvaluateSimpleExpression expr_str in
            evaluateFStringLoop fuel template_str (expr_end + 1)
              (result +:+ Value.toString expr_value)
          else
            evaluateFStringLoop fuel template_str (pos + 1) (result +:+ String c "")
        | None => out_of_fuel
        end
      else
        evaluateFStringLoop fuel template_str (pos + 1) (result +:+ String c "")
    else ret result
  end.

Definition evaluateFString (template_string : string) : M Value :=
  let* result := evaluateFStringLoop (S (String.length template_string))
                   template_string 0 "" in
  ret (VString result).

Definition evaluateLiteral (value : string) (type : TokenType) : M Value :=
  match type with
  | NUMBER =>
    match Double.stod value with
    | Some x => ret (VNumber x)
    | None => throw "stod"
    end
  | STRING => ret (VString value)
  | TRUE => ret (VBoolean true)
  | FALSE => ret (VBoolean false)
  | _ => ret (VString value)
  end.

Definition evaluateIdentifier (name : string) : M Value :=
  let* variables := get_variables in
  match variables !! name with
  | Some v => ret v
  | None => ret VNone
  end.

(** [evaluateFileRead]: the file is opened for each read. *)
Definition evaluateFileRead (filename : string) (is_binary : bool) : M Value :=
  fun ex =>
    match files ex !! filename with
    | Some content => (Ok (VString content), ex)
    | None =>
      (Throw ("File read error: Could not open file for reading: " +:+ filename), ex)
    end.

(** [evaluateFileWrite]: the file is opened for each write, appending when
    the mode holds an [a] and truncating otherwise (with or without [w]:
    an [ofstream] opened with [std::ios::out] alone truncates as well).
    When the stream does not open, the [runtime_error] thrown inside the
    [try] block is caught and thrown again under [File write error: ]. *)
Definition evaluateFileWrite (filename data : string) (is_binary : bool)
    (mode : string) : M Value :=
  fun ex =>
    if writable ex filename then
      let old := if contains "a" mode then default "" (files ex !! filename) else "" in
      (Ok (VNumber (Double.of_nat (String.length data))),
       mk (variables ex) (interactiveMode ex) (cin ex) (cout ex)
          (<[filename := old +:+ data]> (files ex)) (writable ex))
    else
      (Throw ("File write error: Could not open file for writing: " +:+ filename), ex).

Section Members.

(** [this->evaluateExpression] and [this->executeStatement] as the members
    below call them; the knot is tied after the section. *)
Variable self_evaluateExpression : ExprNode -> M Value.
Variable self_executeStatement : StmtNode -> M unit.

Definition evaluateList (elements : list ExprNode) : M Value :=
  let* elements := forEach self_evaluateExpression elements in
  ret (VList elements).

Definition evaluateIndex (array index : ExprNode) : M Value :=
  let* array := self_evaluateExpression array in
  let* idx := self_evaluateExpression index in
  match array with
  | VList list_value =>
    let index_val := Double.to_int (Value.toNumber idx) in
    if (0 <=? index_val)%Z && (index_val <? Z.of_nat (length list_value))%Z
    then ret (nth (Z.to_nat index_val) list_value VNone)
    else throw "Index out of range"
  | _ => throw "Indexing not supported for this type"
  end.

Definition evaluateBinary (left : ExprNode) (op : TokenType) (right : ExprNode)
    : M Value :=
  let* left := self_evaluateExpression left in
  let* right := self_evaluateExpression right in
  match op with
  | PLUS =>
    match left, right with
    | VString _, _ | _, VString _ =>
      ret (VString (Value.toString left +:+ Value.toString right))
    | VList l, VList r => ret (VList (l ++ r))
    | _, _ => ret (VNumber (Double.add (Value.toNumber left) (Value.toNumber right)))
    end
  | MINUS => ret (VNumber (Double.sub (Value.toNumber left) (Value.toNumber right)))
  | MULTIPLY => ret (VNumber (Double.mul (Value.toNumber left) (Value.toNumber right)))
  | DIVIDE => ret (VNumber (Double.div (Value.toNumber left) (Value.toNumber right)))
  | MODULO => ret (VNumber (Double.fmod (Value.toNumber left) (Value.toNumber right)))
  | _ => ret VNone
  end.

(** Without an argument [evaluateStr] returns [Value("")] and
    [evaluateRepr] returns [Value("''")]: both arguments are string
    literals, so the constructor chosen is [Value(bool)] (see
    [simpleExpression]) and the value is the Boolean true. *)
Definition evaluateStr (arguments : list ExprNode) : M Value :=
  match arguments with
  | [] => ret (VBoolean true)
  | a :: _ =>
    let* arg := self_evaluateExpression a in
    ret (VString (Value.toString arg))
  end.

Definition evaluateRepr (arguments : list ExprNode) : M Value :=
  match arguments with
  | [] => ret (VBoolean true)
  | a :: _ =>
    let* arg := self_evaluateExpression a in
    let str := Value.toString arg in
    match arg with
    | VString _ => ret (VString ("'" +:+ str +:+ "'"))
    | _ => ret (VString str)
    end
  end.

Definition evaluateInt (arguments : list ExprNode) : M Value :=
  match arguments with
  | [] => ret (VNumber Double.zero)
  | a :: _ =>
    let* arg := self_evaluateExpression a in
    ret (VNumber (Double.of_Z (Double.to_long_long (Value.toNumber arg))))
  end.

Definition evaluateFloat (arguments : list ExprNode) : M Value :=
  match arguments with
  | [] => ret (VNumber Double.zero)
  | a :: _ =>
    let* arg := self_evaluateExpression a in
    ret (VNumber (Value.toNumber arg))
  end.

Definition evaluateBool (arguments : list ExprNode) : M Value :=
  match arguments with
  | [] => ret (VBoolean false)
  | a :: _ =>
    let* arg := self_evaluateExpression a in
    ret (VBoolean (Value.toBoolean arg))
  end.

Definition evaluateLen (arguments : list ExprNode) : M Value :=
  match arguments with
  | [] => ret (VNumber Double.zero)
  | a :: _ =>
    let* arg := self_evaluateExpression a in
    match arg with
    | VList list_value => ret (VNumber (Double.of_nat (length list_value)))
    | _ => ret (VNumber (Double.of_nat (String.length (Value.toString arg))))
    end
  end.

Definition evaluateOpen (arguments : list ExprNode) : M Value :=
  match arguments with
  | [] => throw "open() missing required argument 'file'"
  | a :: rest =>
    let* filename_value := self_evaluateExpression a in
    let filename := Value.toString filename_value in
    let* mode :=
      match rest with
      | [] => ret "r"
      | b :: _ =>
        let* mode_value := self_evaluateExpression b in
        ret (Value.toString mode_value)
      end in
    let is_binary := contains "b" mode in
    ret (VFileObject (Some (mkFileObject filename mode is_binary true)))
  end.

Definition evaluateEval (arguments : list ExprNode) : M Value :=
  match arguments with
  | [] => throw "eval() missing required argument"
  | a :: _ =>
    let* expr_value := self_evaluateExpression a in
    let expr_str := Value.toString expr_value in
    match (if all_of isDigitOrDot expr_str then Double.stod expr_str else None) with
    | Some x => ret (VNumber x)
    | None =>
      try_catch
        (match Lexer.tokenize expr_str with
         | Some tokens =>
           let* expr_node := lift (Parser.parseExpressionPublic tokens) in
           self_evaluateExpression expr_node
         | None => out_of_fuel
         end)
        (fun _ => parseAndEvaluateSimpleExpression expr_str)
    end
  end.

(** [code_str.back()] of a non-empty text. *)
Definition endsWithNewline (s : string) : bool :=
  (char_at s (String.length s - 1) =? LF)%char.

Definition evaluateExec (arguments : list ExprNode) : M Value :=
  match arguments with
  | [] => throw "exec() missing required argument"
  | a :: _ =>
    let* code_value := self_evaluateExpression a in
    let code_str := Value.toString code_value in
    try_catch
      (let code_str :=
         if negb (String.eqb code_str "") && negb (endsWithNewline code_str)
         then code_str +:+ String LF "" else code_str in
       match Lexer.tokenize code_str with
       | Some tokens =>
         let* statements := lift (Parser.parse tokens) in
         let* _ := forEach self_executeStatement statements in
         ret VNone
       | None => out_of_fuel
       end)
      (fun what => throw ("exec error: " +:+ what))
  end.

Definition executeWith (context_expr : ExprNode) (optional_vars : string)
    (body : list StmtNode) : M unit :=
  try_catch
    (let* context_value := self_evaluateExpression context_expr in
     let* _ :=
       (if negb (String.eqb optional_vars "")
        then set_variables (insert optional_vars context_value)
        else ret tt) in
     let* _ := forEach self_executeStatement body in
     if negb (String.eqb optional_vars "")
     then set_variables (delete optional_vars)
     else ret tt)
    (fun what => throw ("with statement error: " +:+ what)).

(** [fileValue.file_object] in [evaluateCall].  [fileValue] refers to the
    map entry found before the arguments are evaluated and is read after
    it: it is the handle the name is bound to then.  Were the entry given
    a value of another type in between, the assignment operator of [Value]
    would leave the old pointer in place ([found]); were the entry erased,
    the reference would dangle, which the embedding treats alike. *)
Definition fileValue (name : string) (found : option FileObject)
    : M (option FileObject) :=
  let* variables := get_variables in
  match variables !! name with
  | Some (VFileObject (Some fo)) => ret (Some fo)
  | _ => ret found
  end.

(** [fileValue.file_object->is_open = false] *)
Definition closeFile (name : string) : M unit :=
  set_variables (fun variables =>
    match variables !! name with
    | Some (VFileObject (Some fo)) =>
      <[name := VFileObject (Some (mkFileObject (filename fo) (mode fo)
                                     (is_binary fo) false))]> variables
    | _ => variables
    end).

(** The text [print] writes: the renderings joined by [sep]. *)
Fixpoint joined (sep : string) (i : nat) (values : list Value) : string :=
  match values with
  | [] => ""
  | v :: r => (if 0 <? i then sep else "") +:+ Value.toString v +:+ joined sep (S i) r
  end.

Definition evaluateCall (callee : ExprNode) (arguments : list ExprNode) : M Value :=
  match callee with
  | IdentifierExpr funcName =>
    if String.eqb funcName "str" then evaluateStr arguments
    else if String.eqb funcName "repr" then evaluateRepr arguments
    else if String.eqb funcName "int" then evaluateInt arguments
    else if String.eqb funcName "float" then evaluateFloat arguments
    else if String.eqb funcName "bool" then evaluateBool arguments
    else if String.eqb funcName "len" then evaluateLen arguments
    else if String.eqb funcName "input" then
      let* _ :=
        match arguments with
        | [] => ret tt
        | a :: _ =>
          let* prompt := self_evaluateExpression a in
          fastPutString (Value.toString prompt)
        end in
      let* input := fastGetString in
      ret (VString input)
    else if String.eqb funcName "print" then
      let* args := forEach self_evaluateExpression arguments in
      let* _ := fastPutString (joined " " 0 args +:+ String LF "") in
      ret VNone
    else if String.eqb funcName "open" then evaluateOpen arguments
    else if String.eqb funcName "eval" then evaluateEval arguments
    else if String.eqb funcName "exec" then evaluateExec arguments
    else
      let* variables := get_variables in
      match variables !! funcName with
      | Some (VFileObject found) =>
        match arguments with
        | [] => ret VNone
        | a :: rest =>
          let* methodValue := self_evaluateExpression a in
          let methodName := Value.toString methodValue in
          let* file_object := fileValue funcName found in
          match file_object with
          | Some fo =>
            if String.eqb methodName "read"
            then evaluateFileRead (filename fo) (is_binary fo)
            else if String.eqb methodName "write" && (1 <? length arguments)
            then
              match rest with
              | b :: _ =>
                let* dataValue := self_evaluateExpression b in
                let* file_object := fileValue funcName (Some fo) in
                match file_object with
                | Some fo =>
                  evaluateFileWrite (filename fo) (Value.toString dataValue)
                    (is_binary fo) (mode fo)
                | None => undefined
                end
              | [] => ret VNone
              end
            else if String.eqb methodName "close"
            then let* _ := closeFile funcName in ret VNone
            else ret VNone
          | None => ret VNone
          end
        end
      | _ => throw ("Function " +:+ funcName +:+ " is not defined")
      end
  | _ =>
    (* [dynamic_cast<IdentifierExpr*>] answers a null pointer, which is
       dereferenced at once. *)
    undefined
  end.

Definition executePrint (expressions : list ExprNode) : M unit :=
  let* values := forEach self_evaluateExpression expressions in
  fastPutString (joined "" 0 values +:+ String LF "").

Definition executeAssignment (variable : string) (value : ExprNode) : M unit :=
  let* value := self_evaluateExpression value in
  set_variables (insert variable value).

(** The [dynamic_cast] chains of [evaluateExpression] and
    [executeStatement]. *)
Definition evaluateExpressionBody (expr : ExprNode) : M Value :=
  match expr with
  | LiteralExpr value type => evaluateLiteral value type
  | ListExpr elements => evaluateList elements
  | IndexExpr array index => evaluateIndex array index
  | FStringExpr template_string => evaluateFString template_string
  | IdentifierExpr name => evaluateIdentifier name
  | BinaryExpr lhs op rhs => evaluateBinary lhs op rhs
  | CallExpr callee arguments => evaluateCall callee arguments
  end.

Definition executeStatementBody (stmt : StmtNode) : M unit :=
  match stmt with
  | PrintStmt expressions => executePrint expressions
  | AssignStmt variable value => executeAssignment variable value
  | WithStmt context_expr optional_vars body =>
    executeWith context_expr optional_vars body
  | ExprStmt expression =>
    let* result := self_evaluateExpression expression in
    fun ex =>
      if interactiveMode ex && negb (match result with VNone => true | _ => false end)
      then fastPutString (Value.toString result +:+ String LF "") ex
      else (Ok tt, ex)
  end.

End Members.

(** The knot: one unit of fuel per nested call of [evaluateExpression] or
    [executeStatement].  The nesting is bounded by the depth of the tree
    unless [eval] and [exec] re-enter the interpreter, which a program can
    make do without end. *)
Fixpoint evaluateExpression (fuel : nat) (expr : ExprNode) : M Value :=
  match fuel with
  | O => out_of_fuel
  | S fuel =>
    evaluateExpressionBody (evaluateExpression fuel) (executeStatement fuel) expr
  end

with executeStatement (fuel : nat) (stmt : StmtNode) : M unit :=
  match fuel with
  | O => out_of_fuel
  | S fuel =>
    executeStatementBody (evaluateExpression fuel) (executeStatement fuel) stmt
  end.

(** [Executor::execute(statements)] *)
Definition execute (fuel : nat) (statements : list StmtNode) : M unit :=
  let* _ := forEach (executeStatement fuel) statements in
  ret tt.

End Executor.

(** ** The interpreter (interpreter.cpp) *)

Module PythonInterpreter.

(** The interpreter owns an executor; [cerr] is the text written to
    [std::cerr] so far. *)
Record t : Type := mk {
  executor : Executor.t;
  cerr : string
}.

(** [PythonInterpreter::PythonInterpreter()] in a given world. *)
Definition init (cin : list string) (files : gmap string string)
    (writable : string -> bool) : t :=
  mk (Executor.init false cin files writable) "".

(** [executor->setInteractiveMode(interactive)] *)
Definition setInteractiveMode (interactive : bool) (it : t) : t :=
  let ex := executor it in
  mk (Executor.mk (Executor.variables ex) interactive (Executor.cin ex)
        (Executor.cout ex) (Executor.files ex) (Executor.writable ex))
     (cerr it).

(** [std::cout << str] *)
Definition put (str : string) (it : t) : t :=
  mk (snd (Executor.fastPutString str (executor it))) (cerr it).

(** [std::cerr << str] *)
Definition put_err (str : string) (it : t) : t :=
  mk (executor it) (cerr it +:+ str).

Definition endl : string := String LF "".

(** The [try] block shared by [executeFile] and [interactiveMode]: lex,
    parse and execute [source]; the outcome is that of the execution. *)
Definition run (fuel : nat) (source : string) (it : t) : result unit * t :=
  match Lexer.tokenize source with
  | Some tokens =>
    match Parser.parse tokens with
    | Ok statements =>
      let '(r, ex) := Executor.execute fuel statements (executor it) in
      (r, mk ex (cerr it))
    | Throw what => (Throw what, it)
    | OutOfFuel => (OutOfFuel, it)
    | Undefined => (Undefined, it)
    end
  | None => (OutOfFuel, it)
  end.

Definition executeFile (fuel : nat) (filename : string) (it : t) : result bool * t :=
  let '(source, err) := Utils.readFile (Executor.files (executor it)) filename in
  let it := put_err err it in
  if String.eqb source "" then (Ok false, it)
  else
    match Lexer.tokenize source with
    | Some tokens =>
      match Parser.parse tokens with
      | Ok statements =>
        let it := setInteractiveMode false it in
        match Executor.execute fuel statements (executor it) with
        | (Ok _, ex) => (Ok true, mk ex (cerr it))
        | (Throw what, ex) =>
          (Ok false, put_err ("Error: " +:+ what +:+ endl) (mk ex (cerr it)))
        | (OutOfFuel, ex) => (OutOfFuel, mk ex (cerr it))
        | (Undefined, ex) => (Undefined, mk ex (cerr it))
        end
      | Throw what => (Ok false, put_err ("Error: " +:+ what +:+ endl) it)
      | OutOfFuel => (OutOfFuel, it)
      | Undefined => (Undefined, it)
      end
    | None => (OutOfFuel, it)
    end.

Definition help_text : string :=
  "Welcome to CPPython help utility!" +:+ endl
  +:+ endl
  +:+ "Supported features:" +:+ endl
  +:+ "  - Basic arithmetic operations (+, -, *, /, %)" +:+ endl
  +:+ "  - Variable assignment (x = 5)" +:+ endl
  +:+ "  - Print statements (print(" +:+ String DQUOTE "Hello" +:+ String DQUOTE "))" +:+ endl
  +:+ "  - Input function (input(" +:+ String DQUOTE "prompt" +:+ String DQUOTE "))" +:+ endl
  +:+ "  - F-strings (f" +:+ String DQUOTE "{x}+{y}={x+y}" +:+ String DQUOTE ")" +:+ endl
  +:+ "  - String operations" +:+ endl
  +:+ "  - eval() and exec() functions" +:+ endl
  +:+ "  - Escape sequences (" +:+ String BACKSLASH "n, " +:+ String BACKSLASH "t, "
      +:+ String BACKSLASH (String BACKSLASH ", etc.)") +:+ endl
  +:+ "  - List operations (one-dimensional and multi-dimensional)" +:+ endl
  +:+ "  - File operations (open, read, write, with statement)" +:+ endl
  +:+ "  - Built-in functions (str, int, float, bool, len, repr)" +:+ endl
  +:+ "  - Comments (# this is a comment)" +:+ endl
  +:+ endl
  +:+ "Type " +:+ String DQUOTE "copyright" +:+ String DQUOTE ", "
      +:+ String DQUOTE "credits" +:+ String DQUOTE " or "
      +:+ String DQUOTE "license" +:+ String DQUOTE " for more information." +:+ endl
  +:+ "Type " +:+ String DQUOTE "exit()" +:+ String DQUOTE " or "
      +:+ String DQUOTE "quit()" +:+ String DQUOTE " to exit." +:+ endl.

(** What the interactive mode answers to a line that is one of its own
    words, if it is one. *)
Definition directive (line : string) : option string :=
  if String.eqb line "help()" then Some help_text
  else if String.eqb line "help" then
    Some ("Type help() for interactive help, or help(object) for help about object."
          +:+ endl)
  else if String.eqb line "copyright" then
    Some ("Copyright (c) 2024 CPPython Project. All Rights Reserved." +:+ endl)
  else if String.eqb line "credits" then
    Some ("    Thanks to Python Software Foundation for inspiration" +:+ endl
          +:+ "    Thanks to Guido van Rossum for creating Python" +:+ endl
          +:+ "    Thanks to all contributors to this project" +:+ endl)
  else if String.eqb line "license" then
    Some ("CPPython is licensed under the MIT License." +:+ endl
          +:+ "See https://opensource.org/licenses/MIT for more information." +:+ endl)
  else if String.eqb line "" then Some ""
  else None.

(** [std::getline(std::cin, line)] as the loop condition: the line read,
    if there is one. *)
Definition getline (it : t) : option (string * t) :=
  let ex := executor it in
  match Executor.cin ex with
  | line :: rest =>
    Some (line, mk (Executor.mk (Executor.variables ex) (Executor.interactiveMode ex)
                      rest (Executor.cout ex) (Executor.files ex)
                      (Executor.writable ex))
                   (cerr it))
  | [] => None
  end.

(** The [while (true)] of [interactiveMode]; [rounds] bounds the number of
    lines read, [fuel] is what each line gets to execute. *)
Fixpoint interactiveLoop (rounds fuel : nat) (it : t) : result unit * t :=
  match rounds with
  | O => (OutOfFuel, it)
  | S rounds =>
    let it := put ">>> " it in
    match getline it with
    | None => (Ok tt, it)
    | Some (line, it) =>
      if String.eqb line "exit()" || String.eqb line "quit()" then (Ok tt, it)
      else
        match directive line with
        | Some answer => interactiveLoop rounds fuel (put answer it)
        | None =>
          match run fuel line it with
          | (Ok _, it) => interactiveLoop rounds fuel it
          | (Throw what, it) =>
            interactiveLoop rounds fuel (put_err ("Error: " +:+ what +:+ endl) it)
          | (OutOfFuel, it) => (OutOfFuel, it)
          | (Undefined, it) => (Undefined, it)
          end
        end
    end
  end.

Definition banner : string :=
  "CPPython 1.0.3 (simplified interpreter)" +:+ endl
  +:+ "Type " +:+ String DQUOTE "help" +:+ String DQUOTE ", "
  +:+ String DQUOTE "copyright" +:+ String DQUOTE ", "
  +:+ String DQUOTE "credits" +:+ String DQUOTE " or "
  +:+ String DQUOTE "license" +:+ String DQUOTE " for more information." +:+ endl.

(** Every round but the last reads a line, so one round more than there
    are lines is enough. *)
Definition interactiveMode (fuel : nat) (it : t) : result unit * t :=
  let it := put banner it in
  let it := setInteractiveMode true it in
  interactiveLoop (S (length (Executor.cin (executor it)))) fuel it.

Definition showHelp (it : t) : t :=
  put ("usage: python [option] ... [-c cmd | -m mod | file | -] [arg] ..." +:+ endl
       +:+ "Options and arguments:" +:+ endl
       +:+ "-h, --help     : print this help message and exit" +:+ endl
       +:+ "-v, --version  : print the Python version number and exit" +:+ endl
       +:+ "file           : program read from script file" +:+ endl
       +:+ "-              : program read from stdin" +:+ endl
       +:+ "arg ...        : arguments passed to program in sys.argv[1:]" +:+ endl) it.

Definition showVersion (it : t) : t :=
  put ("CPPython 1.0.3 (simplified interpreter)" +:+ endl) it.

End PythonInterpreter.

(** ** Notions the theorems are stated with *)

(** The characters for which the main loop of [tokenize] has no rule:
    neither white space, nor the end mark, nor the start of a comment, a
    number, a string or an identifier, nor one of the operator and
    delimiter characters of the [switch]. *)
Definition noRule (c : ascii) : bool :=
  negb (isspace c) && negb (c =? NUL)%char && negb (c =? "#")%char
  && negb (isdigit c) && negb (c =? DQUOTE)%char && negb (c =? SQUOTE)%char
  && negb (isalpha c) && negb (c =? "_")%char
  && negb (existsb (Ascii.eqb c) (list_ascii_of_string "+-*/%=!<>(){}[],.:;")).

(** The recovery policy of [Parser::parse], in the words of the
    specification.

    [Discards tokens c r]: from the cursor [c] the tokens up to the next
    NEWLINE or EOF are discarded, and parsing resumes at [r]: behind that
    NEWLINE, or on that EOF. *)
Definition Discards (tokens : list Token) (c r : nat) : Prop :=
  exists n,
    c <= n
    /\ (forall i, c <= i < n ->
          type (Parser.token_at tokens i) <> NEWLINE
          /\ type (Parser.token_at tokens i) <> EOF_TOKEN)
    /\ ((type (Parser.token_at tokens n) = NEWLINE /\ r = n + 1)
        \/ (type (Parser.token_at tokens n) = EOF_TOKEN /\ r = n)).

(** [Recovers tokens c statements]: [statements] are the statements that
    parse one after the other from the cursor [c] to the EOF token, where
    a statement that fails to parse contributes nothing and is followed by
    the discarding above, and a statement that parses is optionally
    followed by one NEWLINE. *)
Inductive Recovers (tokens : list Token) : nat -> list StmtNode -> Prop :=
  | Recovers_EOF (c : nat) :
      type (Parser.token_at tokens c) = EOF_TOKEN ->
      Recovers tokens c []
  | Recovers_NEWLINE (c : nat) (statements : list StmtNode) :
      type (Parser.token_at tokens c) = NEWLINE ->
      Recovers tokens (c + 1) statements ->
      Recovers tokens c statements
  | Recovers_statement (c c' : nat) (stmt : StmtNode) (statements : list StmtNode) :
      type (Parser.token_at tokens c) <> EOF_TOKEN ->
      type (Parser.token_at tokens c) <> NEWLINE ->
      Parser.parseStatement tokens (Parser.descent_fuel tokens) c = (Ok stmt, c') ->
      Recovers tokens
        (if bool_decide (type (Parser.token_at tokens c') = NEWLINE) then c' + 1 else c')
        statements ->
      Recovers tokens c (stmt :: statements)
  | Recovers_failure (c c' r : nat) (what : string) (statements : list StmtNode) :
      type (Parser.token_at tokens c) <> EOF_TOKEN ->
      type (Parser.token_at tokens c) <> NEWLINE ->
      Parser.parseStatement tokens (Parser.descent_fuel tokens) c = (Throw what, c') ->
      Discards tokens c' r ->
      Recovers tokens r statements ->
      Recovers tokens c statements.

(** Whether the text begins, after leading white space and an optional
    sign, with something [std::stod] converts: a digit, a point followed by
    a digit, [inf] or [nan] in any case. *)
Definition hasNumericPrefix (s : string) : bool :=
  let l := dropwhile_space (list_ascii_of_string s) in
  let l := match l with
           | "-"%char :: r => r
           | "+"%char :: r => r
           | _ => l
           end in
  Double.prefix_ci "inf" l || Double.prefix_ci "nan" l
  || match l with
     | c :: r =>
       isdigit c
       || ((c =? ".")%char && match r with d :: _ => isdigit d | [] => false end)
     | [] => false
     end.

(** The names [evaluateCall] dispatches on before it looks for a file
    handle. *)
Definition isBuiltin (funcName : string) : bool :=
  existsb (String.eqb funcName)
    ["str"; "repr"; "int"; "float"; "bool"; "len"; "input"; "print"; "open";
     "eval"; "exec"].

(** The fault [evaluateCall] raises for a callee it does not know. *)
Definition undefinedFunction (funcName : string) : string :=
  "Function " +:+ funcName +:+ " is not defined".

(** Notions of the proofs about the lexer. *)

(** The part of the source still to be read. *)
Definition remaining (lx : Lexer.t) : nat := String.length (Lexer.source lx) - Lexer.pos lx.

(** [lx'] is [lx] further on in the same source. *)
Definition reaches (lx lx' : Lexer.t) : Prop :=
  Lexer.source lx' = Lexer.source lx
  /\ Lexer.pos lx <= Lexer.pos lx'
  /\ Lexer.pos lx' <= String.length (Lexer.source lx).


(** Notions of the proofs about the parser. *)

(** The outcome [r] of a parser member run from the cursor [current],
    with [e] the index of an EOF token: it is not an exhausted fuel, the
    cursor has not moved back nor beyond [e], and on success it has moved
    forward when [strict] is set. *)
Definition good {A} (e current : nat) (strict : bool) (r : result A * nat) : Prop :=
  match r with
  | (Ok _, current') =>
    (if strict then current < current' else current <= current') /\ current' <= e
  | (Throw _, current') => current <= current' /\ current' <= e
  | (OutOfFuel, _) => False
  | (Undefined, _) => False
  end.

(** What the expression descent owes at fuel [fuel]: each function is good
    from every cursor up to [e], provided the fuel exceeds eight units per
    token left plus the depth at which the function sits in the chain of
    calls that consume nothing. *)
Definition enough (e rank fuel current : nat) : Prop :=
  current <= e /\ 8 * (e - current) + rank < fuel.

Record ExprDescent (tokens : list Token) (e fuel : nat) : Prop := {
  d_expression : forall c, enough e 6 fuel c -> good e c true (Parser.parseExpression tokens fuel c);
  d_comparison : forall c, enough e 5 fuel c -> good e c true (Parser.parseComparison tokens fuel c);
  d_comparisonLoop : forall c x, enough e 0 fuel c ->
    good e c false (Parser.parseComparisonLoop tokens fuel x c);
  d_term : forall c, enough e 4 fuel c -> good e c true (Parser.parseTerm tokens fuel c);
  d_termLoop : forall c x, enough e 0 fuel c -> good e c false (Parser.parseTermLoop tokens fuel x c);
  d_factor : forall c, enough e 3 fuel c -> good e c true (Parser.parseFactor tokens fuel c);
  d_factorLoop : forall c x, enough e 0 fuel c ->
    good e c false (Parser.parseFactorLoop tokens fuel x c);
  d_unary : forall c, enough e 2 fuel c -> good e c true (Parser.parseUnary tokens fuel c);
  d_elementsLoop : forall c v, enough e 7 fuel c ->
    good e c true (Parser.parseElementsLoop tokens fuel v c);
  d_call : forall c x, enough e 8 fuel c -> good e c false (Parser.parseCall tokens fuel x c);
  d_list : forall c, enough e 0 fuel c -> good e c true (Parser.parseList tokens fuel c);
  d_index : forall c x, enough e 0 fuel c -> good e c true (Parser.parseIndex tokens fuel x c);
  d_primary : forall c, enough e 1 fuel c -> good e c true (Parser.parsePrimary tokens fuel c);
  d_primaryLoop : forall c x, enough e 1 fuel c ->
    good e c false (Parser.parsePrimaryLoop tokens fuel x c)
}.

(** The same for the statements. *)
Record StmtDescent (tokens : list Token) (e fuel : nat) : Prop := {
  d_with : forall c, enough e 1 fuel c -> good e c true (Parser.parseWithStatement tokens fuel c);
  d_withLoop : forall c body, enough e 8 fuel c ->
    good e c false (Parser.parseWithLoop tokens fuel body c);
  d_statement : forall c, enough e 7 fuel c -> good e c true (Parser.parseStatement tokens fuel c)
}.


(** Inputs of the examples. *)

(** The paths that open for writing in the examples: all but the empty
    one. *)
Definition nonempty (path : string) : bool := negb (String.eqb path "").

(** The tokens of [x = (], a line break, [print(1)], a line break. *)
Definition malformed_then_print : list Token :=
  [mkToken IDENTIFIER "x" 1 1; mkToken ASSIGN "=" 1 2; mkToken LPAREN "(" 1 4;
   mkToken NEWLINE (String LF "") 1 5;
   mkToken PRINT "print" 2 5; mkToken LPAREN "(" 2 5; mkToken NUMBER "1" 2 7;
   mkToken RPAREN ")" 2 7; mkToken NEWLINE (String LF "") 2 8;
   mkToken EOF_TOKEN "" 3 0].

Definition list_10_20_30 : ExprNode :=
  ListExpr [LiteralExpr "10" NUMBER; LiteralExpr "20" NUMBER; LiteralExpr "30" NUMBER].

Definition three_numbers : Value :=
  VList [VNumber (Double.of_Z 10); VNumber (Double.of_Z 20); VNumber (Double.of_Z 30)].

Definition with_xs : Executor.t := Executor.mk (<["xs" := three_numbers]> ∅) false [] "" ∅ nonempty.

Definition one_two : Value := VList [VNumber (Double.of_Z 1); VNumber (Double.of_Z 2)].

Definition with_a_b : Executor.t :=
  Executor.mk (<["a" := one_two]> (<["b" := VList [VNumber (Double.of_Z 3)]]> ∅)) false [] "" ∅ nonempty.

Definition a_handle : Value :=
  VFileObject (Some (mkFileObject "f.txt" "r" false true)).

Definition with_fh : Executor.t := Executor.mk (<["fh" := a_handle]> ∅) false [] "" ∅ nonempty.

Definition with_len : Executor.t := Executor.mk (<["len" := a_handle]> ∅) false [] "" ∅ nonempty.



Definition with_n : Executor.t := Executor.mk (<["n" := VNumber (Double.of_Z 5)]> ∅) false [] "" ∅ nonempty.

Definition with_x_y : Executor.t :=
  Executor.mk (<["x" := VNumber (Double.of_Z 2)]> (<["y" := VNumber (Double.of_Z 3)]> ∅))
     false [] "" ∅ nonempty.

(** Notions of the further properties of the lexer. *)

(** The text that goes with a token kind the lexer produces from a fixed
    spelling. *)
Definition spelling (ty : TokenType) : option string :=
  match ty with
  | PLUS => Some "+" | MINUS => Some "-" | MULTIPLY => Some "*"
  | DIVIDE => Some "/" | MODULO => Some "%"
  | ASSIGN => Some "=" | EQUAL => Some "==" | NOT_EQUAL => Some "!="
  | LESS => Some "<" | GREATER => Some ">"
  | LPAREN => Some "(" | RPAREN => Some ")"
  | LBRACE => Some "{" | RBRACE => Some "}"
  | LBRACKET => Some "[" | RBRACKET => Some "]"
  | COMMA => Some "," | DOT => Some "." | COLON => Some ":" | SEMICOLON => Some ";"
  | NEWLINE => Some (String LF "")
  | EOF_TOKEN => Some ""
  | PRINT => Some "print" | INPUT => Some "input" | IF => Some "if"
  | ELSE => Some "else" | FOR => Some "for" | WHILE => Some "while"
  | DEF => Some "def" | RETURN => Some "return"
  | TRUE => Some "True" | FALSE => Some "False" | NONE => Some "None"
  | _ => None
  end.

(** A token of a kind the lexer has a rule for, with the text of the kind
    when the kind has one. *)
Definition lexed (tok : Token) : bool :=
  match type tok with
  | NUMBER | STRING | IDENTIFIER => true
  | F_STRING | WITH | AS | COMMENT => false
  | ty => bool_decide (spelling ty = Some (value tok))
  end.

(** A name: letters, digits and underscores, the first of them no digit. *)
Definition isName (s : string) : bool :=
  all_of Executor.isAlnumOrUnderscore s
  && (isalpha (char_at s 0) || (char_at s 0 =? "_")%char).

(** The loop of [isNumber] as a scan that answers the final [hasDot], if
    the loop accepts. *)
Fixpoint numScan (hasDot : bool) (s : list ascii) : option bool :=
  match s with
  | [] => Some hasDot
  | c :: r =>
    if (c =? ".")%char then
      if hasDot then None else numScan true r
    else if negb (isdigit c) then None
    else numScan hasDot r
  end.

(** Notions of the further properties of the parser. *)

(** The kinds of token [parsePrimary] has a branch for. *)
Definition startsExpression (ty : TokenType) : bool :=
  match ty with
  | NUMBER | STRING | F_STRING | TRUE | FALSE | LBRACKET | IDENTIFIER | LPAREN => true
  | _ => false
  end.

(** Notions of the properties of [Utils]. *)

(** Whether the text ends in a piece that no delimiter closes. *)
Definition endsOpen (str : string) (delimiter : ascii) : bool :=
  match rev (list_ascii_of_string str) with
  | [] => false
  | c :: _ => negb (c =? delimiter)%char
  end.

(** The text without its sign, as [isNumber] reads it. *)
Definition unsigned (str : string) : list ascii :=
  match list_ascii_of_string str with
  | c :: r => if (c =? "-")%char || (c =? "+")%char then r else c :: r
  | [] => []
  end.

Definition isupper (c : ascii) : bool :=
  let n := nat_of_ascii c in (65 <=? n) && (n <=? 90).

(** Notions of the further properties of the executor. *)

(** What a handle's [write] leaves in the file: the old content is kept
    only when the mode of the handle holds an [a]. *)
Definition written (fo : FileObject) (old : option string) (data : string) : string :=
  (if contains "a" (mode fo) then default "" old else "") +:+ data.

(** The handle [fo] after [close]. *)
Definition closed (fo : FileObject) : FileObject :=
  mkFileObject (filename fo) (mode fo) (is_binary fo) false.

(** The operators [parseComparison] builds a node for. *)
Definition isComparison (op : TokenType) : bool :=
  match op with
  | EQUAL | NOT_EQUAL | LESS | GREATER => true
  | _ => false
  end.

(** A template without an opening brace and without a backslash. *)
Definition plainText (s : string) : bool :=
  all_of (fun c => negb (c =? "{")%char && negb (c =? BACKSLASH)%char) s.

(** What the conversions among the built-in functions answer on the value
    of their first argument. *)
Definition conversion (funcName : string) (v : Value) : option Value :=
  if String.eqb funcName "str" then Some (VString (Value.toString v))
  else if String.eqb funcName "repr" then
    Some (VString match v with
                  | VString s => "'" +:+ s +:+ "'"
                  | _ => Value.toString v
                  end)
  else if String.eqb funcName "int" then
    Some (VNumber (Double.of_Z (Double.to_long_long (Value.toNumber v))))
  else if String.eqb funcName "float" then Some (VNumber (Value.toNumber v))
  else if String.eqb funcName "bool" then Some (VBoolean (Value.toBoolean v))
  else if String.eqb funcName "len" then
    Some (VNumber (Double.of_nat match v with
                                 | VList l => length l
                                 | _ => String.length (Value.toString v)
                                 end))
  else None.

(** The text [exec] hands to the lexer: a line break is added to a text
    that is not empty and does not end in one. *)
Definition execText (code_str : string) : string :=
  if negb (String.eqb code_str "") && negb (Executor.endsWithNewline code_str)
  then code_str +:+ String LF "" else code_str.

(** [ex'] is [ex] later in a run: the same mode, the output of [ex] with
    more behind it, the input of [ex] with less in front. *)
Definition extends (ex ex' : Executor.t) : Prop :=
  Executor.interactiveMode ex' = Executor.interactiveMode ex
  /\ (exists out, Executor.cout ex' = Executor.cout ex +:+ out)
  /\ (exists used, Executor.cin ex = used ++ Executor.cin ex').

(** The member [m] only ever takes the executor to a later one. *)
Definition framed {A} (m : Executor.M A) : Prop :=
  forall ex, extends ex (snd (m ex)).

(** The interpreter once the prompt is written and a line is read, with
    [rest] the lines still to be read. *)
Definition prompted (it : PythonInterpreter.t) (rest : list string)
    : PythonInterpreter.t :=
  let ex := PythonInterpreter.executor it in
  PythonInterpreter.mk
    (Executor.mk (Executor.variables ex) (Executor.interactiveMode ex) rest
       (Executor.cout ex +:+ ">>> ") (Executor.files ex) (Executor.writable ex))
    (PythonInterpreter.cerr it).

(** Inputs of the further examples. *)

(** The lexer on the ['#'] of [x # y]. *)
Definition at_the_hash : Lexer.t := Lexer.mk "x # y" 2 1 2.

(** The tokens of [-5]. *)
Definition minus_five : list Token :=
  [mkToken MINUS "-" 1 0; mkToken NUMBER "5" 1 2; mkToken EOF_TOKEN "" 1 2].

(** The tokens of [x = -5]. *)
Definition x_is_minus_five : list Token :=
  [mkToken IDENTIFIER "x" 1 1; mkToken ASSIGN "=" 1 2; mkToken MINUS "-" 1 4;
   mkToken NUMBER "5" 1 6; mkToken EOF_TOKEN "" 1 6].

Definition two_line_breaks : list Token :=
  [mkToken NEWLINE (String LF "") 1 0; mkToken NEWLINE (String LF "") 2 0].

Definition fresh : Executor.t := Executor.init false [] ∅ nonempty.

(** [fh] is bound to a handle on [f.txt], which holds [abc]. *)
Definition with_fh_on_disk : Executor.t :=
  Executor.mk (<["fh" := a_handle]> ∅) false [] "" (<["f.txt" := "abc"]> ∅) nonempty.

(** The with-statement [with open("f.txt") as fh:] with an empty body. *)
Definition with_nothing_to_do : StmtNode :=
  WithStmt (CallExpr (IdentifierExpr "open") [LiteralExpr "f.txt" STRING]) "fh" [].

(** An interpreter with the script [s.py] on disk and two lines to read. *)
Definition with_a_script : PythonInterpreter.t :=
  PythonInterpreter.mk
    (Executor.mk ∅ false ["exit()"; "x = 1"] ""
       (<["s.py" := "x = 1" +:+ String LF ""]> (<["empty.py" := ""]> ∅))
       nonempty)
    "".

(** The condition of the loop that skips white space. *)
Definition atBlank (lx : Lexer.t) : bool :=
  isspace (Lexer.currentChar lx) && negb (Lexer.currentChar lx =? LF)%char.

(** What a template region that names a variable takes of its value: a
    file handle is not copied. *)
Definition regionValue (val : Value) : Value :=
  match val with
  | VFileObject _ => VNone
  | _ => val
  end.

(** The characters a literal between double quotes can hold without
    ending or escaping: no quote, no backslash, no line feed, no NUL. *)
Definition literalChar (c : ascii) : bool :=
  negb (c =? DQUOTE)%char && negb (c =? BACKSLASH)%char
  && negb (c =? LF)%char && negb (c =? NUL)%char.

(** The script [print("text")]. *)
Definition printScript (text : string) : string :=
  "print(" +:+ String DQUOTE (text +:+ String DQUOTE ")").

(** An interpreter with the script [hi.py], which is [print("hi")]. *)
Definition with_a_greeting : PythonInterpreter.t :=
  PythonInterpreter.init [] (<["hi.py" := printScript "hi"]> ∅) nonempty.

(** * Theorems *)

(** ** Loops *)

Section WhileLoop.

Context {St : Type}.
Variable cond : St -> bool.
Variable body : St -> St.
Variable Inv : St -> Prop.
Variable measure : St -> nat.
Hypothesis step : forall s, Inv s -> cond s = true ->
  Inv (body s) /\ measure (body s) < measure s.

(** A loop whose body keeps an invariant and lowers a measure ends within
    as many rounds as the measure says, in a state where the invariant
    holds and the condition fails. *)
Lemma while_terminates (fuel : nat) (s : St) :
  Inv s -> measure s <= fuel ->
  exists s', while fuel cond body s = Some s' /\ Inv s' /\ cond s' = false.
Proof.
  revert s. induction fuel as [|fuel IH]; intros s HI Hm; simpl.
  - destruct (cond s) eqn:Hc.
    + destruct (step s HI Hc) as [_ Hlt]. lia.
    + exists s. auto.
  - destruct (cond s) eqn:Hc.
    + destruct (step s HI Hc) as [HI' Hlt]. apply IH; [assumption | lia].
    + exists s. auto.
Qed.

End WhileLoop.

Lemma while_false {St : Type} (cond : St -> bool) (body : St -> St)
    (fuel : nat) (s : St) :
  cond s = false -> while fuel cond body s = Some s.
Proof. intros H. destruct fuel; simpl; rewrite H; reflexivity. Qed.

Lemma while_true {St : Type} (cond : St -> bool) (body : St -> St)
    (fuel : nat) (s : St) :
  cond s = true -> while (S fuel) cond body s = while fuel cond body (body s).
Proof. intros H. simpl. rewrite H. reflexivity. Qed.

(** ** Characters and strings *)

Lemma get_None_length (s : string) (i : nat) :
  String.get i s = None <-> String.length s <= i.
Proof.
  revert i. induction s as [|c s IH]; intros i; simpl.
  - split; [lia | reflexivity].
  - destruct i as [|i]; simpl.
    + split; [discriminate | lia].
    + rewrite IH. lia.
Qed.

Lemma char_at_past_end (s : string) (i : nat) :
  String.length s <= i -> char_at s i = NUL.
Proof.
  intros H. unfold char_at. apply get_None_length in H. rewrite H. reflexivity.
Qed.

Lemma char_at_not_NUL (s : string) (i : nat) :
  char_at s i <> NUL -> i < String.length s.
Proof.
  intros H. destruct (Nat.lt_ge_cases i (String.length s)) as [Hlt|Hge]; [assumption|].
  exfalso. apply H, char_at_past_end, Hge.
Qed.

Lemma eqb_false_not_NUL (c d : ascii) :
  (c =? d)%char = true -> d <> NUL -> c <> NUL.
Proof. intros H Hd. apply Ascii.eqb_eq in H. congruence. Qed.

Lemma isspace_not_NUL (c : ascii) : isspace c = true -> c <> NUL.
Proof. intros H ->. discriminate H. Qed.

Lemma isdigit_not_NUL (c : ascii) : isdigit c = true -> c <> NUL.
Proof. intros H ->. discriminate H. Qed.

Lemma isalpha_not_NUL (c : ascii) : isalpha c = true -> c <> NUL.
Proof. intros H ->. discriminate H. Qed.

Lemma isalnum_not_NUL (c : ascii) : isalnum c = true -> c <> NUL.
Proof. intros H ->. discriminate H. Qed.

Lemma negb_eqb_NUL (c : ascii) : negb (c =? NUL)%char = true -> c <> NUL.
Proof.
  intros H. apply negb_true_iff in H. intros ->. rewrite Ascii.eqb_refl in H.
  discriminate.
Qed.

(** ** The lexer *)

Section LexerFacts.

Import Lexer.

Lemma reaches_refl (lx : t) :
  pos lx <= String.length (source lx) -> reaches lx lx.
Proof. unfold reaches. auto. Qed.

Lemma reaches_trans (a b c : t) : reaches a b -> reaches b c -> reaches a c.
Proof.
  unfold reaches. intros (Hs1 & H1 & H2) (Hs2 & H3 & H4).
  rewrite Hs1 in *. repeat split; [congruence | lia | lia].
Qed.

Lemma advance_source (lx : t) : source (advance lx) = source lx.
Proof.
  unfold advance. destruct (pos lx <? _); [|reflexivity].
  destruct (_ =? _)%char; reflexivity.
Qed.

Lemma advance_pos (lx : t) :
  pos lx < String.length (source lx) -> pos (advance lx) = pos lx + 1.
Proof.
  intros H. unfold advance. apply Nat.ltb_lt in H. rewrite H.
  destruct (_ =? _)%char; reflexivity.
Qed.

Lemma advance_reaches (lx : t) :
  pos lx <= String.length (source lx) -> reaches lx (advance lx).
Proof.
  intros H. unfold reaches. rewrite advance_source. split; [reflexivity|].
  unfold advance. destruct (pos lx <? _) eqn:E.
  - apply Nat.ltb_lt in E. destruct (_ =? _)%char; simpl; lia.
  - lia.
Qed.

Lemma currentChar_in_range (lx : t) :
  currentChar lx <> NUL -> pos lx < String.length (source lx).
Proof. apply char_at_not_NUL. Qed.

(** One step over a character that is there. *)
Lemma advance_step (lx0 lx : t) :
  reaches lx0 lx -> currentChar lx <> NUL ->
  reaches lx0 (advance lx) /\ remaining (advance lx) < remaining lx.
Proof.
  intros Hr Hc. pose proof (currentChar_in_range _ Hc) as Hlt.
  destruct Hr as (Hs & H1 & H2).
  unfold reaches, remaining. rewrite advance_source, advance_pos by assumption.
  rewrite Hs in *. repeat split; lia.
Qed.

(** A scanning loop whose condition holds only on a character that is
    there, and whose body is [advance]. *)
Lemma scan_terminates (cond : t -> bool) (lx : t) :
  (forall lx, cond lx = true -> currentChar lx <> NUL) ->
  pos lx <= String.length (source lx) ->
  exists lx', while (loop_fuel lx) cond advance lx = Some lx'
              /\ reaches lx lx' /\ cond lx' = false.
Proof.
  intros Hcond Hpos.
  apply (while_terminates cond advance (reaches lx) remaining).
  - intros s Hs Hc. apply advance_step; auto.
  - apply reaches_refl, Hpos.
  - unfold remaining, loop_fuel. lia.
Qed.

(** The same loop entered on a character that satisfies its condition
    moves on by at least one character. *)
Lemma scan_progress (cond : t -> bool) (lx : t) :
  (forall lx, cond lx = true -> currentChar lx <> NUL) ->
  cond lx = true ->
  exists lx', while (loop_fuel lx) cond advance lx = Some lx'
              /\ reaches lx lx' /\ pos lx < pos lx' /\ cond lx' = false.
Proof.
  intros Hcond Hc.
  pose proof (currentChar_in_range _ (Hcond _ Hc)) as Hlt.
  unfold loop_fuel. destruct (String.length (source lx)) as [|n] eqn:Hn; [lia|].
  rewrite while_true by assumption.
  destruct (while_terminates cond advance (reaches (advance lx)) remaining) with
    (fuel := n) (s := advance lx) as (lx' & Hw & Hr & Hf).
  - intros s Hs Hc'. apply advance_step; auto.
  - apply reaches_refl. rewrite advance_source, advance_pos by lia. lia.
  - unfold remaining. rewrite advance_source, advance_pos by lia. lia.
  - exists lx'. split; [assumption|].
    destruct Hr as (Hs & H1 & H2).
    rewrite advance_source in *. rewrite advance_pos in H1 by lia.
    unfold reaches. repeat split; try assumption; try lia. 
Qed.

Lemma readIdentifier_progress (lx : t) :
  isalpha (currentChar lx) || (currentChar lx =? "_")%char = true ->
  exists tok lx', readIdentifier lx = Some (tok, lx')
                  /\ reaches lx lx' /\ pos lx < pos lx'.
Proof.
  intros H. unfold readIdentifier.
  destruct (scan_progress
    (fun lx => isalnum (currentChar lx) || (currentChar lx =? "_")%char) lx)
    as (lx' & Hw & Hr & Hlt & _).
  - intros l Hl. apply orb_true_iff in Hl as [Hl|Hl].
    + apply isalnum_not_NUL, Hl.
    + eapply eqb_false_not_NUL; [exact Hl | discriminate].
  - unfold isalnum. apply orb_true_iff in H as [H|H]; rewrite H;
      [reflexivity | apply orb_true_r].
  - rewrite Hw. simpl. eauto.
Qed.

Lemma readNumber_progress (lx : t) :
  isdigit (currentChar lx) = true ->
  exists tok lx', readNumber lx = Some (tok, lx')
                  /\ reaches lx lx' /\ pos lx < pos lx'.
Proof.
  intros H. unfold readNumber.
  pose proof (currentChar_in_range _ (isdigit_not_NUL _ H)) as Hlt.
  set (cond := fun '(lx, hasDot) =>
         (isdigit (currentChar lx) || (currentChar lx =? ".")%char)
         && negb ((currentChar lx =? ".")%char && hasDot)).
  set (body := fun '(lx, hasDot) =>
         (advance lx, hasDot || (currentChar lx =? ".")%char)).
  assert (Hstep : forall lx0 (s : t * bool), reaches lx0 (fst s) -> cond s = true ->
            reaches lx0 (fst (body s))
            /\ remaining (fst (body s)) < remaining (fst s)).
  { intros lx0 [l d] Hr Hc. simpl in *. apply advance_step; [assumption|].
    apply andb_true_iff in Hc as [Hc _]. apply orb_true_iff in Hc as [Hc|Hc].
    - apply isdigit_not_NUL, Hc.
    - eapply eqb_false_not_NUL; [exact Hc | discriminate]. }
  unfold loop_fuel. destruct (String.length (source lx)) as [|n] eqn:Hn; [lia|].
  rewrite while_true.
  2:{ unfold cond. rewrite H. simpl. rewrite andb_false_r. reflexivity. }
  destruct (while_terminates cond body (fun s => reaches (advance lx) (fst s))
              (fun s => remaining (fst s))) with
    (fuel := n) (s := body (lx, false)) as ([lx' d] & Hw & Hr & _).
  - intros s Hs Hc. apply Hstep; assumption.
  - simpl. apply reaches_refl. rewrite advance_source, advance_pos by lia. lia.
  - simpl. unfold remaining. rewrite advance_source, advance_pos by lia. lia.
  - rewrite Hw. simpl. eexists _, lx'. split; [reflexivity|].
    simpl in Hr. destruct Hr as (Hs & H1 & H2).
    rewrite advance_source in *. rewrite advance_pos in H1 by lia.
    unfold reaches. repeat split; try assumption; lia.
Qed.

Lemma advance3_reaches (lx : t) :
  pos lx <= String.length (source lx) ->
  reaches lx (advance (advance (advance lx))).
Proof.
  intros H. pose proof (advance_reaches lx H) as H1.
  assert (H1' := H1). destruct H1' as (S1 & _ & P1). rewrite <- S1 in P1.
  pose proof (advance_reaches _ P1) as H2.
  assert (H2' := H2). destruct H2' as (S2 & _ & P2). rewrite <- S2 in P2.
  pose proof (advance_reaches _ P2) as H3.
  eapply reaches_trans; [exact H1|]. eapply reaches_trans; [exact H2|exact H3].
Qed.

Lemma readTriple_reaches (q : ascii) (lx : t) :
  pos lx <= String.length (source lx) ->
  exists tok lx', readTriple q lx = Some (tok, lx') /\ reaches lx lx'.
Proof.
  intros H. unfold readTriple.
  pose proof (advance_reaches lx H) as H1.
  assert (H1' := H1). destruct H1' as (S1 & _ & P1). rewrite <- S1 in P1.
  pose proof (advance_reaches _ P1) as H2.
  assert (H2' := H2). destruct H2' as (S2 & _ & P2). rewrite <- S2 in P2.
  set (lx2 := advance (advance lx)) in *.
  destruct (while_terminates
              (fun lx => (pos lx + 2 <? String.length (source lx))
                         && negb (tripleAt q lx))
              advance (reaches lx2) remaining) with
    (fuel := loop_fuel lx2) (s := lx2) as (lx' & Hw & Hr & _).
  - intros s (Hs & Hp1 & Hp2) Hc. apply andb_true_iff in Hc as [Hc _].
    apply Nat.ltb_lt in Hc. unfold reaches, remaining.
    rewrite advance_source, advance_pos by lia. rewrite Hs in *.
    repeat split; lia.
  - apply reaches_refl, P2.
  - unfold remaining, loop_fuel. lia.
  - rewrite Hw. simpl. eexists _, _. split; [reflexivity|].
    assert (Hlx' : reaches lx lx').
    { eapply reaches_trans; [exact H1|]. eapply reaches_trans; [exact H2|exact Hr]. }
    destruct (pos lx' + 2 <? _); [|assumption].
    eapply reaches_trans; [exact Hlx'|]. apply advance3_reaches.
    destruct Hlx' as (Hs & _ & Hp). rewrite Hs. assumption.
Qed.

Lemma readString_progress (lx : t) :
  currentChar lx <> NUL ->
  exists tok lx', readString lx = Some (tok, lx')
                  /\ reaches lx lx' /\ pos lx < pos lx'.
Proof.
  intros Hc. pose proof (currentChar_in_range _ Hc) as Hlt.
  assert (H0 : pos lx <= String.length (source lx)) by lia.
  pose proof (advance_reaches lx H0) as H1.
  pose proof (advance_pos lx Hlt) as Hp.
  assert (P1 : pos (advance lx) <= String.length (source (advance lx))).
  { rewrite advance_source, Hp. lia. }
  assert (Hfinish : forall (tok : Token) lx', reaches (advance lx) lx' ->
            exists tok0 lx0, Some (tok, lx') = Some (tok0, lx0)
                             /\ reaches lx lx0 /\ pos lx < pos lx0).
  { intros tok lx' Hr. exists tok, lx'. split; [reflexivity|].
    split; [eapply reaches_trans; eassumption|]. destruct Hr as (_ & Hr & _). lia. }
  unfold readString.
  destruct (_ && _ && _ && _).
  { destruct (readTriple_reaches DQUOTE (advance lx) P1) as (tok & lx' & -> & Hr).
    apply Hfinish, Hr. }
  destruct (_ && _ && _ && _).
  { destruct (readTriple_reaches SQUOTE (advance lx) P1) as (tok & lx' & -> & Hr).
    apply Hfinish, Hr. }
  set (lx1 := advance lx) in *.
  destruct (while_terminates
     (fun l => negb (currentChar l =? currentChar lx)%char
               && negb (currentChar l =? NUL)%char
               && negb (currentChar l =? LF)%char)
     (fun l => advance (if (currentChar l =? BACKSLASH)%char
                           && negb (peekChar l =? NUL)%char
                        then advance l else l))
     (reaches lx1) remaining) with (fuel := loop_fuel lx1) (s := lx1)
     as (lx' & Hw & Hr & _).
  - intros s Hs Hcond.
    apply andb_true_iff in Hcond as [Hcond _].
    apply andb_true_iff in Hcond as [_ Hcond]. apply negb_eqb_NUL in Hcond.
    destruct (advance_step lx1 s Hs Hcond) as [Ha Hm].
    destruct (_ && _) eqn:E.
    + apply andb_true_iff in E as [_ E].
      assert (Hs' := Ha). destruct Hs' as (Hsrc & Hp1 & Hp2).
      rewrite <- Hsrc in Hp2.
      pose proof (advance_reaches _ Hp2) as Hr2.
      split; [eapply reaches_trans; eassumption|].
      destruct Hr2 as (Hsrc2 & Hq1 & Hq2). unfold remaining in *.
      rewrite Hsrc2. lia.
    + split; assumption.
  - apply reaches_refl, P1.
  - unfold remaining, loop_fuel. lia.
  - rewrite Hw. simpl.
    destruct (_ =? _)%char.
    + apply Hfinish. eapply reaches_trans; [exact Hr|]. apply advance_reaches.
      destruct Hr as (Hs & _ & Hq). rewrite Hs. assumption.
    + apply Hfinish, Hr.
Qed.

Lemma operatorToken_progress (lx : t) :
  currentChar lx <> NUL ->
  reaches lx (snd (operatorToken lx)) /\ pos lx < pos (snd (operatorToken lx)).
Proof.
  intros Hc. pose proof (currentChar_in_range _ Hc) as Hlt.
  assert (H0 : pos lx <= String.length (source lx)) by lia.
  pose proof (advance_reaches lx H0) as H1.
  pose proof (advance_pos lx Hlt) as Hp.
  assert (P1 : pos (advance lx) <= String.length (source (advance lx))).
  { rewrite advance_source, Hp. lia. }
  pose proof (advance_reaches _ P1) as H2.
  assert (H12 : reaches lx (advance (advance lx)) /\ pos lx < pos (advance (advance lx))).
  { split; [eapply reaches_trans; eassumption|]. destruct H2 as (_ & H2 & _). lia. }
  assert (H11 : reaches lx (advance lx) /\ pos lx < pos (advance lx)).
  { split; [assumption | lia]. }
  unfold operatorToken.
  repeat match goal with
         | |- context [if ?b then _ else _] => destruct b; simpl; try assumption
         end.
Qed.

(** The main loop comes to an end whenever its fuel exceeds what is left
    of the source. *)
Lemma tokenizeLoop_terminates (fuel : nat) (lx : t) (tokens : list Token) :
  pos lx <= String.length (source lx) ->
  remaining lx < fuel ->
  exists tokens' lx', tokenizeLoop fuel lx tokens = Some (tokens', lx').
Proof.
  revert lx tokens. induction fuel as [|fuel IH]; intros lx tokens Hpos Hfuel; [lia|].
  simpl. destruct (pos lx <? _) eqn:Hlt; [|eauto].
  apply Nat.ltb_lt in Hlt.
  destruct (scan_terminates
    (fun lx => isspace (currentChar lx) && negb (currentChar lx =? LF)%char) lx)
    as (lx1 & -> & Hr1 & _); [|assumption|].
  { intros l Hl. apply andb_true_iff in Hl as [Hl _]. apply isspace_not_NUL, Hl. }
  simpl.
  assert (Hnext : forall lx2 toks, reaches lx1 lx2 -> pos lx1 < pos lx2 ->
            exists tokens' lx', tokenizeLoop fuel lx2 toks = Some (tokens', lx')).
  { intros lx2 toks (Hs2 & Hp2 & Hq2) Hlt2. destruct Hr1 as (Hs1 & Hp1 & Hq1).
    apply IH.
    - rewrite Hs2, Hs1. rewrite Hs1 in Hq2. assumption.
    - unfold remaining in *. rewrite Hs2, Hs1. lia. }
  destruct (currentChar lx1 =? NUL)%char eqn:ENUL; [eauto|].
  assert (HnotNUL : currentChar lx1 <> NUL).
  { intros E. rewrite E in ENUL. discriminate. }
  destruct (currentChar lx1 =? "#")%char eqn:EHASH.
  { destruct (scan_progress
      (fun lx => negb (currentChar lx =? LF)%char && negb (currentChar lx =? NUL)%char)
      lx1) as (lx2 & -> & Hr2 & Hlt2 & _).
    - intros l Hl. apply andb_true_iff in Hl as [_ Hl]. apply negb_eqb_NUL, Hl.
    - apply Ascii.eqb_eq in EHASH. rewrite EHASH. reflexivity.
    - simpl. apply Hnext; assumption. }
  destruct (isdigit (currentChar lx1)) eqn:EDIG.
  { destruct (readNumber_progress lx1 EDIG) as (tok & lx2 & -> & Hr2 & Hlt2).
    simpl. apply Hnext; assumption. }
  destruct ((currentChar lx1 =? DQUOTE)%char || (currentChar lx1 =? SQUOTE)%char) eqn:EQUOTE.
  { destruct (readString_progress lx1 HnotNUL) as (tok & lx2 & -> & Hr2 & Hlt2).
    simpl. apply Hnext; assumption. }
  destruct (isalpha (currentChar lx1) || (currentChar lx1 =? "_")%char) eqn:EALPHA.
  { destruct (readIdentifier_progress lx1 EALPHA) as (tok & lx2 & -> & Hr2 & Hlt2).
    simpl. apply Hnext; assumption. }
  destruct (operatorToken_progress lx1 HnotNUL) as [Hr2 Hlt2].
  destruct (operatorToken lx1) as [tok lx2]. simpl in *.
  apply Hnext; assumption.
Qed.

End LexerFacts.

(** ** Claims about the lexer *)

Section LexerClaims.

Import Lexer.

(** A round of the main loop on a character that is there, is not white
    space and starts no token: the character is consumed and nothing is
    pushed. *)
Lemma tokenizeLoop_skip (fuel : nat) (lx : t) (tokens : list Token) :
  currentChar lx <> NUL ->
  isspace (currentChar lx) = false ->
  (currentChar lx =? "#")%char = false ->
  isdigit (currentChar lx) = false ->
  (currentChar lx =? DQUOTE)%char || (currentChar lx =? SQUOTE)%char = false ->
  isalpha (currentChar lx) || (currentChar lx =? "_")%char = false ->
  operatorToken lx = (None, advance lx) ->
  tokenizeLoop (S fuel) lx tokens = tokenizeLoop fuel (advance lx) tokens.
Proof.
  intros HNUL Hsp Hhash Hdig Hq Hal Hop. cbn [tokenizeLoop].
  pose proof (currentChar_in_range _ HNUL) as Hlt.
  apply Nat.ltb_lt in Hlt. rewrite Hlt.
  rewrite while_false by (rewrite Hsp; reflexivity). cbn [mbind option_bind].
  destruct (currentChar lx =? NUL)%char eqn:E.
  { apply Ascii.eqb_eq in E. contradiction. }
  rewrite Hhash, Hdig, Hq, Hal, Hop. cbn [option_list]. rewrite app_nil_r. reflexivity.
Qed.

Lemma tokenizeFrom_skip (lx : t) :
  currentChar lx <> NUL ->
  tokenizeLoop (S (String.length (source lx) - pos lx)) lx []
  = tokenizeLoop (String.length (source lx) - pos lx) (advance lx) [] ->
  tokenizeFrom lx = tokenizeFrom (advance lx).
Proof.
  intros HNUL H. pose proof (currentChar_in_range _ HNUL) as Hlt.
  unfold tokenizeFrom. rewrite H, advance_source, advance_pos by assumption.
  replace (S (String.length (source lx) - (pos lx + 1)))
    with (String.length (source lx) - pos lx) by lia.
  reflexivity.
Qed.

Lemma noRule_skip (lx : t) :
  noRule (currentChar lx) = true -> tokenizeFrom lx = tokenizeFrom (advance lx).
Proof.
  unfold noRule. rewrite !andb_true_iff, !negb_true_iff.
  intros ((((((((Hsp & HNUL) & Hhash) & Hdig) & Hdq) & Hsq) & Hal) & Hus) & Hops).
  assert (HNUL' : currentChar lx <> NUL).
  { intros E. rewrite E in HNUL. discriminate. }
  apply tokenizeFrom_skip; [assumption|].
  apply tokenizeLoop_skip; try assumption.
  - rewrite Hdq, Hsq. reflexivity.
  - rewrite Hal, Hus. reflexivity.
  - simpl in Hops. rewrite !orb_false_iff in Hops.
    unfold operatorToken.
    repeat match goal with
           | H : _ /\ _ |- _ => destruct H
           end.
    repeat match goal with
           | H : (currentChar lx =? ?c)%char = false |- _ => rewrite H; clear H
           end.
    destruct (currentChar lx =? LF)%char eqn:ELF; [|reflexivity].
    apply Ascii.eqb_eq in ELF. rewrite ELF in Hsp. discriminate.
Qed.

Lemma bang_skip (lx : t) :
  currentChar lx = "!"%char -> peekChar lx <> "="%char ->
  tokenizeFrom lx = tokenizeFrom (advance lx).
Proof.
  intros Hc Hp.
  assert (HNUL : currentChar lx <> NUL) by (rewrite Hc; discriminate).
  apply tokenizeFrom_skip; [assumption|].
  apply tokenizeLoop_skip; try assumption; try (rewrite Hc; reflexivity).
  unfold operatorToken. rewrite Hc. simpl.
  destruct (peekChar lx =? "=")%char eqn:E; [|reflexivity].
  apply Ascii.eqb_eq in E. contradiction.
Qed.

(** C6.  For every source text [tokenize] comes to an end and returns a
    token vector (it has no failing outcome) whose last token is the EOF
    token; and a character for which the lexer has no rule, as well as a
    ['!'] that is not followed by ['='], is consumed without a token and
    without an error: the tokens produced from a state standing on such a
    character are those produced from the state one character later. *)
Theorem tokenize_total_ends_with_EOF_and_discards_unknown :
  (forall sourceCode : string,
     exists tokens line col,
       tokenize sourceCode = Some (tokens ++ [mkToken EOF_TOKEN "" line col]))
  /\ (forall lx : t,
        noRule (currentChar lx) = true ->
        tokenizeFrom lx = tokenizeFrom (advance lx))
  /\ (forall lx : t,
        currentChar lx = "!"%char -> peekChar lx <> "="%char ->
        tokenizeFrom lx = tokenizeFrom (advance lx)).
Proof.
  split; [|split; [exact noRule_skip | exact bang_skip]].
  intros sourceCode. unfold tokenize, tokenizeFrom.
  destruct (tokenizeLoop_terminates
              (S (String.length (source (init sourceCode)) - pos (init sourceCode)))
              (init sourceCode) []) as (tokens & lx & ->).
  - simpl. lia.
  - unfold remaining. lia.
  - simpl. eauto.
Qed.

(** The theorem at work on the text [a ! $ b]: from the position of the
    ['!'] and from that of the ['$']. *)
Lemma tokenize_discards_witness :
  tokenizeFrom (mk "a ! $ b" 2 1 2) = tokenizeFrom (mk "a ! $ b" 3 1 3)
  /\ tokenizeFrom (mk "a ! $ b" 4 1 4) = tokenizeFrom (mk "a ! $ b" 5 1 5).
Proof.
  split.
  - apply (proj2 (proj2 tokenize_total_ends_with_EOF_and_discards_unknown)
             (mk "a ! $ b" 2 1 2)).
    + reflexivity.
    + discriminate.
  - apply (proj1 (proj2 tokenize_total_ends_with_EOF_and_discards_unknown)
             (mk "a ! $ b" 4 1 4)).
    reflexivity.
Defined.

Example tokenize_drops_unknown_characters :
  option_map (map (fun tok => (type tok, value tok))) (tokenize "a ! $ b")
  = Some [(IDENTIFIER, "a"); (IDENTIFIER, "b"); (EOF_TOKEN, "")].
Proof. reflexivity. Qed.

(** C2.  The keyword table of [getKeywordType] holds eleven words: [with]
    and [as] are not among them, so both are lexed as identifiers and no
    source text yields a WITH or an AS token. *)
Theorem keyword_table_lacks_with_and_as :
  getKeywordType "with" = IDENTIFIER
  /\ getKeywordType "as" = IDENTIFIER
  /\ option_map (map (fun tok => (type tok, value tok))) (tokenize "with x as y")
     = Some [(IDENTIFIER, "with"); (IDENTIFIER, "x"); (IDENTIFIER, "as");
             (IDENTIFIER, "y"); (EOF_TOKEN, "")]
  /\ (forall identifier,
        getKeywordType identifier <> WITH /\ getKeywordType identifier <> AS).
Proof.
  repeat split; try reflexivity;
    unfold getKeywordType;
    repeat match goal with
           | |- context [if ?b then _ else _] => destruct b
           end; discriminate.
Qed.

(** The eleven words the table does hold. *)
Lemma getKeywordType_keyword (identifier : string) :
  getKeywordType identifier <> IDENTIFIER <->
  In identifier ["print"; "input"; "if"; "else"; "for"; "while"; "def";
                 "return"; "True"; "False"; "None"].
Proof.
  unfold getKeywordType. simpl.
  repeat match goal with
         | |- context [String.eqb identifier ?s] =>
           destruct (String.eqb_spec identifier s) as [->|?]
         end; split; intros H; try discriminate; try tauto.
  intuition congruence.
Qed.

End LexerClaims.

(** ** The parser: the descent always comes to an end *)

Section ParserFacts.

Import Parser.

Variable tokens : list Token.

(** [e] is the index of an EOF token (or lies past the vector, where the
    embedding reads one). *)
Variable e : nat.
Hypothesis e_is_EOF : type (token_at tokens e) = EOF_TOKEN.

Lemma good_weaken {A} (c c' : nat) (s s' : bool) (r : result A * nat) :
  good e c' s' r -> c <= c' -> (s = true -> s' = true \/ c < c') -> good e c s r.
Proof.
  unfold good. intros H Hc Hs. destruct r as [[a|w| |] c'']; try tauto.
  - destruct s; [|destruct s'; lia].
    destruct (Hs eq_refl) as [->|]; [lia | destruct s'; lia].
  - lia.
Qed.

Lemma good_ret {A} (c : nat) (a : A) : c <= e -> good e c false (ret a c).
Proof. unfold good, ret. lia. Qed.

Lemma good_throw {A} (c : nat) (s : bool) (w : string) :
  c <= e -> good e c s (@throw nat A w c).
Proof. unfold good, throw. lia. Qed.

(** Sequencing: the continuation starts where the first member stopped,
    and owes progress only if the first member made none. *)
Lemma good_bind {A B} (c : nat) (s1 s : bool) (m : M A) (k : A -> M B) :
  good e c s1 (m c) ->
  (forall a c', (if s1 then c < c' else c <= c') -> c' <= e ->
                good e c' (s && negb s1) (k a c')) ->
  good e c s (bind m k c).
Proof.
  unfold bind. intros Hm Hk. destruct (m c) as [[a|w| |] c']; simpl in Hm; try tauto.
  - destruct Hm as [H1 H2]. specialize (Hk a c' H1 H2).
    eapply good_weaken; [exact Hk | destruct s1; lia |].
    intros ->. destruct s1; simpl; [right; lia | left; reflexivity].
  - simpl. lia.
Qed.

Lemma not_EOF_before_e (c : nat) (ty : TokenType) :
  c <= e -> type (token_at tokens c) = ty -> ty <> EOF_TOKEN -> c < e.
Proof.
  intros Hc Hty Hne. destruct (Nat.eq_dec c e) as [->|]; [congruence | lia].
Qed.

Lemma good_peek {B} (c : nat) (s : bool) (k : Token -> M B) :
  good e c s (k (token_at tokens c) c) -> good e c s (bind (peek tokens) k c).
Proof. intros H. exact H. Qed.

Lemma good_previous {B} (c : nat) (s : bool) (k : Token -> M B) :
  good e c s (k (token_at tokens (c - 1)) c) -> good e c s (bind (previous tokens) k c).
Proof. intros H. exact H. Qed.

Lemma match_eq (c : nat) (ty : TokenType) :
  match_ tokens ty c =
  if bool_decide (type (token_at tokens c) = ty)
  then (Ok true, if bool_decide (type (token_at tokens c) = EOF_TOKEN) then c else c + 1)
  else (Ok false, c).
Proof.
  unfold match_, bind, peek, advance, ret.
  destruct (bool_decide (_ = ty)); [|reflexivity].
  destruct (bool_decide (_ = EOF_TOKEN)); reflexivity.
Qed.

Lemma consume_eq (c : nat) (ty : TokenType) (msg : string) :
  consume tokens ty msg c =
  if bool_decide (type (token_at tokens c) = ty)
  then (Ok (token_at tokens c),
        if bool_decide (type (token_at tokens c) = EOF_TOKEN) then c else c + 1)
  else (Throw (msg +:+ " at line " +:+ to_string (line (token_at tokens c))), c).
Proof.
  unfold consume, bind, peek, advance, ret, throw.
  destruct (bool_decide (_ = ty)); [|reflexivity].
  destruct (bool_decide (_ = EOF_TOKEN)); reflexivity.
Qed.

(** [match(ty)]: either the token is there and the cursor steps over it,
    or nothing moves. *)
Lemma good_match_back {B} (c : nat) (s : bool) (ty : TokenType) (k : bool -> M B) :
  ty <> EOF_TOKEN -> c <= e ->
  (c < e -> type (token_at tokens c) = ty -> good e c s (k true (c + 1))) ->
  good e c s (k false c) ->
  good e c s (bind (match_ tokens ty) k c).
Proof.
  intros Hty Hc Ht Hf. unfold bind. rewrite match_eq.
  destruct (bool_decide (type (token_at tokens c) = ty)) eqn:E.
  - apply bool_decide_eq_true in E.
    pose proof (not_EOF_before_e c ty Hc E Hty) as Hlt.
    rewrite bool_decide_eq_false_2 by congruence.
    apply Ht; assumption.
  - exact Hf.
Qed.

Lemma good_match {B} (c : nat) (s : bool) (ty : TokenType) (k : bool -> M B) :
  ty <> EOF_TOKEN -> c <= e ->
  (c < e -> type (token_at tokens c) = ty -> good e (c + 1) false (k true (c + 1))) ->
  good e c s (k false c) ->
  good e c s (bind (match_ tokens ty) k c).
Proof.
  intros Hty Hc Ht Hf. apply good_match_back; try assumption.
  intros Hlt E.
  eapply good_weaken; [apply Ht; assumption | lia | intros _; right; lia].
Qed.

Lemma good_matchAny {B} (tys : list TokenType) (c : nat) (s : bool) (k : bool -> M B) :
  ~ In EOF_TOKEN tys -> c <= e ->
  (c < e -> In (type (token_at tokens c)) tys -> good e (c + 1) false (k true (c + 1))) ->
  good e c s (k false c) ->
  good e c s (bind (matchAny tokens tys) k c).
Proof.
  revert k. induction tys as [|ty tys IH]; intros k Hty Hc Ht Hf.
  - exact Hf.
  - cbn [matchAny].
    assert (Hassoc : forall (m : M bool) (f : bool -> M bool) c,
              bind (bind m f) k c = bind m (fun b => bind (f b) k) c).
    { intros m f c0. unfold bind. destruct (m c0) as [[a|w| |] c1]; reflexivity. }
    rewrite Hassoc. apply good_match.
    + intros ->. apply Hty. left. reflexivity.
    + assumption.
    + intros Hlt Heq. apply Ht; [assumption|]. left. symmetry. exact Heq.
    + apply IH; [|assumption| |assumption].
      * intros H. apply Hty. right. exact H.
      * intros Hlt Hin. apply Ht; [assumption|]. right. exact Hin.
Qed.

(** [consume(ty, message)]: the token is there and the cursor steps over
    it, or the member throws on the spot. *)
Lemma good_consume {B} (c : nat) (s : bool) (ty : TokenType) (msg : string)
    (k : Token -> M B) :
  ty <> EOF_TOKEN -> c <= e ->
  (c < e -> type (token_at tokens c) = ty ->
   good e (c + 1) false (k (token_at tokens c) (c + 1))) ->
  good e c s (bind (consume tokens ty msg) k c).
Proof.
  intros Hty Hc Ht. unfold bind. rewrite consume_eq.
  destruct (bool_decide (type (token_at tokens c) = ty)) eqn:E.
  - apply bool_decide_eq_true in E.
    pose proof (not_EOF_before_e c ty Hc E Hty) as Hlt.
    rewrite bool_decide_eq_false_2 by congruence.
    eapply good_weaken; [apply Ht; assumption | lia | intros _; right; lia].
  - simpl. lia.
Qed.

Lemma good_back {B} (c0 c : nat) (s : bool) (k : unit -> M B) :
  good e c0 s (k tt (c - 1)) -> good e c0 s (bind back k c).
Proof. intros H. exact H. Qed.

Lemma bind_ret_r {A} (m : M A) (c : nat) : bind m ret c = m c.
Proof. unfold bind, ret. destruct (m c) as [[a|w| |] c']; reflexivity. Qed.

Ltac fuel_arith :=
  unfold enough in *;
  repeat match goal with H : _ /\ _ |- _ => destruct H end;
  try split; simpl; lia.

(** One step of a proof that a member is good: peel the next primitive,
    or use what is known of a callee at the current cursor. *)
Ltac good_step :=
  cbv beta iota;
  lazymatch goal with
  | |- good e _ _ (bind (peek _) _ _) => apply good_peek
  | |- good e _ _ (bind (previous _) _ _) => apply good_previous
  | |- good e _ _ (bind back _ _) => apply good_back
  | |- good e _ _ (bind (match_ _ _) _ _) =>
    apply good_match; [discriminate | fuel_arith | intros ? ? | ]
  | |- good e _ _ (bind (matchAny _ _) _ _) =>
    apply good_matchAny; [simpl; intuition discriminate | fuel_arith | intros ? ? | ]
  | |- good e _ _ (bind (consume _ _ _) _ _) =>
    apply good_consume; [discriminate | fuel_arith | intros ? ? ]
  | |- good e _ _ (ret _ _) =>
    eapply good_weaken; [apply good_ret; fuel_arith | lia | discriminate]
  | |- good e _ _ (throw _ _) => apply good_throw; fuel_arith
  | |- good e _ _ (if ?b then _ else _) => destruct b
  | |- good e _ _ ((if ?b then _ else _) _) => destruct b
  end.

(** Use the fact [H] about a callee for the call at the head of the goal,
    and go on after it. *)
Ltac good_call H :=
  cbv beta iota;
  lazymatch goal with
  | |- good e _ _ (bind _ _ _) =>
    eapply good_bind;
    [apply H; fuel_arith
    | let Hp := fresh "Hprogress" in intros ? ? Hp ?; cbv iota in Hp; cbn [andb negb]]
  | |- good e ?c ?s _ =>
    eapply good_weaken; [apply H; fuel_arith | lia | auto]
  end.

Lemma expr_descent (fuel : nat) : ExprDescent tokens e fuel.
Proof.
  induction fuel as [|fuel IH].
  { split; intros; exfalso; fuel_arith. }
  destruct IH.
  split; intros c; intros.
  - (* parseExpression *) cbn [parseExpression]. good_call d_comparison0.
  - (* parseComparison *) cbn [parseComparison].
    good_call d_term0. good_call d_comparisonLoop0.
  - (* parseComparisonLoop *) cbn [parseComparisonLoop].
    good_step; [|good_step]. good_step. good_call d_term0. good_call d_comparisonLoop0.
  - (* parseTerm *) cbn [parseTerm]. good_call d_factor0. good_call d_termLoop0.
  - (* parseTermLoop *) cbn [parseTermLoop].
    good_step; [|good_step]. good_step. good_call d_factor0. good_call d_termLoop0.
  - (* parseFactor *) cbn [parseFactor]. good_call d_unary0. good_call d_factorLoop0.
  - (* parseFactorLoop *) cbn [parseFactorLoop].
    good_step; [|good_step]. good_step. good_call d_unary0. good_call d_factorLoop0.
  - (* parseUnary *) cbn [parseUnary]. good_call d_primary0.
  - (* parseElementsLoop *) cbn [parseElementsLoop].
    good_call d_expression0. good_step; [|good_step].
    good_call d_elementsLoop0.
  - (* parseCall *) cbn [parseCall].
    good_step; [good_step|]. good_call d_elementsLoop0.
    good_step. good_step.
  - (* parseList *) cbn [parseList].
    good_step. good_step; [good_step|]. good_call d_elementsLoop0.
    good_step. good_step.
  - (* parseIndex *) cbn [parseIndex].
    good_step. good_call d_expression0. good_step. good_step.
  - (* parsePrimary *) cbn [parsePrimary].
    good_step; [good_step; good_step|].
    good_step; [good_step; good_step|].
    good_step; [good_step; good_step|].
    good_step; [good_step|].
    good_step; [good_step|].
    apply good_match_back; [discriminate | fuel_arith | intros ? ? |].
    { good_step. replace (c + 1 - 1) with c by lia. good_call d_list0. }
    good_step; [good_step; good_call d_primaryLoop0|].
    good_step; [good_call d_expression0; good_step; good_step|].
    good_step. good_step.
  - (* parsePrimaryLoop *) cbn [parsePrimaryLoop].
    good_step; [good_call d_call0|].
    apply good_match_back; [discriminate | fuel_arith | intros ? ? | good_step].
    good_step. replace (c + 1 - 1) with c by lia.
    good_call d_index0. good_call d_primaryLoop0.
Qed.

Lemma good_advance (c : nat) : c <= e -> good e c false (advance tokens c).
Proof.
  intros Hc. unfold advance.
  destruct (bool_decide (type (token_at tokens c) = EOF_TOKEN)) eqn:E; simpl.
  - lia.
  - apply bool_decide_eq_false in E.
    assert (c <> e) by (intros ->; contradiction). lia.
Qed.

Lemma print_loop_descent (fuel : nat) :
  forall c v, enough e 0 fuel c -> good e c false (parsePrintLoop tokens fuel v c).
Proof.
  induction fuel as [|fuel IH]; intros c v H; [exfalso; fuel_arith|].
  pose proof (expr_descent fuel) as [].
  cbn [parsePrintLoop].
  good_step; [|good_step]. good_call d_expression0. good_call IH.
Qed.

Lemma print_descent (fuel : nat) (c : nat) :
  enough e 0 fuel c -> good e c true (parsePrintStatement tokens fuel c).
Proof.
  intros H. pose proof (expr_descent fuel) as [].
  pose proof (print_loop_descent fuel) as Hloop.
  unfold parsePrintStatement.
  good_step. good_step. good_step.
  eapply good_bind with (s1 := false).
  - good_step; [good_step|]. good_call d_expression0. good_call Hloop.
  - intros a c' Hc' Hle. cbv iota in Hc'. cbn [andb negb]. good_step. good_step.
Qed.

Lemma assignment_descent (fuel : nat) (c : nat) :
  enough e 0 fuel c -> good e c true (parseAssignmentStatement tokens fuel c).
Proof.
  intros H. pose proof (expr_descent fuel) as [].
  unfold parseAssignmentStatement.
  good_step. good_step. good_call d_expression0. good_step.
Qed.

Lemma stmt_descent (fuel : nat) : StmtDescent tokens e fuel.
Proof.
  induction fuel as [|fuel IH].
  { split; intros; exfalso; fuel_arith. }
  destruct IH. pose proof (expr_descent fuel) as [].
  split; intros c; intros.
  - (* parseWithStatement *) cbn [parseWithStatement].
    good_step. good_call d_expression0.
    assert (Hrest : forall c1 optional_vars, c < c1 -> c1 <= e ->
      good e c1 false
        ((let* _ := consume tokens COLON "Expected ':' after with statement" in
          let* _ := consume tokens NEWLINE "Expected newline after with statement" in
          let* body := parseWithLoop tokens fuel [] in
          ret (WithStmt a optional_vars body)) c1)).
    { intros c1 optional_vars Hc1 Hle. good_step. good_step.
      good_call d_withLoop0. good_step. }
    good_step.
    + eapply good_bind with (s1 := true).
      * good_step. good_step.
      * intros v c1 Hc1 Hle. cbv iota in Hc1. cbn [andb negb]. apply Hrest; lia.
    + eapply good_bind with (s1 := false).
      * good_step.
      * intros v c1 Hc1 Hle. cbv iota in Hc1. cbn [andb negb]. apply Hrest; lia.
  - (* parseWithLoop *) cbn [parseWithLoop].
    good_step. good_step; [good_step|].
    good_call d_statement0. good_step.
    eapply good_bind with (s1 := false).
    + destruct (bool_decide _); [apply good_advance; lia | apply good_ret; lia].
    + intros u c1 Hc1 Hle. cbv iota in Hc1. cbn [andb negb]. good_call d_withLoop0.
  - (* parseStatement *) cbn [parseStatement].
    good_step; [apply print_descent; fuel_arith|].
    good_step; [good_call d_with0|].
    good_step; [apply assignment_descent; fuel_arith|].
    good_call d_expression0. good_step.
Qed.

End ParserFacts.

(** ** Claim about the parser: statement-level recovery *)

Section ParserClaims.

Import Parser.

Variable tokens : list Token.
Variable e : nat.
Hypothesis e_is_EOF : type (token_at tokens e) = EOF_TOKEN.
Hypothesis e_in_range : e <= length tokens.

Lemma statement_good (c : nat) :
  c <= e -> good e c true (parseStatement tokens (descent_fuel tokens) c).
Proof.
  intros Hc. apply stmt_descent; [assumption|].
  unfold enough, descent_fuel. lia.
Qed.

(** The [catch] block does what the specification says of it. *)
Lemma synchronize_discards (c : nat) :
  c <= e ->
  exists r, synchronize tokens c = (Ok tt, r)
            /\ Discards tokens c r
            /\ c <= r <= e
            /\ (type (token_at tokens c) <> EOF_TOKEN ->
                type (token_at tokens c) <> NEWLINE -> c < r).
Proof.
  intros Hc. unfold synchronize.
  set (cond := fun c0 => negb (bool_decide (type (token_at tokens c0) = EOF_TOKEN))
                         && negb (bool_decide (type (token_at tokens c0) = NEWLINE))
                         && negb (bool_decide (type (token_at tokens c0) = EOF_TOKEN))).
  set (body := fun c0 => snd (advance tokens c0)).
  destruct (while_terminates cond body
              (fun s => c <= s <= e
                        /\ forall i, c <= i < s ->
                             type (token_at tokens i) <> NEWLINE
                             /\ type (token_at tokens i) <> EOF_TOKEN)
              (fun s => e - s)) with (fuel := length tokens) (s := c)
    as (n & -> & (Hn & Hbefore) & Hstop).
  - intros s (Hs & Hb) Hcond. unfold cond in Hcond.
    rewrite !andb_true_iff, !negb_true_iff, !bool_decide_eq_false in Hcond.
    destruct Hcond as ((HnE & HnN) & _).
    assert (s <> e) by (intros ->; contradiction).
    unfold body, advance. rewrite bool_decide_eq_false_2 by assumption. simpl.
    split; [split; [lia|] | lia].
    intros i Hi. destruct (Nat.eq_dec i s) as [->|]; [split; assumption | apply Hb; lia].
  - split; [lia|]. intros i Hi. lia.
  - lia.
  - assert (Hat : type (token_at tokens n) = NEWLINE
                  \/ type (token_at tokens n) = EOF_TOKEN).
    { unfold cond in Hstop.
      destruct (bool_decide (type (token_at tokens n) = EOF_TOKEN)) eqn:E1.
      - right. apply bool_decide_eq_true in E1. exact E1.
      - destruct (bool_decide (type (token_at tokens n) = NEWLINE)) eqn:E2.
        + left. apply bool_decide_eq_true in E2. exact E2.
        + discriminate Hstop. }
    assert (Hfirst : type (token_at tokens c) <> EOF_TOKEN ->
                     type (token_at tokens c) <> NEWLINE -> c < n).
    { intros H1 H2. destruct (Nat.eq_dec c n) as [->|]; [|lia].
      destruct Hat; contradiction. }
    destruct (bool_decide (type (token_at tokens n) = NEWLINE)) eqn:EN.
    + apply bool_decide_eq_true in EN.
      assert (HnE : type (token_at tokens n) <> EOF_TOKEN) by congruence.
      assert (n <> e) by (intros ->; contradiction).
      unfold advance. rewrite bool_decide_eq_false_2 by assumption.
      exists (n + 1). split; [reflexivity|]. split; [|split; [lia|]].
      * exists n. split; [lia|]. split; [exact Hbefore|]. left. split; [assumption|lia].
      * intros H1 H2. specialize (Hfirst H1 H2). lia.
    + apply bool_decide_eq_false in EN.
      destruct Hat as [Hat|Hat]; [contradiction|].
      exists n. split; [reflexivity|]. split; [|split; [lia|]].
      * exists n. split; [lia|]. split; [exact Hbefore|]. right. split; [assumption|lia].
      * intros H1 H2. specialize (Hfirst H1 H2). lia.
Qed.

(** The loop of [parse] ends within as many rounds as there are tokens up
    to the EOF token, and what it returns is what the recovery policy
    describes. *)
Lemma parseLoop_recovers (fuel : nat) :
  forall c statements,
    c <= e -> e - c < fuel ->
    exists found c',
      parseLoop tokens fuel statements c = (Ok (statements ++ found), c')
      /\ Recovers tokens c found.
Proof.
  induction fuel as [|fuel IH]; intros c statements Hc Hfuel; [lia|].
  cbn [parseLoop].
  destruct (bool_decide (type (token_at tokens c) = EOF_TOKEN)) eqn:EE.
  { apply bool_decide_eq_true in EE. exists [], c. rewrite app_nil_r.
    split; [reflexivity | apply Recovers_EOF, EE]. }
  apply bool_decide_eq_false in EE.
  assert (c <> e) by (intros ->; contradiction).
  destruct (bool_decide (type (token_at tokens c) = NEWLINE)) eqn:EN.
  { apply bool_decide_eq_true in EN.
    unfold bind, advance. rewrite bool_decide_eq_false_2 by assumption.
    destruct (IH (c + 1) statements) as (found & c' & -> & Hrec); try lia.
    exists found, c'. split; [reflexivity | apply Recovers_NEWLINE; assumption]. }
  apply bool_decide_eq_false in EN.
  pose proof (statement_good c Hc) as Hgood.
  destruct (parseStatement tokens (descent_fuel tokens) c) as [[stmt|what| |] c1] eqn:Hstmt;
    simpl in Hgood; try contradiction.
  - (* the statement parsed *)
    set (c2 := if bool_decide (type (token_at tokens c1) = NEWLINE) then c1 + 1 else c1).
    assert (Hc2 : c1 <= c2 <= e).
    { unfold c2. destruct (bool_decide (type (token_at tokens c1) = NEWLINE)) eqn:E1; [|lia].
      apply bool_decide_eq_true in E1.
      assert (c1 <> e) by (intros ->; congruence). lia. }
    assert (Htail : forall k : M (list StmtNode),
              (let* tok := peek tokens in
               let* _ := (if bool_decide (type tok = NEWLINE)
                          then advance tokens else ret tt) in k) c1 = k c2).
    { intros k. unfold bind, peek, advance, ret, c2.
      destruct (bool_decide (type (token_at tokens c1) = NEWLINE)) eqn:E1; [|reflexivity].
      apply bool_decide_eq_true in E1.
      rewrite bool_decide_eq_false_2 by congruence. reflexivity. }
    rewrite Htail.
    destruct (IH c2 (statements ++ [stmt])) as (found & c' & -> & Hrec); try lia.
    exists (stmt :: found), c'. rewrite <- app_assoc. split; [reflexivity|].
    eapply Recovers_statement; eassumption.
  - (* the statement failed *)
    destruct (synchronize_discards c1) as (r & Hsync & Hdisc & Hr & Hprogress); [lia|].
    unfold bind. rewrite Hsync.
    assert (c < r).
    { destruct (Nat.eq_dec c c1) as [<-|]; [apply Hprogress; assumption | lia]. }
    destruct (IH r statements) as (found & c' & -> & Hrec); try lia.
    exists found, c'. split; [reflexivity|].
    eapply Recovers_failure; eassumption.
Qed.

End ParserClaims.

(** C5.  On a token vector that holds an EOF token (as every vector the
    lexer returns does) [parse] returns a statement vector: it neither
    throws nor loops.  The vector it returns is the one the recovery
    policy describes: when a statement fails to parse, the tokens from the
    point of failure up to the next NEWLINE or EOF are discarded, the
    statement contributes nothing, and every statement that parses from
    the resumption point on is in the result. *)
Theorem parse_recovers_at_statement_level (tokens : list Token) :
  (exists i, i < length tokens /\ type (Parser.token_at tokens i) = EOF_TOKEN) ->
  exists statements,
    Parser.parse tokens = Ok statements /\ Recovers tokens 0 statements.
Proof.
  intros (e & He & HEOF). unfold Parser.parse.
  destruct (parseLoop_recovers tokens e HEOF (Nat.lt_le_incl _ _ He)
              (S (length tokens)) 0 []) as (found & c' & Hloop & Hrec); try lia.
  rewrite Hloop. exists found. split; [reflexivity | exact Hrec].
Qed.

Lemma parse_recovers_witness :
  exists statements,
    Parser.parse malformed_then_print = Ok statements
    /\ Recovers malformed_then_print 0 statements.
Proof.
  apply (parse_recovers_at_statement_level malformed_then_print).
  exists 9. split; [simpl; lia | reflexivity].
Defined.

Example parse_skips_malformed_statement :
  Lexer.tokenize ("x = (" +:+ String LF "print(1)" +:+ String LF "")
  = Some malformed_then_print
  /\ Parser.parse malformed_then_print
     = Ok [PrintStmt [LiteralExpr "1" NUMBER]].
Proof. split; reflexivity. Qed.

(** ** Claims about values *)

Section ValueClaims.

Lemma digits_no_digit (isd : ascii -> bool) (dv : ascii -> Z) (base acc : Z)
    (n : nat) (s : list ascii) :
  match s with c :: _ => isd c = false | [] => True end ->
  Double.digits isd dv base acc n s = (acc, n, s).
Proof. destruct s as [|c r]; simpl; [reflexivity|]. intros ->. reflexivity. Qed.

Lemma stod_no_prefix (s : string) :
  hasNumericPrefix s = false -> Double.stod s = None.
Proof.
  unfold hasNumericPrefix, Double.stod.
  set (l0 := dropwhile_space (list_ascii_of_string s)).
  assert (Hgen : forall (neg : bool) (l : list ascii),
    Double.prefix_ci "inf" l || Double.prefix_ci "nan" l
    || match l with
       | c :: r =>
         isdigit c
         || ((c =? ".")%char && match r with d :: _ => isdigit d | [] => false end)
       | [] => false
       end = false ->
    (if Double.prefix_ci "inf" l then Some (Double.number (S754_infinity neg))
     else if Double.prefix_ci "nan" l then Some (Double.nan neg)
     else
       match
         match l with
         | "0"%char :: x :: r =>
           if (Double.tolower x =? "x")%char
           then Double.mantissa Double.isxdigit Double.xdigit_value 16 r
           else None
         | _ => None
         end
       with
       | Some (m, nf, r) =>
         Double.checked neg (Double.scaled m 2 (Double.exponent "p" r - 4 * Z.of_nat nf))
       | None =>
         match Double.mantissa isdigit Double.digit_value 10 l with
         | Some (m, nf, r) =>
           Double.checked neg (Double.scaled m 10 (Double.exponent "e" r - Z.of_nat nf))
         | None => None
         end
       end) = None).
  { intros neg l H.
    apply orb_false_iff in H as [H Hstart]. apply orb_false_iff in H as [-> ->].
    assert (Hhex : match l with
                   | "0"%char :: x :: r =>
                     if (Double.tolower x =? "x")%char
                     then Double.mantissa Double.isxdigit Double.xdigit_value 16 r
                     else None
                   | _ => None
                   end = None).
    { destruct l as [|c r]; [reflexivity|].
      apply orb_false_iff in Hstart as [Hd _].
      destruct (Ascii.eqb_spec c "0") as [->|Hne]; [discriminate Hd|].
      destruct c as [[] [] [] [] [] [] [] []]; try reflexivity.
      contradiction Hne. reflexivity. }
    rewrite Hhex. clear Hhex.
    assert (Hdec : Double.mantissa isdigit Double.digit_value 10 l = None).
    { unfold Double.mantissa. destruct l as [|c r]; [reflexivity|].
      apply orb_false_iff in Hstart as [Hd Hdot].
      rewrite digits_no_digit by exact Hd.
      destruct (Ascii.eqb_spec c ".") as [->|Hne].
      - simpl in Hdot. rewrite digits_no_digit; [reflexivity|].
        destruct r; [exact I | exact Hdot].
      - destruct c as [[] [] [] [] [] [] [] []]; try reflexivity.
        contradiction Hne. reflexivity. }
    rewrite Hdec. reflexivity. }
  intros H. destruct l0 as [|c r].
  - apply (Hgen false []), H.
  - destruct (Ascii.eqb_spec c "-") as [->|Hm].
    { apply (Hgen true r), H. }
    destruct (Ascii.eqb_spec c "+") as [->|Hp].
    { apply (Hgen false r), H. }
    assert (Hsame : forall A (x y z : A),
              match c with
              | "-"%char => x | "+"%char => y | _ => z
              end = z).
    { intros A x y z. destruct c as [[] [] [] [] [] [] [] []]; try reflexivity;
        [contradiction Hp | contradiction Hm]; reflexivity. }
    rewrite Hsame in H. rewrite Hsame. apply (Hgen false (c :: r)), H.
Qed.

(** C3, as amended.  [toNumber] on a String has no failing outcome: the
    result is [0.0] whenever the text has no numeric prefix; a text that
    has one need not give zero, whatever follows the prefix: ["12abc"]
    gives 12. *)
Theorem toNumber_string_is_zero_without_numeric_prefix :
  (forall s : string,
     hasNumericPrefix s = false -> Value.toNumber (VString s) = Double.zero)
  /\ Value.toNumber (VString "12abc") = Double.of_Z 12
  /\ Value.toNumber (VString "abc") = Double.zero.
Proof.
  split; [|split; reflexivity].
  intros s H. unfold Value.toNumber. rewrite stod_no_prefix by exact H. reflexivity.
Qed.

Lemma toNumber_string_witness : Value.toNumber (VString "n/a") = Double.zero.
Proof.
  apply (proj1 toNumber_string_is_zero_without_numeric_prefix). reflexivity.
Defined.

(** C3, as stated, fails: ["12abc"] is not a number by the interpreter's
    own test ([Utils::isNumber]) and yet [toNumber] answers 12. *)
Lemma toNumber_string_not_zero_on_invalid_literal :
  ~ (forall s : string,
       Utils.isNumber s = false -> Value.toNumber (VString s) = Double.zero).
Proof.
  intros H. specialize (H "12abc" eq_refl). vm_compute in H. discriminate H.
Qed.

End ValueClaims.

(** ** Claims about the evaluator *)

Section ExecutorClaims.

Import Executor.

(** The cast to [int] is the truncation whenever the truncation fits. *)
Lemma to_int_trunc (x : Double.t) (i : Z) :
  Double.trunc x = Some i -> (- 2 ^ 31 <= i < 2 ^ 31)%Z -> Double.to_int x = i.
Proof.
  intros H Hr. unfold Double.to_int, Double.to_signed. rewrite H.
  change (32 - 1)%Z with 31%Z.
  destruct (Z.leb_spec (- 2 ^ 31) i); [|lia].
  destruct (Z.ltb_spec i (2 ^ 31)); [reflexivity | lia].
Qed.

(** Whatever the operand, the cast to [int] lands outside the indices of a
    vector unless the truncation is one of them. *)
Lemma to_int_out_of_range (x : Double.t) (n : Z) :
  (n < 2 ^ 31)%Z ->
  (forall i, Double.trunc x = Some i -> ~ (0 <= i < n)%Z) ->
  ~ (0 <= Double.to_int x < n)%Z.
Proof.
  intros Hn H. unfold Double.to_int, Double.to_signed.
  change (32 - 1)%Z with 31%Z.
  destruct (Double.trunc x) as [i|]; [|lia].
  specialize (H i eq_refl).
  destruct (Z.leb_spec (- 2 ^ 31) i); simpl; [|lia].
  destruct (Z.ltb_spec i (2 ^ 31)); lia.
Qed.

Lemma evaluateIndex_eq (fuel : nat) (array index : ExprNode) (ex ex1 ex2 : t)
    (v idx : Value) :
  evaluateExpression fuel array ex = (Ok v, ex1) ->
  evaluateExpression fuel index ex1 = (Ok idx, ex2) ->
  evaluateExpression (S fuel) (IndexExpr array index) ex =
  match v with
  | VList list_value =>
    let index_val := Double.to_int (Value.toNumber idx) in
    if (0 <=? index_val)%Z && (index_val <? Z.of_nat (length list_value))%Z
    then (Ok (nth (Z.to_nat index_val) list_value VNone), ex2)
    else (Throw "Index out of range", ex2)
  | _ => (Throw "Indexing not supported for this type", ex2)
  end.
Proof.
  intros Ha Hi. cbn [evaluateExpression evaluateExpressionBody].
  unfold evaluateIndex, bind. rewrite Ha, Hi.
  destruct v; try reflexivity.
  cbv zeta. destruct (_ && _); reflexivity.
Qed.

(** C4.  An index expression whose operands evaluate to [v] and [idx]:
    when [v] is a list of [n] elements and [i] is the truncation of
    [toNumber idx], the result is the element at [i] if [0 <= i < n] and
    the fault "Index out of range" otherwise (also when there is no
    truncation, for NaN and the infinities); when [v] is not a list the
    result is the fault "Indexing not supported for this type".  Indexing
    the list literal [[10, 20, 30]] at 1 yields 20, and at 5 the fault. *)
Theorem evaluateIndex_list_bounds_and_type :
  (forall fuel array index ex ex1 ex2 list_value idx i,
     evaluateExpression fuel array ex = (Ok (VList list_value), ex1) ->
     evaluateExpression fuel index ex1 = (Ok idx, ex2) ->
     (Z.of_nat (length list_value) < 2 ^ 31)%Z ->
     Double.trunc (Value.toNumber idx) = Some i ->
     (0 <= i < Z.of_nat (length list_value))%Z ->
     exists x, list_value !! Z.to_nat i = Some x
               /\ evaluateExpression (S fuel) (IndexExpr array index) ex = (Ok x, ex2))
  /\ (forall fuel array index ex ex1 ex2 list_value idx,
        evaluateExpression fuel array ex = (Ok (VList list_value), ex1) ->
        evaluateExpression fuel index ex1 = (Ok idx, ex2) ->
        (Z.of_nat (length list_value) < 2 ^ 31)%Z ->
        (forall i, Double.trunc (Value.toNumber idx) = Some i ->
                   ~ (0 <= i < Z.of_nat (length list_value))%Z) ->
        evaluateExpression (S fuel) (IndexExpr array index) ex
        = (Throw "Index out of range", ex2))
  /\ (forall fuel array index ex ex1 ex2 v idx,
        evaluateExpression fuel array ex = (Ok v, ex1) ->
        evaluateExpression fuel index ex1 = (Ok idx, ex2) ->
        (forall list_value, v <> VList list_value) ->
        evaluateExpression (S fuel) (IndexExpr array index) ex
        = (Throw "Indexing not supported for this type", ex2))
  /\ (forall fuel ex,
        evaluateExpression (3 + fuel)
          (IndexExpr list_10_20_30 (LiteralExpr "1" NUMBER)) ex
        = (Ok (VNumber (Double.of_Z 20)), ex)
        /\ evaluateExpression (3 + fuel)
             (IndexExpr list_10_20_30 (LiteralExpr "5" NUMBER)) ex
           = (Throw "Index out of range", ex)).
Proof.
  repeat apply conj.
  - intros fuel array index ex ex1 ex2 l idx i Ha Hi Hn Ht Hr.
    rewrite (evaluateIndex_eq _ _ _ _ _ _ _ _ Ha Hi). cbv zeta.
    rewrite (to_int_trunc _ i Ht) by lia.
    destruct (Z.leb_spec 0 i); [|lia].
    destruct (Z.ltb_spec i (Z.of_nat (length l))); [|lia]. simpl.
    assert (Hlt : Z.to_nat i < length l) by lia.
    destruct (lookup_lt_is_Some_2 l _ Hlt) as [x Hx].
    exists x. split; [exact Hx|]. f_equal. f_equal.
    apply nth_lookup_Some with (d := VNone) in Hx. exact Hx.
  - intros fuel array index ex ex1 ex2 l idx Ha Hi Hn Hout.
    rewrite (evaluateIndex_eq _ _ _ _ _ _ _ _ Ha Hi). cbv zeta.
    pose proof (to_int_out_of_range _ _ Hn Hout) as Hno.
    destruct (Z.leb_spec 0 (Double.to_int (Value.toNumber idx))); simpl; [|reflexivity].
    destruct (Z.ltb_spec (Double.to_int (Value.toNumber idx)) (Z.of_nat (length l)));
      [lia | reflexivity].
  - intros fuel array index ex ex1 ex2 v idx Ha Hi Hv.
    rewrite (evaluateIndex_eq _ _ _ _ _ _ _ _ Ha Hi).
    destruct v; try reflexivity. exfalso. eapply Hv. reflexivity.
  - intros fuel ex. split; vm_compute; reflexivity.
Qed.

(** The theorem at work on [xs[2.9]] with [xs] bound to [[10, 20, 30]]. *)
Lemma evaluateIndex_witness :
  exists x, [VNumber (Double.of_Z 10); VNumber (Double.of_Z 20); VNumber (Double.of_Z 30)]
              !! Z.to_nat 2 = Some x
            /\ evaluateExpression 2
                 (IndexExpr (IdentifierExpr "xs") (LiteralExpr "2.9" NUMBER)) with_xs
               = (Ok x, with_xs).
Proof.
  apply (proj1 evaluateIndex_list_bounds_and_type 1 (IdentifierExpr "xs")
           (LiteralExpr "2.9" NUMBER) with_xs with_xs with_xs _
           (VNumber (default Double.zero (Double.stod "2.9"))) 2%Z).
  - reflexivity.
  - reflexivity.
  - reflexivity.
  - reflexivity.
  - simpl. lia.
Defined.

Lemma evaluateBinary_lists (fuel : nat) (lhs rhs : ExprNode) (ex ex1 ex2 : t)
    (a b : list Value) :
  evaluateExpression fuel lhs ex = (Ok (VList a), ex1) ->
  evaluateExpression fuel rhs ex1 = (Ok (VList b), ex2) ->
  evaluateExpression (S fuel) (BinaryExpr lhs PLUS rhs) ex = (Ok (VList (a ++ b)), ex2).
Proof.
  intros Ha Hb. cbn [evaluateExpression evaluateExpressionBody].
  unfold evaluateBinary, bind. rewrite Ha, Hb. reflexivity.
Qed.

Lemma evaluateIdentifier_bound (fuel : nat) (name : string) (ex : t) (v : Value) :
  variables ex !! name = Some v ->
  evaluateExpression (S fuel) (IdentifierExpr name) ex = (Ok v, ex).
Proof.
  intros H. cbn [evaluateExpression evaluateExpressionBody].
  unfold evaluateIdentifier, bind, get_variables. rewrite H. reflexivity.
Qed.

(** C9.  When the operands of [+] evaluate to the lists [a] and [b], the
    result is a list of [length a + length b] elements: those of [a]
    followed by those of [b]; the addition itself leaves the executor as
    the evaluation of the operands left it.  In particular, when the
    operands are variables bound to [a] and [b], the executor is unchanged
    and both variables still hold [a] and [b]. *)
Theorem list_concatenation_is_pure :
  (forall fuel lhs rhs ex ex1 ex2 a b,
     evaluateExpression fuel lhs ex = (Ok (VList a), ex1) ->
     evaluateExpression fuel rhs ex1 = (Ok (VList b), ex2) ->
     exists c,
       evaluateExpression (S fuel) (BinaryExpr lhs PLUS rhs) ex = (Ok (VList c), ex2)
       /\ c = a ++ b /\ length c = length a + length b)
  /\ (forall fuel x y ex a b,
        variables ex !! x = Some (VList a) ->
        variables ex !! y = Some (VList b) ->
        exists ex',
          evaluateExpression (2 + fuel)
            (BinaryExpr (IdentifierExpr x) PLUS (IdentifierExpr y)) ex
          = (Ok (VList (a ++ b)), ex')
          /\ ex' = ex
          /\ variables ex' !! x = Some (VList a)
          /\ variables ex' !! y = Some (VList b)).
Proof.
  split.
  - intros fuel lhs rhs ex ex1 ex2 a b Ha Hb. exists (a ++ b).
    split; [apply (evaluateBinary_lists _ _ _ _ _ _ _ _ Ha Hb)|].
    split; [reflexivity | apply length_app].
  - intros fuel x y ex a b Hx Hy. exists ex.
    split; [|auto].
    apply evaluateBinary_lists with (ex1 := ex);
      apply evaluateIdentifier_bound; assumption.
Qed.

Lemma list_concatenation_witness :
  exists ex',
    evaluateExpression 2 (BinaryExpr (IdentifierExpr "a") PLUS (IdentifierExpr "b")) with_a_b
    = (Ok (VList ([VNumber (Double.of_Z 1); VNumber (Double.of_Z 2)]
                  ++ [VNumber (Double.of_Z 3)])), ex')
    /\ ex' = with_a_b
    /\ variables ex' !! "a" = Some (VList [VNumber (Double.of_Z 1); VNumber (Double.of_Z 2)])
    /\ variables ex' !! "b" = Some (VList [VNumber (Double.of_Z 3)]).
Proof.
  apply (proj2 list_concatenation_is_pure 0 "a" "b" with_a_b); reflexivity.
Defined.

(** A call whose callee is an identifier that is no built-in and is bound
    to a file handle: the dispatch reaches the file branch. *)
Lemma evaluateCall_file_branch (fuel : nat) (funcName : string)
    (arguments : list ExprNode) (ex : t) (found : option FileObject) :
  isBuiltin funcName = false ->
  variables ex !! funcName = Some (VFileObject found) ->
  evaluateExpression (S fuel) (CallExpr (IdentifierExpr funcName) arguments) ex =
  match arguments with
  | [] => (Ok VNone, ex)
  | a :: rest =>
    (let* methodValue := evaluateExpression fuel a in
     let methodName := Value.toString methodValue in
     let* file_object := fileValue funcName found in
     match file_object with
     | Some fo =>
       if String.eqb methodName "read"
       then evaluateFileRead (filename fo) (is_binary fo)
       else if String.eqb methodName "write" && (1 <? length arguments)
       then
         match rest with
         | b :: _ =>
           let* dataValue := evaluateExpression fuel b in
           let* file_object := fileValue funcName (Some fo) in
           match file_object with
           | Some fo =>
             evaluateFileWrite (filename fo) (Value.toString dataValue)
               (is_binary fo) (mode fo)
           | None => undefined
           end
         | [] => ret VNone
         end
       else if String.eqb methodName "close"
       then let* _ := closeFile funcName in ret VNone
       else ret VNone
     | None => ret VNone
     end) ex
  end.
Proof.
  intros Hb Hf. unfold isBuiltin in Hb. simpl in Hb.
  rewrite !orb_false_iff in Hb.
  destruct Hb as (H1 & H2 & H3 & H4 & H5 & H6 & H7 & H8 & H9 & H10 & H11 & _).
  cbn [evaluateExpression evaluateExpressionBody]. unfold evaluateCall.
  rewrite H1, H2, H3, H4, H5, H6, H7, H8, H9, H10, H11.
  unfold bind at 1, get_variables. rewrite Hf.
  destruct arguments; reflexivity.
Qed.

Lemma fileValue_eq (funcName : string) (found : option FileObject) (ex : t) :
  exists file_object, fileValue funcName found ex = (Ok file_object, ex).
Proof.
  unfold fileValue, bind, get_variables, ret.
  destruct (variables ex !! funcName) as [[| | | |[fo|]|]|]; eauto.
Qed.

(** The faults of the file operations are not the undefined-function
    fault. *)
Lemma file_error_not_undefined (path g : string) :
  "File read error: Could not open file for reading: " +:+ path <> undefinedFunction g
  /\ "File write error: Could not open file for writing: " +:+ path
     <> undefinedFunction g.
Proof. split; unfold undefinedFunction; simpl; discriminate. Qed.

(** What a call through a handle gives once its first argument has
    evaluated. *)
Lemma file_call_outcome (fuel : nat) (funcName : string) (ex ex1 : t)
    (found : option FileObject) (a : ExprNode) (rest : list ExprNode)
    (methodValue : Value) :
  isBuiltin funcName = false ->
  variables ex !! funcName = Some (VFileObject found) ->
  evaluateExpression fuel a ex = (Ok methodValue, ex1) ->
  let r := fst (evaluateExpression (S fuel)
                  (CallExpr (IdentifierExpr funcName) (a :: rest)) ex) in
  (exists v, r = Ok v)
  \/ (exists path,
        r = Throw ("File read error: Could not open file for reading: " +:+ path))
  \/ (exists path,
        r = Throw ("File write error: Could not open file for writing: " +:+ path))
  \/ (exists b rest',
        rest = b :: rest' /\ r = fst (evaluateExpression fuel b ex1)
        /\ forall v, r <> Ok v).
Proof.
  intros Hb Hf Ha r.
  assert (Hr : r = fst (evaluateExpression (S fuel)
                          (CallExpr (IdentifierExpr funcName) (a :: rest)) ex))
    by reflexivity.
  clearbody r.
  rewrite (evaluateCall_file_branch fuel funcName (a :: rest) ex found Hb Hf) in Hr.
  unfold bind at 1 in Hr. rewrite Ha in Hr. cbv zeta in Hr.
  unfold bind at 1 in Hr. destruct (fileValue_eq funcName found ex1) as [fo Hfo].
  rewrite Hfo in Hr.
  destruct fo as [fo|]; [|left; eexists; exact Hr].
  destruct (String.eqb (Value.toString methodValue) "read").
  { unfold evaluateFileRead in Hr. destruct (files ex1 !! filename fo).
    - left. eexists. exact Hr.
    - right. left. eexists. exact Hr. }
  destruct (String.eqb (Value.toString methodValue) "write" && (1 <? length (a :: rest))).
  { destruct rest as [|b rest']; [left; eexists; exact Hr|].
    unfold bind at 1 in Hr.
    destruct (evaluateExpression fuel b ex1) as [[dataValue|w| |] ex2] eqn:Hd.
    - unfold bind at 1 in Hr.
      destruct (fileValue_eq funcName (Some fo) ex2) as [fo2 Hfo2].
      rewrite Hfo2 in Hr. destruct fo2 as [fo2|].
      + unfold evaluateFileWrite in Hr. destruct (writable ex2 (filename fo2)).
        * left. eexists. exact Hr.
        * right. right. left. eexists. exact Hr.
      + exfalso. revert Hfo2. unfold fileValue, bind, get_variables, ret.
        destruct (variables ex2 !! funcName) as [[| | | |[?|]|]|]; discriminate.
    - right. right. right. exists b, rest'. subst r.
      split; [reflexivity|split; [rewrite Hd; reflexivity|intros v; discriminate]].
    - right. right. right. exists b, rest'. subst r.
      split; [reflexivity|split; [rewrite Hd; reflexivity|intros v; discriminate]].
    - right. right. right. exists b, rest'. subst r.
      split; [reflexivity|split; [rewrite Hd; reflexivity|intros v; discriminate]]. }
  destruct (String.eqb (Value.toString methodValue) "close");
    left; eexists; exact Hr.
Qed.

(** C10, as amended.  A call whose callee is an identifier that is not the
    name of a built-in and is bound to a file handle does not raise the
    undefined-function fault: without arguments it returns None and leaves
    the executor and the file system as they are; when the first argument
    evaluates to a value whose rendering is none of [read], [write],
    [close], or is [write] with no second argument, it returns None and
    leaves the executor and the file system as the evaluation of that
    argument left them.  Whatever the arguments, [read], [write] and
    [close] included: once they evaluate, the call returns a value or
    raises the fault of a file that does not open; and an
    undefined-function fault that comes out of the call, for any name, is
    one that the evaluation of an argument raised. *)
Theorem file_handle_call_without_method_returns_None :
  forall fuel funcName ex found,
    isBuiltin funcName = false ->
    variables ex !! funcName = Some (VFileObject found) ->
    evaluateExpression (S fuel) (CallExpr (IdentifierExpr funcName) []) ex
    = (Ok VNone, ex)
    /\ (forall a rest methodValue ex1,
          evaluateExpression fuel a ex = (Ok methodValue, ex1) ->
          (Value.toString methodValue <> "read"
           /\ Value.toString methodValue <> "write"
           /\ Value.toString methodValue <> "close")
          \/ (Value.toString methodValue = "write" /\ rest = []) ->
          evaluateExpression (S fuel) (CallExpr (IdentifierExpr funcName) (a :: rest)) ex
          = (Ok VNone, ex1)
          /\ fst (evaluateExpression (S fuel)
                    (CallExpr (IdentifierExpr funcName) (a :: rest)) ex)
             <> Throw (undefinedFunction funcName))
    /\ (forall a rest methodValue ex1,
          evaluateExpression fuel a ex = (Ok methodValue, ex1) ->
          (forall b rest', rest = b :: rest' ->
             exists dataValue ex2, evaluateExpression fuel b ex1 = (Ok dataValue, ex2)) ->
          let r := fst (evaluateExpression (S fuel)
                          (CallExpr (IdentifierExpr funcName) (a :: rest)) ex) in
          (exists v, r = Ok v)
          \/ (exists path,
                r = Throw ("File read error: Could not open file for reading: "
                           +:+ path))
          \/ (exists path,
                r = Throw ("File write error: Could not open file for writing: "
                           +:+ path)))
    /\ (forall arguments g,
          fst (evaluateExpression (S fuel)
                 (CallExpr (IdentifierExpr funcName) arguments) ex)
          = Throw (undefinedFunction g) ->
          exists a ex0,
            In a arguments
            /\ fst (evaluateExpression fuel a ex0) = Throw (undefinedFunction g)).
Proof.
  intros fuel funcName ex found Hb Hf. split; [|split; [|split]].
  { apply (evaluateCall_file_branch fuel funcName [] ex found Hb Hf). }
  { intros a rest methodValue ex1 Ha Hm.
    assert (Hcall : evaluateExpression (S fuel)
                      (CallExpr (IdentifierExpr funcName) (a :: rest)) ex
                    = (Ok VNone, ex1)).
    { rewrite (evaluateCall_file_branch fuel funcName (a :: rest) ex found Hb Hf).
      unfold bind at 1. rewrite Ha. cbv zeta.
      unfold bind at 1. destruct (fileValue_eq funcName found ex1) as [fo ->].
      destruct fo as [fo|]; [|reflexivity].
      destruct Hm as [(Hr & Hw & Hc)|[Hw ->]].
      - apply String.eqb_neq in Hr, Hw, Hc. rewrite Hr, Hw, Hc. reflexivity.
      - rewrite Hw. reflexivity. }
    rewrite Hcall. split; [reflexivity | discriminate]. }
  { intros a rest methodValue ex1 Ha Hrest r.
    destruct (file_call_outcome fuel funcName ex ex1 found a rest methodValue Hb Hf Ha)
      as [H|[H|[H|(b & rest' & -> & Hr & Hno)]]]; auto.
    exfalso. destruct (Hrest b rest' eq_refl) as (dataValue & ex2 & Hd).
    rewrite Hd in Hr. apply (Hno dataValue). exact Hr. }
  { intros arguments g H.
    destruct arguments as [|a rest].
    { rewrite (evaluateCall_file_branch fuel funcName [] ex found Hb Hf) in H.
      discriminate H. }
    destruct (evaluateExpression fuel a ex) as [[methodValue|w| |] ex1] eqn:Ha.
    - destruct (file_call_outcome fuel funcName ex ex1 found a rest methodValue Hb Hf Ha)
        as [[v Hv]|[[path Hp]|[[path Hp]|(b & rest' & -> & Hr & _)]]].
      + rewrite Hv in H. discriminate H.
      + rewrite Hp in H. exfalso.
        apply (proj1 (file_error_not_undefined path g)). congruence.
      + rewrite Hp in H. exfalso.
        apply (proj2 (file_error_not_undefined path g)). congruence.
      + exists b, ex1. split; [right; left; reflexivity|].
        rewrite <- Hr. exact H.
    - exists a, ex. split; [left; reflexivity|].
      rewrite (evaluateCall_file_branch fuel funcName (a :: rest) ex found Hb Hf) in H.
      unfold bind at 1 in H. rewrite Ha in H. rewrite Ha. exact H.
    - rewrite (evaluateCall_file_branch fuel funcName (a :: rest) ex found Hb Hf) in H.
      unfold bind at 1 in H. rewrite Ha in H. discriminate H.
    - rewrite (evaluateCall_file_branch fuel funcName (a :: rest) ex found Hb Hf) in H.
      unfold bind at 1 in H. rewrite Ha in H. discriminate H. }
Qed.

(** The theorem at work on [fh()] and on [fh("seek")]. *)
Lemma file_handle_call_witness :
  evaluateExpression 2 (CallExpr (IdentifierExpr "fh") []) with_fh = (Ok VNone, with_fh)
  /\ evaluateExpression 2
       (CallExpr (IdentifierExpr "fh") [LiteralExpr "seek" STRING]) with_fh
     = (Ok VNone, with_fh).
Proof.
  destruct (file_handle_call_without_method_returns_None 1 "fh" with_fh
              (Some (mkFileObject "f.txt" "r" false true)) eq_refl eq_refl)
    as (Hnone & Hmethod & _).
  split; [exact Hnone|].
  apply (Hmethod (LiteralExpr "seek" STRING) [] (VString "seek") with_fh eq_refl).
  left. repeat split; discriminate.
Defined.

(** C10, as stated, fails for a name of the built-in table: [len], bound
    to a file handle and called without arguments, is the built-in [len]
    and answers the number 0, not None.  It fails as well when an argument
    of the call raises the fault: [fh(g())], with [fh] bound to a handle
    and [g] to nothing, raises the undefined-function fault of [g]. *)
Lemma file_handle_named_len_is_the_builtin :
  (variables with_len !! "len" = Some a_handle
   /\ evaluateExpression 2 (CallExpr (IdentifierExpr "len") []) with_len
      = (Ok (VNumber Double.zero), with_len)
   /\ evaluateExpression 2 (CallExpr (IdentifierExpr "len") []) with_len
      <> (Ok VNone, with_len))
  /\ (variables with_fh !! "fh" = Some a_handle
      /\ evaluateExpression 3
           (CallExpr (IdentifierExpr "fh") [CallExpr (IdentifierExpr "g") []]) with_fh
         = (Throw (undefinedFunction "g"), with_fh)).
Proof. repeat split; try reflexivity. discriminate. Qed.

(** The program that binds the name: [len = open("f.txt")]. *)
Example len_can_be_bound_to_a_handle :
  executeStatement 4
    (AssignStmt "len" (CallExpr (IdentifierExpr "open") [LiteralExpr "f.txt" STRING]))
    (init false [] ∅ nonempty)
  = (Ok tt, with_len).
Proof. reflexivity. Qed.


(** X19.  A with-statement that runs through leaves its [as] name
    unbound, also when the name was bound before the statement: the old
    binding is not restored. *)
Lemma with_binding_removed_without_fault (fuel : nat) (context_expr : ExprNode)
    (optional_vars : string) (body : list StmtNode) (ex ex' : t) :
  optional_vars <> "" ->
  executeStatement (S fuel) (WithStmt context_expr optional_vars body) ex = (Ok tt, ex') ->
  variables ex' !! optional_vars = None.
Proof.
  intros Hname. apply String.eqb_neq in Hname.
  cbn [executeStatement executeStatementBody]. unfold executeWith, try_catch.
  rewrite Hname. cbn [negb]. unfold bind.
  destruct (evaluateExpression fuel context_expr ex) as [[v| | |] ex1]; try discriminate.
  unfold set_variables at 1.
  destruct (forEach (executeStatement fuel) body _) as [[l| | |] ex2]; try discriminate.
  unfold set_variables. intros H. injection H as <-. simpl.
  apply lookup_delete_eq.
Qed.

Lemma evaluateEval_call (fuel : nat) (arguments : list ExprNode) (ex : t) :
  evaluateExpression (S fuel) (CallExpr (IdentifierExpr "eval") arguments) ex
  = evaluateEval (evaluateExpression fuel) arguments ex.
Proof. reflexivity. Qed.

(** The tokens of [2 + 3 * 4] and the tree the parser builds from them:
    the product is the right operand of the sum. *)
Example product_binds_tighter_than_sum :
  option_map Parser.parseExpressionPublic (Lexer.tokenize "2 + 3 * 4")
  = Some (Ok (BinaryExpr (LiteralExpr "2" NUMBER) PLUS
                (BinaryExpr (LiteralExpr "3" NUMBER) MULTIPLY (LiteralExpr "4" NUMBER)))).
Proof. vm_compute. reflexivity. Qed.

(** C7.  [eval("2 + 3 * 4")] yields the number 14, in every executor and
    with any fuel from 4 on.  In general [eval] renders the value of its
    first argument as a text; when every character of the text is a digit
    or a point and the text converts, the result is the converted number;
    when some character is neither, the text is tokenized and parsed as one
    expression, and when that expression evaluates, in the executor as the
    argument left it, its value is the result.  The text [2 + 3 * 4] goes
    that way: it is not a numeral, and the parser builds from its tokens
    the sum of 2 and the product of 3 and 4.  So it is for every sum or
    difference with a product, quotient or remainder of numbers: the
    multiplicative operator takes its two neighbours first, on either side
    of the additive one. *)
Theorem eval_parses_and_evaluates_its_argument :
  (forall fuel ex,
     evaluateExpression (4 + fuel)
       (CallExpr (IdentifierExpr "eval") [LiteralExpr "2 + 3 * 4" STRING]) ex
     = (Ok (VNumber (Double.of_Z 14)), ex))
  /\ (forall fuel a rest ex expr_value ex1 x,
        evaluateExpression fuel a ex = (Ok expr_value, ex1) ->
        all_of isDigitOrDot (Value.toString expr_value) = true ->
        Double.stod (Value.toString expr_value) = Some x ->
        evaluateExpression (S fuel) (CallExpr (IdentifierExpr "eval") (a :: rest)) ex
        = (Ok (VNumber x), ex1))
  /\ (forall fuel a rest ex expr_value ex1 tokens expr_node r ex2,
        evaluateExpression fuel a ex = (Ok expr_value, ex1) ->
        all_of isDigitOrDot (Value.toString expr_value) = false ->
        Lexer.tokenize (Value.toString expr_value) = Some tokens ->
        Parser.parseExpressionPublic tokens = Ok expr_node ->
        evaluateExpression fuel expr_node ex1 = (Ok r, ex2) ->
        evaluateExpression (S fuel) (CallExpr (IdentifierExpr "eval") (a :: rest)) ex
        = (Ok r, ex2))
  /\ (all_of isDigitOrDot "2 + 3 * 4" = false
      /\ exists tokens,
           Lexer.tokenize "2 + 3 * 4" = Some tokens
           /\ Parser.parseExpressionPublic tokens
              = Ok (BinaryExpr (LiteralExpr "2" NUMBER) PLUS
                      (BinaryExpr (LiteralExpr "3" NUMBER) MULTIPLY
                         (LiteralExpr "4" NUMBER))))
  /\ (forall a b c additive multiplicative eof : Token,
        type a = NUMBER -> type b = NUMBER -> type c = NUMBER ->
        In (type additive) [PLUS; MINUS] ->
        In (type multiplicative) [MULTIPLY; DIVIDE; MODULO] ->
        type eof = EOF_TOKEN ->
        Parser.parseExpressionPublic [a; additive; b; multiplicative; c; eof]
        = Ok (BinaryExpr (LiteralExpr (value a) NUMBER) (type additive)
                (BinaryExpr (LiteralExpr (value b) NUMBER) (type multiplicative)
                   (LiteralExpr (value c) NUMBER)))
        /\ Parser.parseExpressionPublic [a; multiplicative; b; additive; c; eof]
           = Ok (BinaryExpr
                   (BinaryExpr (LiteralExpr (value a) NUMBER) (type multiplicative)
                      (LiteralExpr (value b) NUMBER))
                   (type additive) (LiteralExpr (value c) NUMBER))).
Proof.
  split; [|split; [|split; [|split; [split|]]]].
  - intros fuel ex. vm_compute. reflexivity.
  - intros fuel a rest ex v ex1 x Ha Hall Hstod.
    rewrite evaluateEval_call. unfold evaluateEval, bind. rewrite Ha.
    cbv zeta. rewrite Hall, Hstod. reflexivity.
  - intros fuel a rest ex v ex1 tokens expr_node r ex2 Ha Hall Htok Hparse Hr.
    rewrite evaluateEval_call. unfold evaluateEval, bind at 1. rewrite Ha.
    cbv zeta. rewrite Hall, Htok. unfold try_catch, bind, lift.
    rewrite Hparse, Hr. reflexivity.
  - reflexivity.
  - eexists. split; vm_compute; reflexivity.
  - intros a b c additive multiplicative eof.
    destruct a as [ta va la ca], b as [tb vb lb cb], c as [tc vc lc cc],
      additive as [tp vp lp cp], multiplicative as [tm vm lm cm], eof as [te ve le ce].
    cbn [type value]. intros -> -> -> Hp Hm ->.
    destruct Hp as [<-|[<-|[]]]; destruct Hm as [<-|[<-|[<-|[]]]];
      split; vm_compute; reflexivity.
Qed.

(** The theorem at work on [eval("7")] and on [eval("n * 2")] with [n]
    bound to 5. *)
Lemma eval_witness :
  evaluateExpression 2
    (CallExpr (IdentifierExpr "eval") [LiteralExpr "7" STRING]) with_n
  = (Ok (VNumber (Double.of_Z 7)), with_n)
  /\ evaluateExpression 4
       (CallExpr (IdentifierExpr "eval") [LiteralExpr "n * 2" STRING]) with_n
     = (Ok (VNumber (Double.of_Z 10)), with_n).
Proof.
  split.
  - apply (proj1 (proj2 eval_parses_and_evaluates_its_argument) 1
             (LiteralExpr "7" STRING) [] with_n (VString "7") with_n);
      vm_compute; reflexivity.
  - apply (proj1 (proj2 (proj2 eval_parses_and_evaluates_its_argument)) 3
             (LiteralExpr "n * 2" STRING) [] with_n (VString "n * 2") with_n
             (default [] (Lexer.tokenize "n * 2"))
             (BinaryExpr (IdentifierExpr "n") MULTIPLY (LiteralExpr "2" NUMBER)));
      vm_compute; reflexivity.
Defined.

End ExecutorClaims.

(** ** Claim about template strings *)

Section TemplateClaims.

Import Executor.

Lemma length_append (s1 s2 : string) :
  String.length (s1 +:+ s2) = String.length s1 + String.length s2.
Proof. induction s1 as [|c s1 IH]; simpl; [reflexivity | rewrite IH; reflexivity]. Qed.

Lemma char_at_append_l (s1 s2 : string) (i : nat) :
  i < String.length s1 -> char_at (s1 +:+ s2) i = char_at s1 i.
Proof.
  intros H. unfold char_at. rewrite <- (append_correct1 s1 s2 i H). reflexivity.
Qed.

Lemma char_at_append_r (s1 s2 : string) :
  char_at (s1 +:+ s2) (String.length s1) = char_at s2 0.
Proof.
  unfold char_at. rewrite (append_correct2 s1 s2 0). reflexivity.
Qed.

Lemma char_at_cons (c : ascii) (s : string) (i : nat) :
  char_at (String c s) (S i) = char_at s i.
Proof. reflexivity. Qed.

Lemma substring_append_l (s1 s2 : string) :
  String.substring 0 (String.length s1) (s1 +:+ s2) = s1.
Proof.
  induction s1 as [|c s1 IH]; simpl.
  - destruct s2; reflexivity.
  - rewrite IH. reflexivity.
Qed.

Lemma char_at_In (s : string) (i : nat) :
  i < String.length s -> In (char_at s i) (list_ascii_of_string s).
Proof.
  revert i. induction s as [|c s IH]; intros i H; simpl in *; [lia|].
  destruct i as [|i]; [left; reflexivity|].
  right. apply IH. lia.
Qed.

(** A character of a text whose characters, white space apart, satisfy
    [p]. *)
Lemma eraseSpaces_all_of (p : ascii -> bool) (s : string) (c : ascii) :
  all_of p (eraseSpaces s) = true -> In c (list_ascii_of_string s) ->
  isspace c = true \/ p c = true.
Proof.
  unfold all_of, eraseSpaces. rewrite list_ascii_of_string_of_list_ascii.
  intros H Hin. destruct (isspace c) eqn:E; [left; reflexivity | right].
  rewrite forallb_forall in H. apply H.
  apply filter_In. split; [assumption | rewrite E; reflexivity].
Qed.

Lemma not_a_brace (c : ascii) :
  isspace c = true \/ isAlnumOrUnderscore c = true ->
  (c =? "{")%char = false /\ (c =? "}")%char = false.
Proof.
  intros H.
  destruct (Ascii.eqb_spec c "{") as [->|]; [destruct H; discriminate|].
  destruct (Ascii.eqb_spec c "}") as [->|]; [destruct H; discriminate|].
  split; reflexivity.
Qed.

(** The brace scan over a region that holds no brace stops on the closing
    brace with the count at zero. *)
Lemma matchBrace_plain_region (region : string) :
  (forall i, i < String.length region ->
     (char_at region i =? "{")%char = false /\ (char_at region i =? "}")%char = false) ->
  matchBrace (String "{" (region +:+ "}")) 1 = Some (S (String.length region), 0).
Proof.
  intros Hplain. unfold matchBrace.
  set (template_str := String "{" (region +:+ "}")).
  assert (Hlen : String.length template_str = S (S (String.length region))).
  { unfold template_str. simpl. rewrite length_append. simpl. lia. }
  rewrite Hlen.
  set (cond := fun '(expr_end, brace_count) =>
                 (expr_end <? S (S (String.length region))) && (0 <? brace_count)).
  set (body := fun '(expr_end, brace_count) =>
     let brace_count :=
       if (char_at template_str expr_end =? "{")%char then brace_count + 1
       else if (char_at template_str expr_end =? "}")%char then brace_count - 1
       else brace_count in
     (if 0 <? brace_count then expr_end + 1 else expr_end, brace_count)).
  assert (Hscan : forall k j fuel,
            j + k = String.length region -> k < fuel ->
            while fuel cond body (S j, 1) = Some (S (String.length region), 0)).
  { induction k as [|k IH]; intros j fuel Hj Hfuel.
    - destruct fuel as [|fuel]; [lia|].
      assert (j = String.length region) by lia. subst j.
      rewrite while_true.
      2:{ unfold cond. apply andb_true_iff. split; [apply Nat.ltb_lt; lia | reflexivity]. }
      assert (Hbody : body (S (String.length region), 1) = (S (String.length region), 0)).
      { unfold body, template_str. cbv zeta.
        rewrite !char_at_cons, !char_at_append_r. reflexivity. }
      rewrite Hbody. apply while_false. unfold cond. apply andb_false_r.
    - destruct fuel as [|fuel]; [lia|].
      rewrite while_true.
      2:{ unfold cond. apply andb_true_iff. split; [apply Nat.ltb_lt; lia | reflexivity]. }
      assert (Hbody : body (S j, 1) = (S (S j), 1)).
      { unfold body, template_str. cbv zeta.
        rewrite !char_at_cons, !char_at_append_l by lia.
        destruct (Hplain j) as [-> ->]; [lia|]. simpl. f_equal. lia. }
      rewrite Hbody. apply IH; lia. }
  apply (Hscan (String.length region) 0); lia.
Qed.

(** The mini-evaluator on a region that names an unbound variable. *)
Lemma simpleExpression_unbound (self : string -> option Value)
    (variables : gmap string Value) (expr_str name : string) :
  eraseSpaces expr_str = name ->
  name <> "" ->
  all_of isDigitOrDot name = false ->
  all_of isAlnumOrUnderscore name = true ->
  variables !! name = None ->
  simpleExpression self variables expr_str = Some (VString ("{" +:+ name +:+ "}")).
Proof.
  intros Hname Hne Hdig Haln Hlook. unfold simpleExpression. cbv zeta.
  rewrite Hname. apply String.eqb_neq in Hne. rewrite Hne, Hdig, Haln, Hlook.
  reflexivity.
Qed.

Lemma simpleExpression_bound_number (self : string -> option Value)
    (variables : gmap string Value) (name : string) (x : Double.t) :
  eraseSpaces name = name ->
  name <> "" ->
  all_of isDigitOrDot name = false ->
  all_of isAlnumOrUnderscore name = true ->
  variables !! name = Some (VNumber x) ->
  simpleExpression self variables name = Some (VNumber x).
Proof.
  intros Hname Hne Hdig Haln Hlook. unfold simpleExpression. cbv zeta.
  rewrite Hname. apply String.eqb_neq in Hne. rewrite Hne, Hdig, Haln, Hlook.
  reflexivity.
Qed.

Lemma sum_of_x_and_y (fuel : nat) (variables : gmap string Value) :
  variables !! "x" = Some (VNumber (Double.of_Z 2)) ->
  variables !! "y" = Some (VNumber (Double.of_Z 3)) ->
  parseAndEvaluateSimpleExpressionFuel (2 + fuel) variables "x+y"
  = Some (VNumber (Double.of_Z 5)).
Proof.
  intros Hx Hy.
  change (simpleExpression
            (simpleExpression (parseAndEvaluateSimpleExpressionFuel fuel variables) variables)
            variables "x+y" = Some (VNumber (Double.of_Z 5))).
  assert (Hx' : simpleExpression (parseAndEvaluateSimpleExpressionFuel fuel variables)
                  variables "x" = Some (VNumber (Double.of_Z 2))).
  { apply simpleExpression_bound_number; try reflexivity; [discriminate | exact Hx]. }
  assert (Hy' : simpleExpression (parseAndEvaluateSimpleExpressionFuel fuel variables)
                  variables "y" = Some (VNumber (Double.of_Z 3))).
  { apply simpleExpression_bound_number; try reflexivity; [discriminate | exact Hy]. }
  revert Hx' Hy'.
  generalize (simpleExpression (parseAndEvaluateSimpleExpressionFuel fuel variables)
                variables).
  intros self Hx' Hy'.
  lazy -[Value.toNumber Value.toString Double.add Double.sub Double.mul Double.div
         Double.fmod Double.of_Z lookup].
  rewrite Hx', Hy'. vm_compute. reflexivity.
Qed.

(** C8.  The template [sum={x+y}], evaluated where [x] is bound to the
    number 2 and [y] to the number 3, yields the text [sum=5]; and a
    template made of one brace region whose text, white space removed, is
    a name (alphanumerics and underscores, not all digits) that is not
    bound yields the name between braces. *)
Theorem template_sum_and_unbound_name :
  (forall fuel ex,
     variables ex !! "x" = Some (VNumber (Double.of_Z 2)) ->
     variables ex !! "y" = Some (VNumber (Double.of_Z 3)) ->
     evaluateExpression (S fuel) (FStringExpr "sum={x+y}") ex
     = (Ok (VString "sum=5"), ex))
  /\ (forall fuel ex region name,
        eraseSpaces region = name ->
        name <> "" ->
        all_of isAlnumOrUnderscore name = true ->
        all_of isDigitOrDot name = false ->
        variables ex !! name = None ->
        evaluateExpression (S fuel) (FStringExpr ("{" +:+ region +:+ "}")) ex
        = (Ok (VString ("{" +:+ name +:+ "}")), ex)).
Proof.
  split.
  - intros fuel ex Hx Hy.
    assert (Hregion : parseAndEvaluateSimpleExpression "x+y" ex
                      = (Ok (VNumber (Double.of_Z 5)), ex)).
    { unfold parseAndEvaluateSimpleExpression, bind, get_variables.
      change (S (String.length "x+y")) with (2 + 2).
      rewrite (sum_of_x_and_y 2 _ Hx Hy). reflexivity. }
    cbn [evaluateExpression evaluateExpressionBody]. unfold evaluateFString.
    lazy -[parseAndEvaluateSimpleExpression Value.toString Double.of_Z].
    rewrite Hregion. vm_compute. reflexivity.
  - intros fuel ex region name Hname Hne Haln Hdig Hlook.
    assert (Hplain : forall i, i < String.length region ->
              (char_at region i =? "{")%char = false
              /\ (char_at region i =? "}")%char = false).
    { intros i Hi. apply not_a_brace.
      apply (eraseSpaces_all_of _ region); [rewrite Hname; exact Haln|].
      apply char_at_In, Hi. }
    assert (Hregion : parseAndEvaluateSimpleExpression region ex
                      = (Ok (VString ("{" +:+ name +:+ "}")), ex)).
    { unfold parseAndEvaluateSimpleExpression, bind, get_variables.
      cbn [parseAndEvaluateSimpleExpressionFuel].
      rewrite (simpleExpression_unbound _ _ region name); auto. }
    cbn [evaluateExpression evaluateExpressionBody]. unfold evaluateFString.
    change ("{" +:+ region +:+ "}") with (String "{" (region +:+ "}")).
    assert (Hbrace := matchBrace_plain_region region Hplain).
    assert (Hsub : substr (String "{" (region +:+ "}")) 1 (S (String.length region) - 1)
                   = region).
    { unfold substr.
      replace (S (String.length region) - 1) with (String.length region) by lia.
      change (String.substring 1 (String.length region) (String "{" (region +:+ "}")))
        with (String.substring 0 (String.length region) (region +:+ "}")).
      apply substring_append_l. }
    assert (Hfirst : char_at (String "{" (region +:+ "}")) 0 = "{"%char) by reflexivity.
    assert (Hlen : String.length (String "{" (region +:+ "}"))
                   = S (S (String.length region))).
    { simpl. rewrite length_append. simpl. lia. }
    revert Hbrace Hsub Hfirst Hlen.
    generalize (String "{" (region +:+ "}")). intros template_str Hbrace Hsub Hfirst Hlen.
    rewrite Hlen. unfold bind at 1.
    cbn [evaluateFStringLoop]. rewrite Hlen, Hfirst.
    change (0 <? S (S (String.length region))) with true. cbv iota zeta.
    change ("{" =? BACKSLASH)%char with false.
    change ("{" =? "{")%char with true. cbv iota.
    change (0 + 1) with 1. rewrite Hbrace.
    change (0 =? 0) with true. cbv iota. rewrite Hsub.
    unfold bind at 1. rewrite Hregion.
    replace (S (String.length region) + 1 <? S (S (String.length region))) with false.
    2:{ symmetry. apply Nat.ltb_ge. lia. }
    reflexivity.
Qed.

(** The theorem at work where only [x] and [y] are bound: on [sum={x+y}]
    and on the region [{ total }]. *)
Lemma template_witness :
  evaluateExpression 1 (FStringExpr "sum={x+y}") with_x_y
  = (Ok (VString "sum=5"), with_x_y)
  /\ evaluateExpression 1 (FStringExpr ("{" +:+ " total " +:+ "}")) with_x_y
     = (Ok (VString ("{" +:+ "total" +:+ "}")), with_x_y).
Proof.
  split.
  - apply (proj1 template_sum_and_unbound_name 0 with_x_y); reflexivity.
  - apply (proj2 template_sum_and_unbound_name 0 with_x_y " total " "total");
      try reflexivity. discriminate.
Defined.

(** *** Templates always evaluate

    The fuel that [parseAndEvaluateSimpleExpression] and [evaluateFString]
    give their loops is enough for every text. *)

Lemma forDown_Some {A} (n : nat) (body : nat -> option A) (r : A) :
  forDown n body = Some r -> exists i, i < n /\ body i = Some r.
Proof.
  induction n as [|n IH]; simpl; [discriminate|].
  destruct (body n) eqn:E.
  - intros [= ->]. exists n. split; [lia | exact E].
  - intros H. destruct (IH H) as (i & Hi & Hb). exists i. split; [lia | exact Hb].
Qed.

Lemma length_string_of_list_ascii (l : list ascii) :
  String.length (string_of_list_ascii l) = length l.
Proof. induction l as [|c l IH]; simpl; [reflexivity | rewrite IH; reflexivity]. Qed.

Lemma length_list_ascii_of_string (s : string) :
  length (list_ascii_of_string s) = String.length s.
Proof. induction s as [|c s IH]; simpl; [reflexivity | rewrite IH; reflexivity]. Qed.

Lemma length_eraseSpaces (s : string) :
  String.length (eraseSpaces s) <= String.length s.
Proof.
  unfold eraseSpaces. rewrite length_string_of_list_ascii, <- length_list_ascii_of_string.
  induction (list_ascii_of_string s) as [|c l IH]; simpl; [lia|].
  destruct (negb (isspace c)); simpl; lia.
Qed.

Lemma length_substr (s : string) (start n : nat) :
  String.length (substr s start n) <= n.
Proof.
  unfold substr. revert start n.
  induction s as [|c s IH]; intros start n; destruct start, n; simpl; try lia.
  - specialize (IH 0 n). lia.
  - apply IH.
  - specialize (IH start (S n)). lia.
Qed.

(** The text between braces is evaluated within the fuel that
    [parseAndEvaluateSimpleExpression] gives: every recursive call is on a
    proper part of the text. *)
Lemma parseAndEvaluateSimpleExpressionFuel_total (variables : gmap string Value) :
  forall (fuel : nat) (expr_str : string),
    String.length (eraseSpaces expr_str) < fuel ->
    exists v, parseAndEvaluateSimpleExpressionFuel fuel variables expr_str = Some v.
Proof.
  induction fuel as [|fuel IH]; intros expr_str Hfuel; [lia|].
  cbn [parseAndEvaluateSimpleExpressionFuel].
  set (self := parseAndEvaluateSimpleExpressionFuel fuel variables) in *.
  unfold simpleExpression. cbv zeta.
  set (expr := eraseSpaces expr_str) in *.
  destruct (String.eqb expr ""); [eauto|].
  destruct (all_of isDigitOrDot expr); [destruct (Double.stod expr); eauto|].
  destruct (all_of isAlnumOrUnderscore expr); [destruct (variables !! expr); eauto|].
  assert (Hparts : forall i, i < String.length expr ->
            (exists v, self (substr expr 0 i) = Some v)
            /\ (exists v, self (substr expr (i + 1) (String.length expr - (i + 1))) = Some v)).
  { intros i Hi. split; apply IH.
    - pose proof (length_eraseSpaces (substr expr 0 i)).
      pose proof (length_substr expr 0 i). lia.
    - pose proof (length_eraseSpaces (substr expr (i + 1) (String.length expr - (i + 1)))).
      pose proof (length_substr expr (i + 1) (String.length expr - (i + 1))). lia. }
  match goal with
  | |- exists v, match forDown ?n ?f with _ => _ end = _ =>
    destruct (forDown n f) as [o|] eqn:E1
  end.
  - apply forDown_Some in E1 as (i & Hi & Hb).
    destruct (Hparts i Hi) as [[vl Hl] [vr Hr]].
    rewrite Hl, Hr in Hb. cbn [mbind option_bind] in Hb.
    repeat match type of Hb with
           | (if ?b then _ else _) = _ => destruct b
           end; try discriminate Hb; injection Hb as <-; eauto.
  - match goal with
    | |- exists v, match forDown ?n ?f with _ => _ end = _ =>
      destruct (forDown n f) as [o|] eqn:E2
    end; [|eauto].
    apply forDown_Some in E2 as (i & Hi & Hb).
    destruct (Hparts i Hi) as [[vl Hl] [vr Hr]].
    rewrite Hl, Hr in Hb. cbn [mbind option_bind] in Hb.
    repeat match type of Hb with
           | (if ?b then _ else _) = _ => destruct b
           end; try discriminate Hb; injection Hb as <-; eauto.
Qed.

(** [parseAndEvaluateSimpleExpression] returns a value and leaves the
    executor as it was. *)
Lemma parseAndEvaluateSimpleExpression_returns (expr_str : string) (ex : t) :
  exists v, parseAndEvaluateSimpleExpression expr_str ex = (Ok v, ex).
Proof.
  unfold parseAndEvaluateSimpleExpression, bind, get_variables.
  destruct (parseAndEvaluateSimpleExpressionFuel_total (variables ex)
              (S (String.length expr_str)) expr_str) as [v ->].
  - pose proof (length_eraseSpaces expr_str). lia.
  - exists v. reflexivity.
Qed.

(** The scan for the closing brace ends, at or after the place it starts
    from. *)
Lemma matchBrace_returns (template_str : string) (expr_start : nat) :
  0 < expr_start -> expr_start <= String.length template_str ->
  exists expr_end brace_count,
    matchBrace template_str expr_start = Some (expr_end, brace_count)
    /\ expr_start <= expr_end.
Proof.
  intros Hpos Hle. unfold matchBrace.
  match goal with
  | |- context [while _ ?c ?b _] => set (cond := c); set (body := b)
  end.
  destruct (while_terminates cond body
              (fun '(expr_end, _) => expr_start <= expr_end)
              (fun '(expr_end, brace_count) =>
                 if 0 <? brace_count
                 then S (String.length template_str - expr_end) else 0))
    with (fuel := String.length template_str) (s := (expr_start, 1))
    as ([expr_end brace_count] & Hw & Hinv & _).
  - intros [expr_end brace_count] Hinv Hcond. unfold cond in Hcond.
    apply andb_true_iff in Hcond as [Hlt Hb].
    apply Nat.ltb_lt in Hlt. rewrite Hb. unfold body.
    destruct (char_at template_str expr_end =? "{")%char;
      [|destruct (char_at template_str expr_end =? "}")%char];
      cbv zeta;
      repeat match goal with
             | |- context [0 <? ?x] => destruct (Nat.ltb_spec 0 x)
             end; split; lia.
  - lia.
  - simpl. lia.
  - exists expr_end, brace_count. split; assumption.
Qed.

(** The outer loop of [evaluateFString] ends within its fuel, with a text
    and the executor as it was. *)
Lemma evaluateFStringLoop_returns (template_str : string) :
  forall (fuel pos : nat) (result : string) (ex : t),
    String.length template_str - pos < fuel ->
    exists r, evaluateFStringLoop fuel template_str pos result ex = (Ok r, ex).
Proof.
  induction fuel as [|fuel IH]; intros pos result ex Hfuel; [lia|].
  cbn [evaluateFStringLoop].
  destruct (Nat.ltb_spec pos (String.length template_str)) as [Hlt|Hge];
    [|exists result; reflexivity].
  cbv zeta.
  destruct (char_at template_str pos =? BACKSLASH)%char.
  { destruct (pos + 1 <? String.length template_str); apply IH; lia. }
  destruct (char_at template_str pos =? "{")%char; [|apply IH; lia].
  destruct (matchBrace_returns template_str (pos + 1))
    as (expr_end & brace_count & -> & Hend); [lia | lia |].
  destruct (brace_count =? 0); [|apply IH; lia].
  unfold bind.
  destruct (parseAndEvaluateSimpleExpression_returns
              (substr template_str (pos + 1) (expr_end - (pos + 1))) ex) as [v ->].
  apply IH. lia.
Qed.

(** X18.  A template string always evaluates, to a String, whatever it
    holds (braces that do not match, names that are not bound, operators
    without operands), and the evaluation leaves the executor as it was. *)
Lemma evaluateFString_returns (fuel : nat) (template_string : string) (ex : t) :
  exists text,
    evaluateExpression (S fuel) (FStringExpr template_string) ex
    = (Ok (VString text), ex).
Proof.
  cbn [evaluateExpression evaluateExpressionBody]. unfold evaluateFString, bind.
  destruct (evaluateFStringLoop_returns template_string
              (S (String.length template_string)) 0 "" ex) as [r ->]; [lia|].
  exists r. reflexivity.
Qed.

End TemplateClaims.

(** * Further properties

    Properties of the code beyond the claims of the specification, each
    read off the source. *)

(** ** Strings *)

Lemma append_assoc (a b c : string) : (a +:+ b) +:+ c = a +:+ (b +:+ c).
Proof.
  induction a as [|x a IH]; [reflexivity|].
  change (String x ((a +:+ b) +:+ c) = String x (a +:+ (b +:+ c))).
  rewrite IH. reflexivity.
Qed.

Lemma append_empty_r (a : string) : a +:+ "" = a.
Proof.
  induction a as [|x a IH]; [reflexivity|].
  change (String x (a +:+ "") = String x a). rewrite IH. reflexivity.
Qed.

Lemma substr_nothing (s : string) (start : nat) : substr s start 0 = "".
Proof.
  unfold substr. revert start.
  induction s as [|c s IH]; intros [|start]; try reflexivity. apply IH.
Qed.

Lemma substr_whole (s : string) : substr s 0 (String.length s) = s.
Proof.
  unfold substr. induction s as [|c s IH]; [reflexivity|].
  simpl. rewrite IH. reflexivity.
Qed.

(** One more character at the end of a part of a text. *)
Lemma substr_snoc (s : string) :
  forall start stop,
    start <= stop -> stop < String.length s ->
    list_ascii_of_string (substr s start (S stop - start))
    = list_ascii_of_string (substr s start (stop - start)) ++ [char_at s stop].
Proof.
  unfold substr.
  induction s as [|c s IH]; intros start stop Hle Hlt; [simpl in Hlt; lia|].
  destruct start as [|start].
  - rewrite !Nat.sub_0_r. destruct stop as [|stop].
    + simpl. destruct s; reflexivity.
    + specialize (IH 0 stop). rewrite !Nat.sub_0_r in IH.
      change (list_ascii_of_string (String c (String.substring 0 (S stop) s))
              = list_ascii_of_string (String c (String.substring 0 stop s))
                ++ [char_at s stop]).
      simpl. rewrite IH; [reflexivity | lia | simpl in Hlt; lia].
  - destruct stop as [|stop]; [lia|].
    change (list_ascii_of_string (String.substring start (S (S stop) - S start) s)
            = list_ascii_of_string (String.substring start (S stop - S start) s)
              ++ [char_at s stop]).
    replace (S (S stop) - S start) with (S stop - start) by lia.
    replace (S stop - S start) with (stop - start) by lia.
    apply IH; [lia | simpl in Hlt; lia].
Qed.

Lemma char_at_substr (s : string) (start n i : nat) :
  i < n -> char_at (substr s start n) i = char_at s (start + i).
Proof.
  intros H. unfold char_at, substr.
  rewrite (substring_correct1 s start n i H). rewrite Nat.add_comm. reflexivity.
Qed.

Lemma substr_first (s : string) (start n : nat) :
  0 < n -> char_at (substr s start n) 0 = char_at s start.
Proof. intros Hn. rewrite char_at_substr by exact Hn. rewrite Nat.add_0_r. reflexivity. Qed.

Lemma char_at_0 (s : string) :
  char_at s 0 = match list_ascii_of_string s with c :: _ => c | [] => NUL end.
Proof. destruct s; reflexivity. Qed.

Lemma length_substr_exact (s : string) :
  forall start n, start + n <= String.length s -> String.length (substr s start n) = n.
Proof.
  unfold substr. induction s as [|c s IH]; intros start n H; simpl in H.
  - assert (start = 0) by lia. assert (n = 0) by lia. subst. reflexivity.
  - destruct start as [|start].
    + destruct n as [|n]; [reflexivity|]. simpl. rewrite IH by lia. reflexivity.
    + simpl. destruct n; apply IH; lia.
Qed.

Lemma In_substr (s : string) (c : ascii) :
  forall start n, In c (list_ascii_of_string (substr s start n)) ->
                  In c (list_ascii_of_string s).
Proof.
  unfold substr. induction s as [|x s IH]; intros start n H.
  - destruct start, n; exact H.
  - destruct start as [|start].
    + destruct n as [|n]; [contradiction|]. simpl in H.
      destruct H as [H|H]; [left; exact H | right; eapply IH, H].
    + right. simpl in H. eapply IH, H.
Qed.

(** ** The lexer *)

Section LexerExtras.

Import Lexer.

(** What holds of the tokens each reader produces holds of every token of
    the main loop. *)
Lemma tokenizeLoop_Forall (P : Token -> Prop) :
  (forall lx tok lx', isdigit (currentChar lx) = true ->
                      readNumber lx = Some (tok, lx') -> P tok) ->
  (forall lx tok lx', readString lx = Some (tok, lx') -> P tok) ->
  (forall lx tok lx', isalpha (currentChar lx) || (currentChar lx =? "_")%char = true ->
                      readIdentifier lx = Some (tok, lx') -> P tok) ->
  (forall lx tok lx', operatorToken lx = (Some tok, lx') -> P tok) ->
  forall fuel lx tokens tokens' lx',
    Forall P tokens ->
    tokenizeLoop fuel lx tokens = Some (tokens', lx') ->
    Forall P tokens'.
Proof.
  intros HN HS HI HO.
  induction fuel as [|fuel IH]; intros lx tokens tokens' lx' HP H; [discriminate|].
  cbn [tokenizeLoop] in H.
  destruct (pos lx <? _); [|injection H as <- _; exact HP].
  destruct (while _ _ _ lx) as [lx1|]; [|discriminate]. cbn [mbind option_bind] in H.
  destruct (currentChar lx1 =? NUL)%char; [injection H as <- _; exact HP|].
  destruct (currentChar lx1 =? "#")%char.
  { destruct (while _ _ _ lx1) as [lx2|]; [|discriminate]. cbn [mbind option_bind] in H.
    eapply IH; eassumption. }
  destruct (isdigit (currentChar lx1)) eqn:EDIG.
  { destruct (readNumber lx1) as [[tok lx2]|] eqn:E; [|discriminate].
    cbn [mbind option_bind] in H. eapply IH; [|exact H].
    apply Forall_app. split; [exact HP|]. constructor; [|constructor]. eapply HN; eassumption. }
  destruct (_ || _) eqn:EQ in H.
  { destruct (readString lx1) as [[tok lx2]|] eqn:E; [|discriminate].
    cbn [mbind option_bind] in H. eapply IH; [|exact H].
    apply Forall_app. split; [exact HP|]. constructor; [|constructor]. eapply HS; eassumption. }
  destruct (_ || _) eqn:EA in H.
  { destruct (readIdentifier lx1) as [[tok lx2]|] eqn:E; [|discriminate].
    cbn [mbind option_bind] in H. eapply IH; [|exact H].
    apply Forall_app. split; [exact HP|]. constructor; [|constructor]. eapply HI; eassumption. }
  destruct (operatorToken lx1) as [[tok|] lx2] eqn:E; cbn [option_list] in H.
  - eapply IH; [|exact H].
    apply Forall_app. split; [exact HP|]. constructor; [|constructor]. eapply HO; eassumption.
  - rewrite app_nil_r in H. eapply IH; eassumption.
Qed.

Lemma readNumber_type (lx : t) (tok : Token) (lx' : t) :
  readNumber lx = Some (tok, lx') -> type tok = NUMBER.
Proof.
  unfold readNumber. destruct (while _ _ _ _) as [[l d]|]; [|discriminate].
  cbn [mbind option_bind]. intros [= <- _]. reflexivity.
Qed.

Lemma readString_type (lx : t) (tok : Token) (lx' : t) :
  readString lx = Some (tok, lx') -> type tok = STRING.
Proof.
  unfold readString, readTriple.
  repeat match goal with
         | |- context [if ?b then _ else _] => destruct b
         end;
    (destruct (while _ _ _ _) as [l|]; [|discriminate]);
    cbn [mbind option_bind]; intros [= <- _]; reflexivity.
Qed.

Lemma getKeywordType_spelling (identifier : string) :
  getKeywordType identifier = IDENTIFIER
  \/ spelling (getKeywordType identifier) = Some identifier
     /\ lexed (mkToken (getKeywordType identifier) identifier 0 0) = true.
Proof.
  unfold getKeywordType.
  repeat match goal with
         | |- context [String.eqb ?a ?b] =>
           destruct (String.eqb_spec a b) as [->|]; [right; split; reflexivity|]
         end.
  left. reflexivity.
Qed.

Lemma readIdentifier_lexed (lx : t) (tok : Token) (lx' : t) :
  readIdentifier lx = Some (tok, lx') -> lexed tok = true.
Proof.
  unfold readIdentifier. destruct (while _ _ _ _) as [l|]; [|discriminate].
  cbn [mbind option_bind]. intros [= <- _].
  destruct (getKeywordType_spelling (substr (source l) (pos lx) (pos l - pos lx)))
    as [H|[_ H]].
  - unfold lexed. cbn [type]. rewrite H. reflexivity.
  - unfold lexed in *. cbn [type value] in *. exact H.
Qed.

Lemma operatorToken_spelling (lx : t) (tok : Token) (lx' : t) :
  operatorToken lx = (Some tok, lx') -> spelling (type tok) = Some (value tok).
Proof.
  unfold operatorToken. cbv zeta.
  repeat match goal with
         | |- context [if ?b then _ else _] => destruct b
         end; intros [= <- _]; reflexivity.
Qed.

(** The text of a token. *)

Lemma isNumberLoop_numScan (s : list ascii) :
  forall hasDot,
    Utils.isNumberLoop hasDot s
    = match numScan hasDot s with Some _ => true | None => false end.
Proof.
  induction s as [|c r IH]; intros hasDot; simpl; [reflexivity|].
  destruct (c =? ".")%char.
  - destruct hasDot; [reflexivity | apply IH].
  - destruct (isdigit c); simpl; [apply IH | reflexivity].
Qed.

Lemma numScan_app (s1 s2 : list ascii) :
  forall hasDot, numScan hasDot (s1 ++ s2) = numScan hasDot s1 ≫= fun h => numScan h s2.
Proof.
  induction s1 as [|c r IH]; intros hasDot; simpl; [reflexivity|].
  destruct (c =? ".")%char.
  - destruct hasDot; [reflexivity | apply IH].
  - destruct (isdigit c); simpl; [apply IH | reflexivity].
Qed.

Lemma readNumber_text (lx : t) (tok : Token) (lx' : t) :
  isdigit (currentChar lx) = true ->
  readNumber lx = Some (tok, lx') ->
  Utils.isNumber (value tok) = true /\ isdigit (char_at (value tok) 0) = true.
Proof.
  intros Hdig. unfold readNumber.
  pose proof (currentChar_in_range _ (isdigit_not_NUL _ Hdig)) as Hlt.
  set (cond := fun '(lx, hasDot) =>
         (isdigit (currentChar lx) || (currentChar lx =? ".")%char)
         && negb ((currentChar lx =? ".")%char && hasDot)).
  set (body := fun '(lx, hasDot) =>
         (advance lx, hasDot || (currentChar lx =? ".")%char)).
  set (Inv := fun s : t * bool =>
         reaches lx (fst s)
         /\ numScan false (list_ascii_of_string
                             (substr (source lx) (pos lx) (pos (fst s) - pos lx)))
            = Some (snd s)).
  destruct (while_terminates cond body Inv (fun s => remaining (fst s)))
    with (fuel := loop_fuel lx) (s := (lx, false)) as ([l d] & Hw & [Hr Hscan] & Hc).
  - intros [l d] [Hr Hscan] Hc. cbn [fst snd] in *.
    assert (HNUL : currentChar l <> NUL).
    { unfold cond in Hc. apply andb_true_iff in Hc as [Hc _].
      apply orb_true_iff in Hc as [Hc|Hc].
      - apply isdigit_not_NUL, Hc.
      - eapply eqb_false_not_NUL; [exact Hc | discriminate]. }
    destruct (advance_step lx l Hr HNUL) as [Hr' Hm].
    unfold Inv, body. cbn [fst snd]. split; [split|]; [exact Hr'| |exact Hm].
    pose proof (currentChar_in_range _ HNUL) as Hl.
    destruct Hr as (Hs & Hp1 & Hp2). rewrite advance_pos by exact Hl.
    replace (pos l + 1 - pos lx) with (S (pos l) - pos lx) by lia.
    rewrite substr_snoc by (try rewrite <- Hs; lia).
    rewrite numScan_app, Hscan. cbn [mbind option_bind numScan].
    unfold cond in Hc. unfold currentChar in Hc |- *. rewrite Hs in Hc |- *.
    destruct (char_at (source lx) (pos l) =? ".")%char.
    + destruct d; [rewrite andb_false_r in Hc; discriminate | reflexivity].
    + rewrite orb_false_r in Hc |- *. apply andb_true_iff in Hc as [-> _]. reflexivity.
  - unfold Inv. cbn [fst snd]. split; [apply reaches_refl; lia|].
    rewrite Nat.sub_diag, substr_nothing. reflexivity.
  - unfold remaining, loop_fuel. cbn [fst]. lia.
  - fold cond body. rewrite Hw. cbn [mbind option_bind]. intros [= <- <-].
    cbn [value fst snd] in *.
    destruct Hr as (Hs & Hp1 & Hp2). rewrite Hs.
    assert (Hmoved : pos lx < pos l).
    { destruct (Nat.eq_dec (pos l) (pos lx)) as [E|]; [|lia].
      exfalso. unfold cond, currentChar in Hc. rewrite Hs, E in Hc.
      unfold currentChar in Hdig. rewrite Hdig in Hc.
      cbn [orb andb] in Hc.
      destruct (char_at (source lx) (pos lx) =? ".")%char eqn:Edot.
      - apply Ascii.eqb_eq in Edot. rewrite Edot in Hdig. discriminate.
      - discriminate. }
    assert (Hfirst : char_at (substr (source lx) (pos lx) (pos l - pos lx)) 0
                     = currentChar lx) by (apply substr_first; lia).
    split; [|rewrite Hfirst; exact Hdig].
    unfold Utils.isNumber. rewrite char_at_0 in Hfirst.
    destruct (list_ascii_of_string _) as [|c r] eqn:E.
    + rewrite <- Hfirst in Hdig. discriminate.
    + subst c.
      destruct ((currentChar lx =? "-")%char || (currentChar lx =? "+")%char) eqn:Esign.
      * apply orb_true_iff in Esign as [Es|Es]; apply Ascii.eqb_eq in Es;
          rewrite Es in Hdig; discriminate.
      * rewrite isNumberLoop_numScan, Hscan. reflexivity.
Qed.


Lemma readIdentifier_text (lx : t) (tok : Token) (lx' : t) :
  isalpha (currentChar lx) || (currentChar lx =? "_")%char = true ->
  readIdentifier lx = Some (tok, lx') ->
  isName (value tok) = true /\ getKeywordType (value tok) = type tok.
Proof.
  intros Hal. unfold readIdentifier.
  assert (HNUL0 : currentChar lx <> NUL).
  { apply orb_true_iff in Hal as [H|H].
    - apply isalpha_not_NUL, H.
    - eapply eqb_false_not_NUL; [exact H | discriminate]. }
  pose proof (currentChar_in_range _ HNUL0) as Hlt.
  set (cond := fun lx => isalnum (currentChar lx) || (currentChar lx =? "_")%char).
  set (Inv := fun l : t =>
         reaches lx l
         /\ forallb Executor.isAlnumOrUnderscore
              (list_ascii_of_string (substr (source lx) (pos lx) (pos l - pos lx)))
            = true).
  destruct (while_terminates cond advance Inv remaining)
    with (fuel := loop_fuel lx) (s := lx) as (l & Hw & [Hr Hall] & Hc).
  - intros l [Hr Hall] Hc.
    assert (HNUL : currentChar l <> NUL).
    { unfold cond in Hc. apply orb_true_iff in Hc as [Hc|Hc].
      - apply isalnum_not_NUL, Hc.
      - eapply eqb_false_not_NUL; [exact Hc | discriminate]. }
    destruct (advance_step lx l Hr HNUL) as [Hr' Hm].
    split; [split|]; [exact Hr'| |exact Hm].
    pose proof (currentChar_in_range _ HNUL) as Hl.
    destruct Hr as (Hs & Hp1 & Hp2). rewrite advance_pos by exact Hl.
    replace (pos l + 1 - pos lx) with (S (pos l) - pos lx) by lia.
    rewrite substr_snoc by (try rewrite <- Hs; lia).
    rewrite forallb_app, Hall. cbn [forallb andb]. rewrite andb_true_r.
    unfold cond, currentChar in Hc. rewrite Hs in Hc. exact Hc.
  - unfold Inv. split; [apply reaches_refl; lia|].
    rewrite Nat.sub_diag, substr_nothing. reflexivity.
  - unfold remaining, loop_fuel. lia.
  - fold cond. rewrite Hw. cbn [mbind option_bind]. intros [= <- <-].
    cbn [value type]. destruct Hr as (Hs & Hp1 & Hp2). rewrite Hs.
    split; [|reflexivity].
    assert (Hmoved : pos lx < pos l).
    { destruct (Nat.eq_dec (pos l) (pos lx)) as [E|]; [|lia].
      exfalso. unfold cond, currentChar in Hc. rewrite Hs, E in Hc.
      unfold currentChar in Hal. unfold isalnum in Hc.
      apply orb_true_iff in Hal as [H|H]; rewrite H in Hc;
        [discriminate | rewrite orb_true_r in Hc; discriminate]. }
    unfold isName, all_of. rewrite Hall, substr_first by lia. exact Hal.
Qed.

(** Every text is tokenized, and what the readers give their tokens holds
    of every token of the result. *)
Lemma tokenize_tokens (sourceCode : string) :
  exists tokens,
    tokenize sourceCode = Some tokens
    /\ Forall (fun tok =>
                 ~ In (type tok) [F_STRING; WITH; AS; COMMENT]
                 /\ (forall text, spelling (type tok) = Some text -> value tok = text)
                 /\ (type tok = NUMBER ->
                     Utils.isNumber (value tok) = true
                     /\ isdigit (char_at (value tok) 0) = true)
                 /\ (type tok = IDENTIFIER ->
                     isName (value tok) = true
                     /\ getKeywordType (value tok) = IDENTIFIER))
         tokens.
Proof.
  unfold tokenize, tokenizeFrom.
  destruct (tokenizeLoop_terminates
              (S (String.length (source (init sourceCode)) - pos (init sourceCode)))
              (init sourceCode) []) as (toks & lx & E).
  { simpl. lia. }
  { unfold remaining. lia. }
  rewrite E. cbn [mbind option_bind]. eexists. split; [reflexivity|].
  set (P := fun tok : Token =>
              lexed tok = true
              /\ (type tok = NUMBER ->
                  Utils.isNumber (value tok) = true
                  /\ isdigit (char_at (value tok) 0) = true)
              /\ (type tok = IDENTIFIER ->
                  isName (value tok) = true
                  /\ getKeywordType (value tok) = IDENTIFIER)).
  assert (HP : Forall P (toks ++ [mkToken EOF_TOKEN "" (line lx) (col lx)])).
  { apply Forall_app. split.
    2:{ constructor; [|constructor]. split; [reflexivity|]. split; discriminate. }
    eapply (tokenizeLoop_Forall P); [| | | | |exact E].
    - intros lx0 tok lx' Hd H. pose proof (readNumber_type _ _ _ H) as Hty.
      split; [unfold lexed; rewrite Hty; reflexivity|].
      split; [intros _; eapply readNumber_text; eassumption|].
      rewrite Hty. discriminate.
    - intros lx0 tok lx' H. pose proof (readString_type _ _ _ H) as Hty.
      split; [unfold lexed; rewrite Hty; reflexivity|].
      rewrite Hty. split; discriminate.
    - intros lx0 tok lx' Ha H.
      destruct (readIdentifier_text _ _ _ Ha H) as [Hn Hk].
      split; [eapply readIdentifier_lexed, H|].
      split.
      + intros Hty. rewrite Hty in Hk. unfold getKeywordType in Hk.
        repeat match type of Hk with
               | (if String.eqb ?a ?b then _ else _) = _ =>
                 destruct (String.eqb a b); [discriminate Hk|]
               end.
        discriminate Hk.
      + intros Hty. split; [exact Hn | rewrite Hk; exact Hty].
    - intros lx0 tok lx' H. pose proof (operatorToken_spelling _ _ _ H) as Hsp.
      split; [|split; intros Hty; rewrite Hty in Hsp; discriminate].
      unfold lexed. destruct (type tok); try discriminate Hsp;
        apply bool_decide_eq_true; exact Hsp.
    - constructor. }
  eapply Forall_impl; [exact HP|].
  intros tok (Hl & Hn & Hi). unfold lexed in Hl.
  split; [|split; [|split; assumption]].
  - intros Hin. simpl in Hin.
    destruct Hin as [H|[H|[H|[H|[]]]]]; rewrite <- H in Hl; discriminate.
  - intros text Hsp.
    destruct (type tok); try discriminate Hsp;
      apply bool_decide_eq_true in Hl; congruence.
Qed.


(** X1.  Every text is tokenized, and of the tokens it yields none is of
    a kind the lexer has no rule for (F_STRING, WITH, AS, COMMENT), and a
    token of a kind with a fixed spelling (an operator, a delimiter, a
    keyword, the line break, the end of the text) carries that spelling as
    its text. *)
Theorem tokenize_yields_known_kinds_with_their_spelling (sourceCode : string) :
  exists tokens,
    tokenize sourceCode = Some tokens
    /\ Forall (fun tok =>
                 ~ In (type tok) [F_STRING; WITH; AS; COMMENT]
                 /\ (forall text, spelling (type tok) = Some text -> value tok = text))
         tokens.
Proof.
  destruct (tokenize_tokens sourceCode) as (tokens & Ht & HP).
  exists tokens. split; [exact Ht|].
  eapply Forall_impl; [exact HP|].
  intros tok (H1 & H2 & _). split; assumption.
Qed.

(** X2.  Of the tokens a text yields, the text of a NUMBER token begins
    with a digit and is one [Utils::isNumber] accepts (digits with at most
    one point), and the text of an IDENTIFIER token is a name (letters,
    digits and underscores, the first no digit) that is no keyword. *)
Theorem number_and_identifier_tokens_are_well_formed (sourceCode : string) :
  exists tokens,
    tokenize sourceCode = Some tokens
    /\ Forall (fun tok =>
                 (type tok = NUMBER ->
                  Utils.isNumber (value tok) = true
                  /\ isdigit (char_at (value tok) 0) = true)
                 /\ (type tok = IDENTIFIER ->
                     isName (value tok) = true
                     /\ getKeywordType (value tok) = IDENTIFIER))
         tokens.
Proof.
  destruct (tokenize_tokens sourceCode) as (tokens & Ht & HP).
  exists tokens. split; [exact Ht|].
  eapply Forall_impl; [exact HP|].
  intros tok (_ & _ & H3 & H4). split; assumption.
Qed.

(** Fuel beyond what is left of the source changes nothing. *)
Lemma tokenizeLoop_fuel :
  forall fuel fuel' lx tokens,
    pos lx <= String.length (source lx) ->
    remaining lx < fuel -> remaining lx < fuel' ->
    tokenizeLoop fuel lx tokens = tokenizeLoop fuel' lx tokens.
Proof.
  induction fuel as [|fuel IH]; intros fuel' lx tokens Hpos Hf Hf'; [lia|].
  destruct fuel' as [|fuel']; [lia|].
  cbn [tokenizeLoop]. destruct (pos lx <? _) eqn:Hlt; [|reflexivity].
  apply Nat.ltb_lt in Hlt.
  destruct (scan_terminates
    (fun lx => isspace (currentChar lx) && negb (currentChar lx =? LF)%char) lx)
    as (lx1 & -> & Hr1 & _); [|assumption|].
  { intros l Hl. apply andb_true_iff in Hl as [Hl _]. apply isspace_not_NUL, Hl. }
  cbn [mbind option_bind].
  assert (Hnext : forall lx2 toks, reaches lx1 lx2 -> pos lx1 < pos lx2 ->
            tokenizeLoop fuel lx2 toks = tokenizeLoop fuel' lx2 toks).
  { intros lx2 toks (Hs2 & Hp2 & Hq2) Hlt2. destruct Hr1 as (Hs1 & Hp1 & Hq1).
    apply IH.
    - rewrite Hs2, Hs1. rewrite Hs1 in Hq2. assumption.
    - unfold remaining in *. rewrite Hs2, Hs1. lia.
    - unfold remaining in *. rewrite Hs2, Hs1. lia. }
  destruct (currentChar lx1 =? NUL)%char eqn:ENUL; [reflexivity|].
  assert (HnotNUL : currentChar lx1 <> NUL).
  { intros E. rewrite E in ENUL. discriminate. }
  destruct (currentChar lx1 =? "#")%char eqn:EHASH.
  { destruct (scan_progress
      (fun lx => negb (currentChar lx =? LF)%char && negb (currentChar lx =? NUL)%char)
      lx1) as (lx2 & -> & Hr2 & Hlt2 & _).
    - intros l Hl. apply andb_true_iff in Hl as [_ Hl]. apply negb_eqb_NUL, Hl.
    - apply Ascii.eqb_eq in EHASH. rewrite EHASH. reflexivity.
    - cbn [mbind option_bind]. apply Hnext; assumption. }
  destruct (isdigit (currentChar lx1)) eqn:EDIG.
  { destruct (readNumber_progress lx1 EDIG) as (tok & lx2 & -> & Hr2 & Hlt2).
    cbn [mbind option_bind]. apply Hnext; assumption. }
  destruct ((currentChar lx1 =? DQUOTE)%char || (currentChar lx1 =? SQUOTE)%char) eqn:EQUOTE.
  { destruct (readString_progress lx1 HnotNUL) as (tok & lx2 & -> & Hr2 & Hlt2).
    cbn [mbind option_bind]. apply Hnext; assumption. }
  destruct (isalpha (currentChar lx1) || (currentChar lx1 =? "_")%char) eqn:EALPHA.
  { destruct (readIdentifier_progress lx1 EALPHA) as (tok & lx2 & -> & Hr2 & Hlt2).
    cbn [mbind option_bind]. apply Hnext; assumption. }
  destruct (operatorToken_progress lx1 HnotNUL) as [Hr2 Hlt2].
  destruct (operatorToken lx1) as [tok lx2]. cbn [fst snd] in *.
  apply Hnext; assumption.
Qed.

(** X3.  From a ['#'] the lexer goes on to the next line break, or to
    the end of the text, without a token: what is tokenized from the ['#']
    is what is tokenized from there, and no line break lies in between. *)
Theorem comment_runs_to_the_end_of_the_line (lx : t) :
  currentChar lx = "#"%char ->
  exists lx',
    tokenizeFrom lx = tokenizeFrom lx'
    /\ source lx' = source lx
    /\ pos lx < pos lx' <= String.length (source lx)
    /\ (currentChar lx' = LF \/ currentChar lx' = NUL)
    /\ (forall i, pos lx <= i < pos lx' -> char_at (source lx) i <> LF).
Proof.
  intros Hc.
  assert (HNUL : currentChar lx <> NUL) by (rewrite Hc; discriminate).
  pose proof (currentChar_in_range _ HNUL) as Hlt.
  set (cond := fun lx => negb (currentChar lx =? LF)%char
                         && negb (currentChar lx =? NUL)%char).
  set (Inv := fun l : t =>
         reaches lx l
         /\ forall i, pos lx <= i < pos l -> char_at (source lx) i <> LF).
  destruct (while_terminates cond advance Inv remaining)
    with (fuel := loop_fuel lx) (s := lx) as (lx' & Hw & [Hr Hno] & Hstop).
  { intros l [Hr Hno] Hcond.
    assert (HN : currentChar l <> NUL).
    { unfold cond in Hcond. apply andb_true_iff in Hcond as [_ H].
      apply negb_eqb_NUL, H. }
    destruct (advance_step lx l Hr HN) as [Hr' Hm].
    split; [split|]; [exact Hr'| |exact Hm].
    pose proof (currentChar_in_range _ HN) as Hl. destruct Hr as (Hs & Hp1 & Hp2).
    intros i Hi. rewrite advance_pos in Hi by exact Hl.
    destruct (Nat.eq_dec i (pos l)) as [->|]; [|apply Hno; lia].
    unfold cond, currentChar in Hcond. rewrite Hs in Hcond.
    apply andb_true_iff in Hcond as [H _]. apply negb_true_iff in H.
    intros E. rewrite E in H. discriminate. }
  { split; [apply reaches_refl; lia | intros i Hi; lia]. }
  { unfold remaining, loop_fuel. lia. }
  assert (Hmoved : pos lx < pos lx').
  { destruct Hr as (Hs & Hp1 & Hp2).
    destruct (Nat.eq_dec (pos lx') (pos lx)) as [E|]; [|lia].
    exfalso. unfold cond, currentChar in Hstop. rewrite Hs, E in Hstop.
    unfold currentChar in Hc. rewrite Hc in Hstop. discriminate. }
  exists lx'. destruct Hr as (Hs & Hp1 & Hp2).
  split; [|split; [exact Hs|split; [lia|split; [|exact Hno]]]].
  - unfold tokenizeFrom.
    replace (S (String.length (source lx) - pos lx))
      with (S (remaining lx)) by reflexivity.
    cbn [tokenizeLoop].
    replace (pos lx <? String.length (source lx)) with true
      by (symmetry; apply Nat.ltb_lt; exact Hlt).
    rewrite while_false by (rewrite Hc; reflexivity).
    cbn [mbind option_bind]. rewrite Hc.
    change ("#" =? NUL)%char with false. change ("#" =? "#")%char with true.
    cbv iota. fold cond. rewrite Hw. cbn [mbind option_bind].
    rewrite (tokenizeLoop_fuel (remaining lx) (S (String.length (source lx') - pos lx')));
      [reflexivity| | |]; unfold remaining; rewrite ?Hs; lia.
  - unfold cond in Hstop. apply andb_false_iff in Hstop as [H|H];
      apply negb_false_iff, Ascii.eqb_eq in H; [left|right]; exact H.
Qed.


(** The theorem at work on the ['#'] of [x # y]. *)
Lemma comment_witness :
  exists lx',
    tokenizeFrom at_the_hash = tokenizeFrom lx'
    /\ source lx' = source at_the_hash
    /\ pos at_the_hash < pos lx' <= String.length (source at_the_hash)
    /\ (currentChar lx' = LF \/ currentChar lx' = NUL)
    /\ (forall i, pos at_the_hash <= i < pos lx' ->
                  char_at (source at_the_hash) i <> LF).
Proof. apply (comment_runs_to_the_end_of_the_line at_the_hash). reflexivity. Defined.

End LexerExtras.

(** ** The parser *)

Section ParserExtras.

Import Parser.

Lemma match_other (tokens : list Token) (c : nat) (ty : TokenType) :
  type (token_at tokens c) <> ty -> match_ tokens ty c = (Ok false, c).
Proof.
  intros H. rewrite match_eq. rewrite bool_decide_eq_false_2 by exact H. reflexivity.
Qed.

Lemma parsePrimary_no_branch (tokens : list Token) (fuel c : nat) :
  startsExpression (type (token_at tokens c)) = false ->
  parsePrimary tokens (S fuel) c
  = (Throw ("Expected expression at line " +:+ to_string (line (token_at tokens c))), c).
Proof.
  intros H. cbn [parsePrimary]. unfold bind.
  rewrite !match_other; [reflexivity|..];
    intros E; rewrite E in H; discriminate H.
Qed.

Lemma parseExpression_no_branch (tokens : list Token) (fuel c : nat) :
  startsExpression (type (token_at tokens c)) = false ->
  parseExpression tokens (6 + fuel) c
  = (Throw ("Expected expression at line " +:+ to_string (line (token_at tokens c))), c).
Proof.
  intros H.
  change (6 + fuel) with (S (S (S (S (S (S fuel)))))).
  cbn [parseExpression parseComparison parseTerm parseFactor parseUnary].
  unfold bind. rewrite (parsePrimary_no_branch tokens fuel c H). reflexivity.
Qed.

(** X4.  An expression begins with a number, a string, a template, [True],
    [False], an opening bracket, an identifier or an opening parenthesis:
    on any other token (a sign, so [-5]; [None]; [input]; [print]; ...)
    [parseExpression] throws [Expected expression at line n], with [n] the
    line of that token, and leaves the cursor on it. *)
Theorem expression_cannot_start_with_other_tokens (tokens : list Token)
    (fuel c : nat) :
  c < length tokens ->
  startsExpression (type (token_at tokens c)) = false ->
  parseExpression tokens (6 + fuel) c
  = (Throw ("Expected expression at line " +:+ to_string (line (token_at tokens c))), c).
Proof. intros _ H. apply parseExpression_no_branch, H. Qed.


(** The theorem at work on the tokens of [-5]. *)
Lemma expression_start_witness :
  parseExpression minus_five (6 + 0) 0
  = (Throw ("Expected expression at line "
            +:+ to_string (line (token_at minus_five 0))), 0).
Proof.
  apply (expression_cannot_start_with_other_tokens minus_five 0 0);
    [simpl; lia | reflexivity].
Defined.

(** An assignment whose right-hand side begins with such a token fails in
    the same way, two tokens on. *)
Lemma assignment_without_expression (tokens : list Token) (fuel c : nat) :
  c + 2 < length tokens ->
  type (token_at tokens c) = IDENTIFIER ->
  type (token_at tokens (c + 1)) = ASSIGN ->
  startsExpression (type (token_at tokens (c + 2))) = false ->
  parseStatement tokens (7 + fuel) c
  = (Throw ("Expected expression at line "
            +:+ to_string (line (token_at tokens (c + 2)))), c + 2).
Proof.
  intros Hlen Hid Has Hno.
  change (7 + fuel) with (S (6 + fuel)). cbn [parseStatement].
  rewrite Hid, Has.
  rewrite bool_decide_eq_false_2 by discriminate.
  rewrite bool_decide_eq_false_2 by discriminate.
  rewrite !bool_decide_eq_true_2 by reflexivity.
  replace (c + 1 <? length tokens) with true by (symmetry; apply Nat.ltb_lt; lia).
  cbn [andb]. unfold parseAssignmentStatement, bind.
  rewrite consume_eq, Hid. rewrite bool_decide_eq_true_2 by reflexivity.
  rewrite bool_decide_eq_false_2 by discriminate.
  rewrite consume_eq, Has. rewrite bool_decide_eq_true_2 by reflexivity.
  rewrite bool_decide_eq_false_2 by discriminate.
  replace (c + 1 + 1) with (c + 2) by lia.
  rewrite parseExpression_no_branch by exact Hno.
  reflexivity.
Qed.

(** The line [x = -5] gives no statement. *)
Example negative_literal_is_dropped :
  option_map (map (fun tok => (type tok, value tok))) (Lexer.tokenize "x = -5")
  = Some (map (fun tok => (type tok, value tok)) x_is_minus_five)
  /\ parseStatement x_is_minus_five (7 + 0) 0
     = (Throw ("Expected expression at line "
               +:+ to_string (line (token_at x_is_minus_five (0 + 2)))), 0 + 2)
  /\ parse x_is_minus_five = Ok [].
Proof.
  split; [vm_compute; reflexivity|]. split; [|vm_compute; reflexivity].
  apply assignment_without_expression; try reflexivity. simpl. lia.
Qed.

(** X5.  Lines that hold nothing give no statement: on a token vector made
    of line breaks and the end of the text [parse] returns the empty
    vector. *)
Theorem blank_lines_give_no_statement (blanks : list Token) (eof : Token) :
  Forall (fun tok => type tok = NEWLINE) blanks ->
  type eof = EOF_TOKEN ->
  parse (blanks ++ [eof]) = Ok [].
Proof.
  intros Hb He. unfold parse.
  assert (Hgen : forall n fuel c statements,
            c + n = length blanks -> n < fuel ->
            fst (parseLoop (blanks ++ [eof]) fuel statements c) = Ok statements).
  { induction n as [|n IH]; intros fuel c statements Hc Hfuel;
      (destruct fuel as [|fuel]; [lia|]); cbn [parseLoop].
    - assert (Hat : token_at (blanks ++ [eof]) c = eof).
      { unfold token_at. rewrite app_nth2 by lia.
        replace (c - length blanks) with 0 by lia. reflexivity. }
      rewrite Hat, bool_decide_eq_true_2 by exact He. reflexivity.
    - assert (Hat : type (token_at (blanks ++ [eof]) c) = NEWLINE).
      { unfold token_at. rewrite app_nth1 by lia.
        rewrite List.Forall_forall in Hb. apply Hb, nth_In. lia. }
      rewrite Hat. rewrite bool_decide_eq_false_2 by discriminate.
      rewrite bool_decide_eq_true_2 by reflexivity.
      unfold bind, advance. rewrite Hat.
      rewrite bool_decide_eq_false_2 by discriminate.
      apply IH; lia. }
  apply (Hgen (length blanks)); [reflexivity|].
  rewrite length_app. simpl. lia.
Qed.

(** The theorem at work on two line breaks. *)
Lemma blank_lines_witness :
  parse (two_line_breaks ++ [mkToken EOF_TOKEN "" 3 0]) = Ok [].
Proof.
  apply (blank_lines_give_no_statement two_line_breaks (mkToken EOF_TOKEN "" 3 0));
    [repeat constructor | reflexivity].
Defined.

End ParserExtras.

(** ** The lexer and the parser together *)

Section FrontEnd.

(** Every source text goes through the lexer and the parser. *)
Lemma tokenize_then_parse (sourceCode : string) :
  exists tokens statements,
    Lexer.tokenize sourceCode = Some tokens
    /\ Parser.parse tokens = Ok statements
    /\ Recovers tokens 0 statements.
Proof.
  unfold Lexer.tokenize, Lexer.tokenizeFrom.
  destruct (tokenizeLoop_terminates
              (S (String.length (Lexer.source (Lexer.init sourceCode))
                  - Lexer.pos (Lexer.init sourceCode)))
              (Lexer.init sourceCode) []) as (toks & lx & ->).
  { simpl. lia. }
  { unfold remaining. lia. }
  cbn [mbind option_bind].
  set (tokens := toks ++ [mkToken EOF_TOKEN "" (Lexer.line lx) (Lexer.col lx)]).
  assert (HEOF : type (Parser.token_at tokens (length toks)) = EOF_TOKEN).
  { unfold tokens, Parser.token_at. rewrite app_nth2 by lia.
    rewrite Nat.sub_diag. reflexivity. }
  assert (Hlen : length toks <= length tokens).
  { unfold tokens. rewrite length_app. lia. }
  destruct (parseLoop_recovers tokens (length toks) HEOF Hlen
              (S (length tokens)) 0 []) as (found & c' & Hloop & Hrec); try lia.
  exists tokens, found. unfold Parser.parse. rewrite Hloop.
  split; [reflexivity | split; [reflexivity | exact Hrec]].
Qed.

(** X6.  No text is a syntax error: every source text is tokenized, and
    the parser returns a statement vector for its tokens (what does not
    parse is left out of it). *)
Theorem no_text_is_a_syntax_error (sourceCode : string) :
  exists tokens statements,
    Lexer.tokenize sourceCode = Some tokens
    /\ Parser.parse tokens = Ok statements.
Proof.
  destruct (tokenize_then_parse sourceCode) as (tokens & statements & Ht & Hp & _).
  eauto.
Qed.

End FrontEnd.

(** ** Utils *)

Section UtilsExtras.

Import Utils.

(** What [find_first_not_of] finds. *)
Lemma find_first_not_of_Some (s : string) :
  forall i k,
    find_first_not_of s i = Some k ->
    i <= k < i + String.length s
    /\ blank (char_at s (k - i)) = false
    /\ forall j, j < k - i -> blank (char_at s j) = true.
Proof.
  induction s as [|c s IH]; intros i k H; [discriminate|].
  cbn [find_first_not_of] in H. destruct (blank c) eqn:E.
  - destruct (IH _ _ H) as (Hk & Hb & Hall). simpl.
    replace (k - i) with (S (k - S i)) by lia.
    split; [lia|]. split; [exact Hb|].
    intros [|j] Hj; [exact E | apply Hall; lia].
  - injection H as <-. simpl. rewrite Nat.sub_diag.
    split; [lia|]. split; [exact E|]. intros j Hj. lia.
Qed.

Lemma find_first_not_of_None (s : string) :
  forall i, find_first_not_of s i = None ->
            forall j, j < String.length s -> blank (char_at s j) = true.
Proof.
  induction s as [|c s IH]; intros i H j Hj; [simpl in Hj; lia|].
  cbn [find_first_not_of] in H. destruct (blank c) eqn:E; [|discriminate].
  destruct j as [|j]; [exact E|]. apply (IH _ H). simpl in Hj. lia.
Qed.

(** What [find_last_not_of] finds: the last position that holds no blank,
    when there is one. *)
Lemma find_last_not_of_spec (s : string) :
  forall i last,
    (forall j, j < String.length s -> blank (char_at s j) = true)
    /\ find_last_not_of s i last = last
    \/ exists k,
         find_last_not_of s i last = Some (i + k)
         /\ k < String.length s
         /\ blank (char_at s k) = false
         /\ forall j, k < j < String.length s -> blank (char_at s j) = true.
Proof.
  induction s as [|c s IH]; intros i last.
  - left. split; [intros j Hj; simpl in Hj; lia | reflexivity].
  - cbn [find_last_not_of].
    destruct (IH (S i) (if blank c then last else Some i))
      as [[Hall Hl]|(k & Hk & Hlt & Hb & Hafter)].
    + destruct (blank c) eqn:E.
      * left. split; [|exact Hl].
        intros [|j] Hj; [exact E | apply Hall; simpl in Hj; lia].
      * right. exists 0. rewrite Hl, Nat.add_0_r.
        split; [reflexivity|]. split; [simpl; lia|]. split; [exact E|].
        intros [|j] Hj; [lia|]. apply Hall. simpl in Hj. lia.
    + right. exists (S k). rewrite Hk.
      split; [f_equal; lia|]. split; [simpl; lia|]. split; [exact Hb|].
      intros [|j] Hj; [lia|]. apply Hafter. simpl in Hj. lia.
Qed.

(** [trim] is the part of the text from its first to its last character
    that is no blank. *)
Lemma trim_spec (str : string) :
  (forall j, j < String.length str -> blank (char_at str j) = true) /\ trim str = ""
  \/ exists first last,
       first <= last < String.length str
       /\ trim str = substr str first (last - first + 1)
       /\ blank (char_at str first) = false
       /\ blank (char_at str last) = false
       /\ (forall j, j < first -> blank (char_at str j) = true)
       /\ (forall j, last < j < String.length str -> blank (char_at str j) = true).
Proof.
  unfold trim. destruct (find_first_not_of str 0) as [first|] eqn:Ef.
  - right. apply find_first_not_of_Some in Ef as (Hf & Hfb & Hbefore).
    rewrite Nat.sub_0_r in Hfb, Hbefore.
    destruct (find_last_not_of_spec str 0 None)
      as [[Hall _]|(last & -> & Hlt & Hb & Hafter)].
    + rewrite Hall in Hfb by lia. discriminate.
    + exists first, last. cbn [Nat.add].
      assert (first <= last).
      { destruct (Nat.le_gt_cases first last) as [|Hgt]; [assumption|].
        rewrite Hbefore in Hb by exact Hgt. discriminate. }
      repeat split; try assumption; lia.
  - left. split; [|reflexivity]. eapply find_first_not_of_None, Ef.
Qed.

Lemma trim_fixed (s : string) :
  s <> "" ->
  blank (char_at s 0) = false ->
  blank (char_at s (String.length s - 1)) = false ->
  trim s = s.
Proof.
  intros Hne H0 Hl.
  destruct (trim_spec s) as [[Hall _]|(first & last & Hr & -> & _ & _ & Hbefore & Hafter)].
  - rewrite Hall in H0; [discriminate|]. destruct s; [contradiction | simpl; lia].
  - assert (first = 0).
    { destruct first; [reflexivity|]. rewrite Hbefore in H0 by lia. discriminate. }
    assert (last = String.length s - 1).
    { destruct (Nat.eq_dec last (String.length s - 1)); [assumption|].
      rewrite Hafter in Hl by lia. discriminate. }
    subst. replace (String.length s - 1 - 0 + 1) with (String.length s) by lia.
    apply substr_whole.
Qed.

Lemma trim_ends (str : string) :
  trim str <> "" ->
  blank (char_at (trim str) 0) = false
  /\ blank (char_at (trim str) (String.length (trim str) - 1)) = false.
Proof.
  intros Hne.
  destruct (trim_spec str) as [[_ E]|(first & last & Hr & E & Hf & Hl & _)];
    [contradiction|].
  rewrite E, length_substr_exact by lia.
  rewrite !char_at_substr by lia.
  rewrite Nat.add_0_r. replace (first + (last - first + 1 - 1)) with last by lia.
  split; assumption.
Qed.

Lemma trim_idempotent (str : string) : trim (trim str) = trim str.
Proof.
  destruct (String.eqb_spec (trim str) "") as [E|Hne].
  - rewrite E. reflexivity.
  - destruct (trim_ends str Hne). apply trim_fixed; assumption.
Qed.

(** X7.  [trim] takes the blanks (space, tab, carriage return, line break)
    off both ends: trimming twice is trimming once; a result that is not
    empty begins and ends with a character that is no blank; the result is
    empty exactly when the text holds blanks only; the result is never
    longer than the text. *)
Theorem trim_strips_both_ends :
  (forall str, trim (trim str) = trim str)
  /\ (forall str, trim str <> "" ->
        blank (char_at (trim str) 0) = false
        /\ blank (char_at (trim str) (String.length (trim str) - 1)) = false)
  /\ (forall str, trim str = "" <-> all_of blank str = true)
  /\ (forall str, String.length (trim str) <= String.length str).
Proof.
  split; [exact trim_idempotent|split; [exact trim_ends|split]].
  - intros str. split.
    + intros E. unfold all_of. apply forallb_forall. intros c Hin.
      destruct (trim_spec str) as [[Hall _]|(first & last & Hr & E' & _)].
      * apply In_nth with (d := NUL) in Hin as (j & Hj & <-).
        rewrite length_list_ascii_of_string in Hj.
        specialize (Hall j Hj). revert Hall. unfold char_at.
        clear. revert j. induction str as [|c s IH]; intros [|j]; simpl; auto.
      * exfalso. rewrite E' in E.
        pose proof (length_substr_exact str first (last - first + 1)) as Hlen.
        rewrite E in Hlen. simpl in Hlen. lia.
    + intros Hall. destruct (trim_spec str) as [[_ E]|(first & last & Hr & _ & Hf & _)];
        [exact E|].
      exfalso. unfold all_of in Hall. rewrite forallb_forall in Hall.
      rewrite (Hall (char_at str first)) in Hf; [discriminate|].
      apply char_at_In. lia.
  - intros str. destruct (trim_spec str) as [[_ ->]|(first & last & Hr & -> & _)].
    + simpl. lia.
    + rewrite length_substr_exact; lia.
Qed.

(** The theorem at work on a text with blanks at both ends. *)
Lemma trim_witness :
  blank (char_at (trim "  a b  ") 0) = false
  /\ blank (char_at (trim "  a b  ") (String.length (trim "  a b  ") - 1)) = false.
Proof.
  apply (proj1 (proj2 trim_strips_both_ends) "  a b  "). vm_compute. discriminate.
Defined.

(** [split] *)

Lemma In_trim (s : string) (c : ascii) :
  In c (list_ascii_of_string (trim s)) -> In c (list_ascii_of_string s).
Proof.
  unfold trim. destruct (find_first_not_of s 0) as [first|]; [|contradiction].
  destruct (find_last_not_of s 0 None) as [last|].
  - apply In_substr.
  - destruct (first =? 0); [contradiction | apply In_substr].
Qed.

Lemma splitLoop_pieces (delimiter : ascii) (ss : list ascii) :
  forall token,
    ~ In delimiter token ->
    Forall (fun piece => trim piece = piece
                         /\ ~ In delimiter (list_ascii_of_string piece))
           (splitLoop delimiter ss token).
Proof.
  assert (Hpiece : forall token, ~ In delimiter token ->
            let piece := trim (string_of_list_ascii (rev token)) in
            trim piece = piece /\ ~ In delimiter (list_ascii_of_string piece)).
  { intros token Hno piece. split.
    - apply trim_idempotent.
    - intros Hin. apply In_trim in Hin.
      rewrite list_ascii_of_string_of_list_ascii in Hin.
      apply Hno. apply in_rev. exact Hin. }
  induction ss as [|c ss IH]; intros token Hno; cbn [splitLoop].
  - destruct token as [|x token]; constructor; [apply Hpiece; exact Hno | constructor].
  - destruct (Ascii.eqb_spec c delimiter) as [->|Hne].
    + constructor; [apply Hpiece; exact Hno | apply IH; intros []].
    + apply IH. intros [H|H]; [congruence | contradiction].
Qed.

Lemma splitLoop_length (delimiter : ascii) (ss : list ascii) :
  forall token,
    length (splitLoop delimiter ss token)
    = count_occ ascii_dec ss delimiter
      + (if match rev ss with
            | [] => match token with [] => false | _ => true end
            | c :: _ => negb (c =? delimiter)%char
            end
         then 1 else 0).
Proof.
  induction ss as [|c ss IH]; intros token; cbn [splitLoop].
  - destruct token; reflexivity.
  - assert (Hlast : forall tok : list ascii,
              match rev (c :: ss) with
              | [] => match tok with [] => false | _ => true end
              | x :: _ => negb (x =? delimiter)%char
              end
              = match rev ss with
                | [] => negb (c =? delimiter)%char
                | x :: _ => negb (x =? delimiter)%char
                end).
    { intros tok. simpl. destruct (rev ss); reflexivity. }
    rewrite Hlast. destruct (Ascii.eqb_spec c delimiter) as [->|Hne].
    + cbn [length]. rewrite IH. rewrite count_occ_cons_eq by reflexivity.
      destruct (rev ss); simpl; lia.
    + rewrite IH. rewrite count_occ_cons_neq by exact Hne.
      destruct (rev ss); reflexivity.
Qed.

(** X8.  The pieces [split] returns are trimmed and hold no delimiter,
    and there are as many of them as the text holds delimiters, and one
    more when the text ends in a character that is not the delimiter: an
    empty last piece is dropped, so the empty text gives no piece. *)
Theorem split_pieces (str : string) (delimiter : ascii) :
  Forall (fun piece => trim piece = piece
                       /\ ~ In delimiter (list_ascii_of_string piece))
         (split str delimiter)
  /\ length (split str delimiter)
     = count_occ ascii_dec (list_ascii_of_string str) delimiter
       + (if endsOpen str delimiter then 1 else 0).
Proof.
  unfold split. split.
  - apply splitLoop_pieces. intros [].
  - rewrite splitLoop_length. unfold endsOpen.
    destruct (rev (list_ascii_of_string str)); reflexivity.
Qed.

(** [isNumber] *)

Lemma isNumberLoop_spec (s : list ascii) :
  forall hasDot,
    Utils.isNumberLoop hasDot s = true <->
    forallb Executor.isDigitOrDot s = true
    /\ count_occ ascii_dec s "."%char + (if hasDot then 1 else 0) <= 1.
Proof.
  induction s as [|c r IH]; intros hasDot; cbn [Utils.isNumberLoop forallb].
  - split; [intros _; split; [reflexivity | destruct hasDot; simpl; lia] | reflexivity].
  - unfold Executor.isDigitOrDot at 1.
    destruct (Ascii.eqb_spec c ".") as [->|Hne].
    + rewrite orb_true_r, count_occ_cons_eq by reflexivity. cbn [andb].
      destruct hasDot.
      * split; [discriminate | intros [_ H]; lia].
      * rewrite IH. split; intros [H1 H2]; (split; [exact H1 | lia]).
    + rewrite orb_false_r, count_occ_cons_neq by congruence.
      destruct (isdigit c); cbn [negb andb].
      * apply IH.
      * split; [discriminate | intros [H _]; discriminate].
Qed.

(** X9.  [isNumber] accepts exactly the texts that are not empty and,
    behind an optional sign, hold digits and points only with at most one
    point: a sign alone, a point alone and a sign with a point are
    accepted. *)
Theorem isNumber_accepts (str : string) :
  Utils.isNumber str = true <->
  str <> ""
  /\ forallb Executor.isDigitOrDot (unsigned str) = true
  /\ count_occ ascii_dec (unsigned str) "."%char <= 1.
Proof.
  unfold Utils.isNumber, unsigned.
  destruct str as [|c r]; cbn [list_ascii_of_string].
  - split; [discriminate | intros [H _]; contradiction].
  - destruct ((c =? "-")%char || (c =? "+")%char);
      rewrite isNumberLoop_spec, Nat.add_0_r;
      (split; intros H; [split; [discriminate | exact H] | apply H]).
Qed.

Example isNumber_accepts_a_lone_sign :
  Utils.isNumber "-" = true /\ Utils.isNumber "." = true /\ Utils.isNumber "" = false
  /\ Value.toNumber (VString "-") = Double.zero.
Proof. repeat split; reflexivity. Qed.

(** [toLower] *)

Lemma tolower_tolower (c : ascii) : Double.tolower (Double.tolower c) = Double.tolower c.
Proof. destruct c as [[] [] [] [] [] [] [] []]; reflexivity. Qed.

Lemma tolower_not_upper (c : ascii) : isupper (Double.tolower c) = false.
Proof. destruct c as [[] [] [] [] [] [] [] []]; reflexivity. Qed.

Lemma tolower_lower (c : ascii) : isupper c = false -> Double.tolower c = c.
Proof.
  destruct c as [[] [] [] [] [] [] [] []]; intros H; try reflexivity; discriminate H.
Qed.

(** X10.  [toLower] keeps the length of the text, leaves no upper-case
    letter in it, changes nothing in a text that holds none, and so gives
    the same text when applied twice as when applied once. *)
Theorem toLower_is_a_projection :
  (forall str, toLower (toLower str) = toLower str)
  /\ (forall str, String.length (toLower str) = String.length str)
  /\ (forall str, all_of (fun c => negb (isupper c)) (toLower str) = true)
  /\ (forall str, all_of (fun c => negb (isupper c)) str = true -> toLower str = str).
Proof.
  unfold toLower, all_of. repeat split; intros str.
  - rewrite list_ascii_of_string_of_list_ascii, map_map. f_equal.
    apply map_ext. intros c. apply tolower_tolower.
  - rewrite length_string_of_list_ascii, length_map. apply length_list_ascii_of_string.
  - rewrite list_ascii_of_string_of_list_ascii. apply forallb_forall.
    intros c Hin. apply in_map_iff in Hin as (x & <- & _).
    rewrite tolower_not_upper. reflexivity.
  - intros H. rewrite <- (string_of_list_ascii_of_string str) at 2. f_equal.
    rewrite <- (map_id (list_ascii_of_string str)) at 2.
    apply map_ext_in. intros c Hin. rewrite forallb_forall in H.
    apply tolower_lower. apply negb_true_iff. apply H, Hin.
Qed.

(** The theorem at work on a text without an upper-case letter. *)
Lemma toLower_witness : toLower "a-b_9" = "a-b_9".
Proof. apply (proj2 (proj2 (proj2 toLower_is_a_projection)) "a-b_9"). reflexivity. Defined.

End UtilsExtras.

(** ** The executor *)

Section ExecutorExtras.

Import Executor.

(** X20.  Writing through a handle and reading back, where [name] is
    bound to a file handle.  When the path of the handle can be opened for
    writing, [name("write", d)] returns the length of the text written and
    leaves in the file that text, behind the old content when the mode of
    the handle holds an [a] and alone otherwise (whatever the mode: a
    handle opened for reading writes as well); [name("read")] then returns
    the content of the file; variables, output, other files and what can
    be written are untouched.  When the path cannot be opened for writing
    (the empty path, a directory that is missing, a protected file), the
    call raises [File write error: Could not open file for writing: ] with
    the path, and nothing changes. *)
Theorem handle_write_then_read (fuel : nat) (name : string) (d : ExprNode)
    (v : Value) (fo : FileObject) (ex : t) :
  isBuiltin name = false ->
  variables ex !! name = Some (VFileObject (Some fo)) ->
  evaluateExpression (S fuel) d ex = (Ok v, ex) ->
  (writable ex (filename fo) = true ->
   exists ex',
     evaluateExpression (2 + fuel)
       (CallExpr (IdentifierExpr name) [LiteralExpr "write" STRING; d]) ex
     = (Ok (VNumber (Double.of_nat (String.length (Value.toString v)))), ex')
     /\ variables ex' = variables ex
     /\ cout ex' = cout ex
     /\ writable ex' = writable ex
     /\ (forall other, other <> filename fo -> files ex' !! other = files ex !! other)
     /\ evaluateExpression (2 + fuel)
          (CallExpr (IdentifierExpr name) [LiteralExpr "read" STRING]) ex'
        = (Ok (VString (written fo (files ex !! filename fo) (Value.toString v))), ex'))
  /\ (writable ex (filename fo) = false ->
      evaluateExpression (2 + fuel)
        (CallExpr (IdentifierExpr name) [LiteralExpr "write" STRING; d]) ex
      = (Throw ("File write error: Could not open file for writing: " +:+ filename fo),
         ex)).
Proof.
  intros Hb Hf Hd.
  assert (Hwrite :
    evaluateExpression (2 + fuel)
      (CallExpr (IdentifierExpr name) [LiteralExpr "write" STRING; d]) ex
    = evaluateFileWrite (filename fo) (Value.toString v) (is_binary fo) (mode fo) ex).
  { change (2 + fuel) with (S (S fuel)).
    rewrite (evaluateCall_file_branch _ _ _ _ _ Hb Hf).
    unfold bind at 1. cbn [evaluateExpression evaluateExpressionBody evaluateLiteral ret].
    cbn [Value.toString]. unfold bind at 1, fileValue at 1, bind at 1, get_variables.
    rewrite Hf. cbn [ret].
    change (String.eqb "write" "read") with false.
    change (String.eqb "write" "write") with true. cbn [andb length Nat.ltb Nat.leb].
    cbv iota. unfold bind at 1.
    change (evaluateExpressionBody (evaluateExpression fuel) (executeStatement fuel) d ex)
      with (evaluateExpression (S fuel) d ex).
    rewrite Hd. unfold bind at 1, fileValue, bind, get_variables. rewrite Hf.
    reflexivity. }
  rewrite Hwrite. unfold evaluateFileWrite. split; intros Hw; rewrite Hw; [|reflexivity].
  eexists. split; [reflexivity|]. repeat split.
  - intros other Hne. cbn [files]. apply lookup_insert_ne. congruence.
  - change (2 + fuel) with (S (S fuel)).
    rewrite (evaluateCall_file_branch _ _ _ _ (Some fo) Hb) by exact Hf.
    unfold bind at 1. cbn [evaluateExpression evaluateExpressionBody evaluateLiteral ret].
    cbn [Value.toString]. unfold bind at 1, fileValue at 1, bind at 1, get_variables.
    cbn [variables]. rewrite Hf. cbn [ret].
    change (String.eqb "read" "read") with true. cbv iota.
    unfold evaluateFileRead. cbn [files]. rewrite lookup_insert_eq. reflexivity.
Qed.

(** The theorem at work on the handle [fh], opened for reading, whose
    path can be written. *)
Lemma handle_write_witness :
  exists ex',
    evaluateExpression (2 + 0)
      (CallExpr (IdentifierExpr "fh")
         [LiteralExpr "write" STRING; LiteralExpr "hi" STRING]) with_fh
    = (Ok (VNumber (Double.of_nat (String.length (Value.toString (VString "hi"))))), ex')
    /\ variables ex' = variables with_fh
    /\ cout ex' = cout with_fh
    /\ writable ex' = writable with_fh
    /\ (forall other, other <> filename (mkFileObject "f.txt" "r" false true) ->
          files ex' !! other = files with_fh !! other)
    /\ evaluateExpression (2 + 0)
         (CallExpr (IdentifierExpr "fh") [LiteralExpr "read" STRING]) ex'
       = (Ok (VString (written (mkFileObject "f.txt" "r" false true)
                         (files with_fh !! filename (mkFileObject "f.txt" "r" false true))
                         (Value.toString (VString "hi")))), ex').
Proof.
  apply (proj1 (handle_write_then_read 0 "fh" (LiteralExpr "hi" STRING) (VString "hi")
                  (mkFileObject "f.txt" "r" false true) with_fh
                  eq_refl eq_refl eq_refl)).
  reflexivity.
Defined.

(** X21.  [close] only clears the flag of the handle: after
    [name("close")] the name is still bound to the handle, [bool(name)] is
    False, and [name("read")] still returns the content of the file. *)
Theorem handle_close_only_clears_the_flag (fuel : nat) (name content : string)
    (fo : FileObject) (ex : t) :
  isBuiltin name = false ->
  variables ex !! name = Some (VFileObject (Some fo)) ->
  files ex !! filename fo = Some content ->
  exists ex',
    evaluateExpression (2 + fuel)
      (CallExpr (IdentifierExpr name) [LiteralExpr "close" STRING]) ex
    = (Ok VNone, ex')
    /\ variables ex' = <[name := VFileObject (Some (closed fo))]> (variables ex)
    /\ files ex' = files ex
    /\ cout ex' = cout ex
    /\ evaluateExpression (2 + fuel)
         (CallExpr (IdentifierExpr "bool") [IdentifierExpr name]) ex'
       = (Ok (VBoolean false), ex')
    /\ evaluateExpression (2 + fuel)
         (CallExpr (IdentifierExpr name) [LiteralExpr "read" STRING]) ex'
       = (Ok (VString content), ex').
Proof.
  intros Hb Hf Hc.
  eexists. split; [|split; [|split; [|split; [|split]]]].
  - change (2 + fuel) with (S (S fuel)).
    rewrite (evaluateCall_file_branch _ _ _ _ _ Hb Hf).
    unfold bind at 1. cbn [evaluateExpression evaluateExpressionBody evaluateLiteral ret].
    cbn [Value.toString]. unfold bind at 1, fileValue at 1, bind at 1, get_variables.
    rewrite Hf. cbn [ret].
    change (String.eqb "close" "read") with false.
    change (String.eqb "close" "write") with false.
    change (String.eqb "close" "close") with true. cbn [andb]. cbv iota.
    unfold bind, closeFile, set_variables. rewrite Hf. reflexivity.
  - reflexivity.
  - reflexivity.
  - reflexivity.
  - change (2 + fuel) with (S (S fuel)).
    cbn [evaluateExpression evaluateExpressionBody]. unfold evaluateCall.
    change (String.eqb "bool" "str") with false.
    change (String.eqb "bool" "repr") with false.
    change (String.eqb "bool" "int") with false.
    change (String.eqb "bool" "float") with false.
    change (String.eqb "bool" "bool") with true. cbv iota.
    unfold evaluateBool, bind. cbn [evaluateExpressionBody].
    unfold evaluateIdentifier, bind, get_variables.
    cbn [variables]. rewrite lookup_insert_eq. reflexivity.
  - change (2 + fuel) with (S (S fuel)).
    rewrite (evaluateCall_file_branch _ _ _ _ (Some (closed fo)) Hb)
      by (cbn [variables]; apply lookup_insert_eq).
    unfold bind at 1. cbn [evaluateExpression evaluateExpressionBody evaluateLiteral ret].
    cbn [Value.toString]. unfold bind at 1, fileValue at 1, bind at 1, get_variables.
    cbn [variables]. rewrite lookup_insert_eq. cbn [ret].
    change (String.eqb "read" "read") with true. cbv iota.
    unfold evaluateFileRead. cbn [files closed filename]. rewrite Hc. reflexivity.
Qed.

(** The theorem at work on the handle [fh] of a file that holds [abc]. *)
Lemma handle_close_witness :
  exists ex',
    evaluateExpression (2 + 0)
      (CallExpr (IdentifierExpr "fh") [LiteralExpr "close" STRING]) with_fh_on_disk
    = (Ok VNone, ex')
    /\ variables ex'
       = <["fh" := VFileObject (Some (closed (mkFileObject "f.txt" "r" false true)))]>
           (variables with_fh_on_disk)
    /\ files ex' = files with_fh_on_disk
    /\ cout ex' = cout with_fh_on_disk
    /\ evaluateExpression (2 + 0)
         (CallExpr (IdentifierExpr "bool") [IdentifierExpr "fh"]) ex'
       = (Ok (VBoolean false), ex')
    /\ evaluateExpression (2 + 0)
         (CallExpr (IdentifierExpr "fh") [LiteralExpr "read" STRING]) ex'
       = (Ok (VString "abc"), ex').
Proof.
  apply (handle_close_only_clears_the_flag 0 "fh" "abc"
           (mkFileObject "f.txt" "r" false true) with_fh_on_disk); reflexivity.
Defined.

(** X11.  Assignment and lookup: once [variable = value] is executed the
    variable evaluates to the value the right-hand side had, other
    variables, the output, the input and the files are as the evaluation
    of the right-hand side left them; a name that is not bound evaluates
    to None, without a fault; and a fault in the right-hand side is the
    outcome of the assignment, which binds nothing. *)
Theorem assignment_then_lookup :
  (forall fuel fuel' variable value ex v ex1,
     evaluateExpression fuel value ex = (Ok v, ex1) ->
     exists ex2,
       executeStatement (S fuel) (AssignStmt variable value) ex = (Ok tt, ex2)
       /\ evaluateExpression (S fuel') (IdentifierExpr variable) ex2 = (Ok v, ex2)
       /\ (forall other, other <> variable ->
             variables ex2 !! other = variables ex1 !! other)
       /\ cout ex2 = cout ex1 /\ cin ex2 = cin ex1 /\ files ex2 = files ex1)
  /\ (forall fuel name ex,
        variables ex !! name = None ->
        evaluateExpression (S fuel) (IdentifierExpr name) ex = (Ok VNone, ex))
  /\ (forall fuel variable value ex what ex1,
        evaluateExpression fuel value ex = (Throw what, ex1) ->
        executeStatement (S fuel) (AssignStmt variable value) ex = (Throw what, ex1)).
Proof.
  split; [|split].
  - intros fuel fuel' variable value ex v ex1 Hv.
    eexists. split; [|split; [|split; [|split; [|split]]]].
    + cbn [executeStatement executeStatementBody]. unfold executeAssignment, bind.
      rewrite Hv. unfold set_variables. reflexivity.
    + apply evaluateIdentifier_bound. cbn [variables]. apply lookup_insert_eq.
    + intros other Hne. cbn [variables]. apply lookup_insert_ne. congruence.
    + reflexivity.
    + reflexivity.
    + reflexivity.
  - intros fuel name ex H. cbn [evaluateExpression evaluateExpressionBody].
    unfold evaluateIdentifier, bind, get_variables. rewrite H. reflexivity.
  - intros fuel variable value ex what ex1 Hv.
    cbn [executeStatement executeStatementBody]. unfold executeAssignment, bind.
    rewrite Hv. reflexivity.
Qed.


(** The theorem at work on [x = 5] in a fresh executor. *)
Lemma assignment_witness :
  exists ex2,
    executeStatement (S 1) (AssignStmt "x" (LiteralExpr "5" STRING)) fresh = (Ok tt, ex2)
    /\ evaluateExpression (S 0) (IdentifierExpr "x") ex2 = (Ok (VString "5"), ex2)
    /\ (forall other, other <> "x" -> variables ex2 !! other = variables fresh !! other)
    /\ cout ex2 = cout fresh /\ cin ex2 = cin fresh /\ files ex2 = files fresh.
Proof.
  apply (proj1 assignment_then_lookup 1 0 "x" (LiteralExpr "5" STRING) fresh
           (VString "5") fresh).
  reflexivity.
Defined.

(** X12.  A comparison evaluates to None: for each of the operators
    [==], [!=], [<] and [>], when both operands evaluate, the value of the
    comparison is None, whatever the operands are. *)
Theorem comparison_evaluates_to_None (fuel : nat) (lhs rhs : ExprNode)
    (op : TokenType) (ex ex1 ex2 : t) (l r : Value) :
  isComparison op = true ->
  evaluateExpression fuel lhs ex = (Ok l, ex1) ->
  evaluateExpression fuel rhs ex1 = (Ok r, ex2) ->
  evaluateExpression (S fuel) (BinaryExpr lhs op rhs) ex = (Ok VNone, ex2).
Proof.
  intros Hop Hl Hr. cbn [evaluateExpression evaluateExpressionBody].
  unfold evaluateBinary, bind. rewrite Hl, Hr.
  destruct op; try discriminate Hop; reflexivity.
Qed.

(** The theorem at work on ["1" < "2"]. *)
Lemma comparison_witness :
  evaluateExpression (S 1)
    (BinaryExpr (LiteralExpr "1" STRING) LESS (LiteralExpr "2" STRING)) fresh
  = (Ok VNone, fresh).
Proof.
  apply (comparison_evaluates_to_None 1 (LiteralExpr "1" STRING) (LiteralExpr "2" STRING)
           LESS fresh fresh fresh (VString "1") (VString "2")); reflexivity.
Defined.

(** X15.  [eval] raises no fault of its own once its argument has a
    value: a fault in the tokenizing, the parsing or the evaluation of the
    text is caught and answered by the evaluator of template regions,
    which always returns; in particular a text that does not parse as an
    expression evaluates to what that evaluator makes of it.  Without an
    argument [eval] throws. *)
Theorem eval_never_raises :
  (forall fuel a rest ex v ex1 what,
     evaluateExpression fuel a ex = (Ok v, ex1) ->
     fst (evaluateExpression (S fuel) (CallExpr (IdentifierExpr "eval") (a :: rest)) ex)
     <> Throw what)
  /\ (forall fuel a rest ex v ex1 tokens what,
        evaluateExpression fuel a ex = (Ok v, ex1) ->
        all_of isDigitOrDot (Value.toString v) = false ->
        Lexer.tokenize (Value.toString v) = Some tokens ->
        Parser.parseExpressionPublic tokens = Throw what ->
        evaluateExpression (S fuel) (CallExpr (IdentifierExpr "eval") (a :: rest)) ex
        = parseAndEvaluateSimpleExpression (Value.toString v) ex1)
  /\ (forall fuel ex,
        evaluateExpression (S fuel) (CallExpr (IdentifierExpr "eval") []) ex
        = (Throw "eval() missing required argument", ex)).
Proof.
  split; [|split].
  - intros fuel a rest ex v ex1 what Ha.
    rewrite evaluateEval_call. unfold evaluateEval, bind. rewrite Ha.
    destruct (if all_of isDigitOrDot (Value.toString v)
              then Double.stod (Value.toString v) else None); [discriminate|].
    unfold try_catch.
    destruct (Lexer.tokenize (Value.toString v)) as [tokens|]; [|discriminate].
    unfold lift.
    destruct (Parser.parseExpressionPublic tokens) as [e|w| |].
    + destruct (evaluateExpression fuel e ex1) as [[x|w| |] ex2]; try discriminate.
      destruct (parseAndEvaluateSimpleExpression_returns (Value.toString v) ex2) as [y ->].
      discriminate.
    + destruct (parseAndEvaluateSimpleExpression_returns (Value.toString v) ex1) as [y ->].
      discriminate.
    + discriminate.
    + discriminate.
  - intros fuel a rest ex v ex1 tokens what Ha Hd Ht Hp.
    rewrite evaluateEval_call. unfold evaluateEval, bind. rewrite Ha, Hd.
    unfold try_catch. rewrite Ht. unfold lift. rewrite Hp. reflexivity.
  - intros fuel ex. reflexivity.
Qed.

(** The theorem at work on [eval(")")], whose text is no expression. *)
Lemma eval_witness_of_a_text_that_does_not_parse :
  evaluateExpression (S 1) (CallExpr (IdentifierExpr "eval") [LiteralExpr ")" STRING]) fresh
  = parseAndEvaluateSimpleExpression (Value.toString (VString ")")) fresh.
Proof.
  apply (proj1 (proj2 eval_never_raises) 1 (LiteralExpr ")" STRING) [] fresh (VString ")")
           fresh [mkToken RPAREN ")" 1 0; mkToken EOF_TOKEN "" 1 1]
           "Expected expression at line 1");
    vm_compute; reflexivity.
Defined.

Lemma execute_cons (fuel : nat) (stmt : StmtNode) (rest : list StmtNode) (ex : t) :
  execute fuel (stmt :: rest) ex =
  match executeStatement fuel stmt ex with
  | (Ok _, ex1) => execute fuel rest ex1
  | (Throw what, ex1) => (Throw what, ex1)
  | (OutOfFuel, ex1) => (OutOfFuel, ex1)
  | (Undefined, ex1) => (Undefined, ex1)
  end.
Proof.
  unfold execute. cbn [forEach]. unfold bind.
  destruct (executeStatement fuel stmt ex) as [[u|w| |] ex1]; try reflexivity.
  destruct (forEach (executeStatement fuel) rest ex1) as [[l|w| |] ex2]; reflexivity.
Qed.

(** X13.  [execute] runs the statements in order and stops at the first
    fault: when the statements of [before] run through, the run of
    [before ++ after] goes on with [after] in the executor they left; when
    one of them faults, the fault is the outcome of the whole run, in the
    executor as it was at the fault, and nothing of [after] is executed. *)
Theorem execute_stops_at_the_first_fault :
  (forall fuel before after ex ex1,
     execute fuel before ex = (Ok tt, ex1) ->
     execute fuel (before ++ after) ex = execute fuel after ex1)
  /\ (forall fuel before after ex what ex1,
        execute fuel before ex = (Throw what, ex1) ->
        execute fuel (before ++ after) ex = (Throw what, ex1)).
Proof.
  split.
  - intros fuel before after. induction before as [|stmt before IH]; intros ex ex1 H.
    + injection H as <-. reflexivity.
    + rewrite execute_cons in H. cbn [app]. rewrite execute_cons.
      destruct (executeStatement fuel stmt ex) as [[u|w| |] ex2]; try discriminate.
      apply IH, H.
  - intros fuel before after. induction before as [|stmt before IH]; intros ex what ex1 H.
    + discriminate.
    + rewrite execute_cons in H. cbn [app]. rewrite execute_cons.
      destruct (executeStatement fuel stmt ex) as [[u|w| |] ex2]; try discriminate.
      * apply IH, H.
      * exact H.
Qed.


(** The theorem at work on [x = 1] followed by [print(x)]. *)
Lemma execute_witness :
  execute 3 ([AssignStmt "x" (LiteralExpr "1" STRING)] ++ [PrintStmt [IdentifierExpr "x"]])
    fresh
  = execute 3 [PrintStmt [IdentifierExpr "x"]]
      (mk (<["x" := VString "1"]> ∅) false [] "" ∅ nonempty).
Proof.
  apply (proj1 execute_stops_at_the_first_fault 3 [AssignStmt "x" (LiteralExpr "1" STRING)]
           [PrintStmt [IdentifierExpr "x"]] fresh).
  reflexivity.
Defined.

Lemma evaluateFStringLoop_plain (ex : t) :
  forall (rest done result : string) (fuel : nat),
    plainText rest = true ->
    String.length rest < fuel ->
    evaluateFStringLoop fuel (done +:+ rest) (String.length done) result ex
    = (Ok (result +:+ rest), ex).
Proof.
  induction rest as [|c rest IH]; intros done result fuel Hp Hfuel;
    (destruct fuel as [|fuel]; [simpl in Hfuel; lia|]); cbn [evaluateFStringLoop].
  - rewrite append_empty_r, Nat.ltb_irrefl, append_empty_r. reflexivity.
  - replace (String.length done <? String.length (done +:+ String c rest)) with true.
    2:{ symmetry. apply Nat.ltb_lt. rewrite length_append. simpl. lia. }
    cbv zeta. rewrite char_at_append_r. change (char_at (String c rest) 0) with c.
    unfold plainText, all_of in Hp. simpl in Hp.
    apply andb_true_iff in Hp as [Hc Hp]. apply andb_true_iff in Hc as [Hb Hs].
    apply negb_true_iff in Hb, Hs. rewrite Hb, Hs.
    replace (done +:+ String c rest) with ((done +:+ String c "") +:+ rest)
      by (rewrite append_assoc; reflexivity).
    replace (String.length done + 1) with (String.length (done +:+ String c ""))
      by (rewrite length_append; reflexivity).
    rewrite IH; [|exact Hp|simpl in Hfuel; lia].
    rewrite append_assoc. reflexivity.
Qed.

(** X17.  A template that holds no opening brace and no backslash
    evaluates to its own text. *)
Theorem template_without_braces_is_its_text (fuel : nat) (template_string : string)
    (ex : t) :
  plainText template_string = true ->
  evaluateExpression (S fuel) (FStringExpr template_string) ex
  = (Ok (VString template_string), ex).
Proof.
  intros Hp. cbn [evaluateExpression evaluateExpressionBody].
  unfold evaluateFString, bind.
  rewrite (evaluateFStringLoop_plain ex template_string "" "" _ Hp); [reflexivity|lia].
Qed.

(** The theorem at work on a template with a closing brace only. *)
Lemma template_text_witness :
  evaluateExpression (S 0) (FStringExpr "a } b") fresh = (Ok (VString "a } b"), fresh).
Proof. apply (template_without_braces_is_its_text 0 "a } b" fresh). reflexivity. Defined.

(** The lemma [with_binding_removed_without_fault] at work where [fh] is
    bound before the statement: it is not bound after it. *)
Lemma with_binding_witness :
  variables (snd (executeStatement (S 2) with_nothing_to_do with_fh)) !! "fh" = None.
Proof.
  apply (with_binding_removed_without_fault 2
           (CallExpr (IdentifierExpr "open") [LiteralExpr "f.txt" STRING]) "fh" []
           with_fh (snd (executeStatement (S 2) with_nothing_to_do with_fh)));
    [discriminate | vm_compute; reflexivity].
Defined.

End ExecutorExtras.

Section MoreExecutorExtras.

Import Executor.

(** X25.  The conversions [str], [repr], [int], [float], [bool] and [len]
    raise no fault once their first argument has a value, and ignore any
    further argument: the result is read off the value alone ([int] of a
    text that is no number is 0, [len] of a value that is no list is the
    length of its rendering). *)
Theorem conversions_never_raise (fuel : nat) (funcName : string) (a : ExprNode)
    (rest : list ExprNode) (ex ex1 : t) (v result : Value) :
  conversion funcName v = Some result ->
  evaluateExpression fuel a ex = (Ok v, ex1) ->
  evaluateExpression (S fuel) (CallExpr (IdentifierExpr funcName) (a :: rest)) ex
  = (Ok result, ex1).
Proof.
  intros Hc Ha. cbn [evaluateExpression evaluateExpressionBody]. unfold evaluateCall.
  unfold conversion in Hc.
  repeat match type of Hc with
         | (if String.eqb ?x ?y then _ else _) = _ =>
           destruct (String.eqb x y);
           [injection Hc as <-;
            unfold evaluateStr, evaluateRepr, evaluateInt, evaluateFloat, evaluateBool,
              evaluateLen, bind; rewrite Ha; destruct v; reflexivity|]
         end.
  discriminate Hc.
Qed.

(** The theorem at work on [int("abc")]. *)
Lemma conversion_witness :
  evaluateExpression (S 1) (CallExpr (IdentifierExpr "int") [LiteralExpr "abc" STRING]) fresh
  = (Ok (VNumber (Double.of_Z (Double.to_long_long (Value.toNumber (VString "abc"))))),
     fresh).
Proof.
  apply (conversions_never_raise 1 "int" (LiteralExpr "abc" STRING) [] fresh fresh
           (VString "abc")); reflexivity.
Defined.

Lemma joined_concat (values : list Value) :
  joined "" 0 values = String.concat "" (map Value.toString values).
Proof.
  assert (H : forall i, joined "" i values = String.concat "" (map Value.toString values)).
  { induction values as [|v values IH]; intros i; [reflexivity|].
    cbn [joined map]. rewrite (IH (S i)).
    replace (if 0 <? i then "" else "") with "" by (destruct (0 <? i); reflexivity).
    destruct values as [|w values]; [apply append_empty_r | reflexivity]. }
  apply H.
Qed.

(** X26.  A print statement writes one line or nothing: when all its
    expressions evaluate, the renderings of their values, one behind the
    other with nothing in between, and a line break are added to the
    output, and nothing else changes; when one of them faults, the fault
    is the outcome and the statement itself writes nothing. *)
Theorem print_statement_writes_one_line :
  (forall fuel expressions ex values ex1,
     forEach (evaluateExpression fuel) expressions ex = (Ok values, ex1) ->
     executeStatement (S fuel) (PrintStmt expressions) ex
     = (Ok tt, mk (variables ex1) (interactiveMode ex1) (cin ex1)
                  (cout ex1 +:+ String.concat "" (map Value.toString values)
                   +:+ String LF "")
                  (files ex1) (writable ex1)))
  /\ (forall fuel expressions ex what ex1,
        forEach (evaluateExpression fuel) expressions ex = (Throw what, ex1) ->
        executeStatement (S fuel) (PrintStmt expressions) ex = (Throw what, ex1)).
Proof.
  split; intros fuel expressions ex; intros;
    cbn [executeStatement executeStatementBody]; unfold executePrint, bind;
    match goal with H : forEach _ _ _ = _ |- _ => rewrite H end; [|reflexivity].
  unfold fastPutString. rewrite joined_concat. reflexivity.
Qed.

(** The theorem at work on [print("a", "b")]. *)
Lemma print_witness :
  executeStatement (S 1) (PrintStmt [LiteralExpr "a" STRING; LiteralExpr "b" STRING]) fresh
  = (Ok tt, mk (variables fresh) (interactiveMode fresh) (cin fresh)
               (cout fresh +:+ String.concat "" (map Value.toString [VString "a"; VString "b"])
                +:+ String LF "")
               (files fresh) (writable fresh)).
Proof.
  apply (proj1 print_statement_writes_one_line 1
           [LiteralExpr "a" STRING; LiteralExpr "b" STRING] fresh
           [VString "a"; VString "b"] fresh).
  reflexivity.
Defined.

End MoreExecutorExtras.

(** *** What evaluation leaves alone *)

Section Frame.

Import Executor.

Lemma extends_refl (ex : t) : extends ex ex.
Proof.
  split; [reflexivity|]. split; [exists ""; symmetry; apply append_empty_r|].
  exists []. reflexivity.
Qed.

Lemma extends_trans (a b c : t) : extends a b -> extends b c -> extends a c.
Proof.
  intros (Hm1 & [o1 Ho1] & [u1 Hu1]) (Hm2 & [o2 Ho2] & [u2 Hu2]).
  split; [congruence|]. split.
  - exists (o1 +:+ o2). rewrite Ho2, Ho1. apply append_assoc.
  - exists (u1 ++ u2). rewrite Hu1, Hu2. apply app_assoc.
Qed.

Lemma framed_ret {A} (a : A) : framed (ret a).
Proof. intros ex. apply extends_refl. Qed.

Lemma framed_throw {A} (what : string) : framed (@throw t A what).
Proof. intros ex. apply extends_refl. Qed.

Lemma framed_out_of_fuel {A} : framed (@out_of_fuel t A).
Proof. intros ex. apply extends_refl. Qed.

Lemma framed_undefined {A} : framed (@undefined t A).
Proof. intros ex. apply extends_refl. Qed.

Lemma framed_lift {A} (r : result A) : framed (lift r).
Proof. intros ex. apply extends_refl. Qed.

Lemma framed_bind {A B} (m : M A) (k : A -> M B) :
  framed m -> (forall a, framed (k a)) -> framed (bind m k).
Proof.
  intros Hm Hk ex. unfold bind. specialize (Hm ex).
  destruct (m ex) as [[a|w| |] ex1]; cbn [snd] in *; try exact Hm.
  eapply extends_trans; [exact Hm | apply Hk].
Qed.

Lemma framed_try_catch {A} (m : M A) (handler : string -> M A) :
  framed m -> (forall what, framed (handler what)) -> framed (try_catch m handler).
Proof.
  intros Hm Hh ex. unfold try_catch. specialize (Hm ex).
  destruct (m ex) as [[a|w| |] ex1]; cbn [snd] in *; try exact Hm.
  eapply extends_trans; [exact Hm | apply Hh].
Qed.

Lemma framed_get_variables : framed get_variables.
Proof. intros ex. apply extends_refl. Qed.

Lemma framed_set_variables (f : gmap string Value -> gmap string Value) :
  framed (set_variables f).
Proof.
  intros ex. split; [reflexivity|]. split; [exists ""; symmetry; apply append_empty_r|].
  exists []. reflexivity.
Qed.

Lemma framed_fastPutString (str : string) : framed (fastPutString str).
Proof.
  intros ex. split; [reflexivity|]. split; [exists str; reflexivity|].
  exists []. reflexivity.
Qed.

Lemma framed_fastGetString : framed fastGetString.
Proof.
  intros ex. unfold fastGetString. destruct (cin ex) as [|l rest] eqn:E.
  - apply extends_refl.
  - split; [reflexivity|]. split; [exists ""; symmetry; apply append_empty_r|].
    exists [l]. cbn [snd cin]. rewrite E. reflexivity.
Qed.

Lemma framed_forEach {A B} (f : A -> M B) (xs : list A) :
  (forall x, framed (f x)) -> framed (forEach f xs).
Proof.
  intros Hf. induction xs as [|x xs IH]; cbn [forEach].
  - apply framed_ret.
  - apply framed_bind; [apply Hf|]. intros y.
    apply framed_bind; [exact IH|]. intros ys. apply framed_ret.
Qed.

Lemma framed_parseAndEvaluateSimpleExpression (expr_str : string) :
  framed (parseAndEvaluateSimpleExpression expr_str).
Proof.
  unfold parseAndEvaluateSimpleExpression.
  apply framed_bind; [apply framed_get_variables|]. intros variables.
  destruct (parseAndEvaluateSimpleExpressionFuel _ _ _);
    [apply framed_ret | apply framed_out_of_fuel].
Qed.

Lemma framed_evaluateFStringLoop (template_str : string) :
  forall fuel pos result, framed (evaluateFStringLoop fuel template_str pos result).
Proof.
  induction fuel as [|fuel IH]; intros pos result; cbn [evaluateFStringLoop].
  - apply framed_out_of_fuel.
  - destruct (pos <? _); [|apply framed_ret]. cbv zeta.
    destruct (_ =? BACKSLASH)%char.
    { destruct (_ <? _); apply IH. }
    destruct (_ =? "{")%char; [|apply IH].
    destruct (matchBrace _ _) as [[expr_end brace_count]|]; [|apply framed_out_of_fuel].
    destruct (brace_count =? 0); [|apply IH].
    apply framed_bind; [apply framed_parseAndEvaluateSimpleExpression|].
    intros v. apply IH.
Qed.

Lemma framed_evaluateFileRead (filename : string) (is_binary : bool) :
  framed (evaluateFileRead filename is_binary).
Proof.
  intros ex. unfold evaluateFileRead. destruct (files ex !! filename); apply extends_refl.
Qed.

Lemma framed_evaluateFileWrite (filename data : string) (is_binary : bool)
    (mode : string) :
  framed (evaluateFileWrite filename data is_binary mode).
Proof.
  intros ex. unfold evaluateFileWrite.
  destruct (writable ex filename); [|apply extends_refl].
  split; [reflexivity|]. split; [exists ""; symmetry; apply append_empty_r|].
  exists []. reflexivity.
Qed.

Create HintDb frame.

#[local] Hint Resolve framed_ret framed_throw framed_out_of_fuel framed_undefined
  framed_lift framed_get_variables framed_set_variables framed_fastPutString
  framed_fastGetString framed_parseAndEvaluateSimpleExpression
  framed_evaluateFStringLoop framed_evaluateFileRead framed_evaluateFileWrite : frame.

Ltac frame_step :=
  first
    [ progress auto with frame
    | apply framed_bind; [|intros ?]
    | apply framed_try_catch; [|intros ?]
    | apply framed_forEach; intros ?
    | match goal with
      | |- framed (match ?x with _ => _ end) => destruct x
      | |- framed (if ?b then _ else _) => destruct b
      end ].

Section FrameMembers.

Variable self_evaluateExpression : ExprNode -> M Value.
Variable self_executeStatement : StmtNode -> M unit.
Hypothesis self_e : forall e, framed (self_evaluateExpression e).
Hypothesis self_s : forall s, framed (self_executeStatement s).

Lemma framed_evaluateExpressionBody (expr : ExprNode) :
  framed (evaluateExpressionBody self_evaluateExpression self_executeStatement expr).
Proof.
  destruct expr; cbn [evaluateExpressionBody].
  - unfold evaluateLiteral. repeat frame_step.
  - unfold evaluateFString. repeat frame_step.
  - unfold evaluateIdentifier. repeat frame_step.
  - unfold evaluateBinary. repeat frame_step.
  - unfold evaluateCall, evaluateStr, evaluateRepr, evaluateInt, evaluateFloat,
      evaluateBool, evaluateLen, evaluateOpen, evaluateEval, evaluateExec,
      fileValue, closeFile.
    repeat frame_step.
  - unfold evaluateList. repeat frame_step.
  - unfold evaluateIndex. repeat frame_step.
Qed.

Lemma framed_executeStatementBody (stmt : StmtNode) :
  framed (executeStatementBody self_evaluateExpression self_executeStatement stmt).
Proof.
  destruct stmt; cbn [executeStatementBody].
  - unfold executePrint. repeat frame_step.
  - unfold executeAssignment. repeat frame_step.
  - apply framed_bind; [apply self_e|]. intros result ex.
    destruct (interactiveMode ex && _); [apply framed_fastPutString | apply extends_refl].
  - unfold executeWith. repeat frame_step.
Qed.

End FrameMembers.

Lemma framed_evaluation (fuel : nat) :
  (forall expr, framed (evaluateExpression fuel expr))
  /\ (forall stmt, framed (executeStatement fuel stmt)).
Proof.
  induction fuel as [|fuel [IHe IHs]].
  - split; intros x; apply framed_out_of_fuel.
  - split; intros x; cbn [evaluateExpression executeStatement].
    + apply framed_evaluateExpressionBody; assumption.
    + apply framed_executeStatementBody; assumption.
Qed.

Lemma framed_execute (fuel : nat) (statements : list StmtNode) :
  framed (execute fuel statements).
Proof.
  unfold execute. apply framed_bind; [|intros _; apply framed_ret].
  apply framed_forEach. apply (framed_evaluation fuel).
Qed.

(** X14.  Evaluation and execution keep the mode of the executor, only
    add to its output and only take from the front of its input: whatever
    the outcome, the executor an expression, a statement or a run of
    statements leaves has the same interactive flag, an output that begins
    with the output there was, and an input that is an end part of the
    input there was. *)
Theorem evaluation_only_appends_output_and_consumes_input (fuel : nat) :
  (forall expr ex, extends ex (snd (evaluateExpression fuel expr ex)))
  /\ (forall stmt ex, extends ex (snd (executeStatement fuel stmt ex)))
  /\ (forall statements ex, extends ex (snd (execute fuel statements ex))).
Proof.
  destruct (framed_evaluation fuel) as [He Hs].
  split; [exact He|]. split; [exact Hs|].
  intros statements. apply framed_execute.
Qed.

End Frame.

Section ExecutorAndFrontEnd.

Import Executor.

(** X16.  [exec] reports run-time faults only: the text of its argument
    (with a line break added when it lacks one) always goes through the
    lexer and the parser; the statements it gives are executed in the
    executor as the argument left it; the result is None when they run
    through, and a fault of theirs is thrown on with [exec error: ] in
    front of its message. *)
Theorem exec_reports_only_run_time_faults (fuel : nat) (a : ExprNode)
    (rest : list ExprNode) (ex ex1 : t) (v : Value) :
  evaluateExpression fuel a ex = (Ok v, ex1) ->
  exists tokens statements,
    Lexer.tokenize (execText (Value.toString v)) = Some tokens
    /\ Parser.parse tokens = Ok statements
    /\ evaluateExpression (S fuel) (CallExpr (IdentifierExpr "exec") (a :: rest)) ex
       = match execute fuel statements ex1 with
         | (Ok _, ex2) => (Ok VNone, ex2)
         | (Throw what, ex2) => (Throw ("exec error: " +:+ what), ex2)
         | (OutOfFuel, ex2) => (OutOfFuel, ex2)
         | (Undefined, ex2) => (Undefined, ex2)
         end.
Proof.
  intros Ha.
  destruct (tokenize_then_parse (execText (Value.toString v)))
    as (tokens & statements & Ht & Hp & _).
  exists tokens, statements. split; [exact Ht|]. split; [exact Hp|].
  cbn [evaluateExpression evaluateExpressionBody]. unfold evaluateCall.
  change (String.eqb "exec" "str") with false.
  change (String.eqb "exec" "repr") with false.
  change (String.eqb "exec" "int") with false.
  change (String.eqb "exec" "float") with false.
  change (String.eqb "exec" "bool") with false.
  change (String.eqb "exec" "len") with false.
  change (String.eqb "exec" "input") with false.
  change (String.eqb "exec" "print") with false.
  change (String.eqb "exec" "open") with false.
  change (String.eqb "exec" "eval") with false.
  change (String.eqb "exec" "exec") with true. cbv iota.
  unfold evaluateExec, bind at 1. rewrite Ha.
  unfold try_catch. fold (execText (Value.toString v)). rewrite Ht.
  unfold bind at 1, lift. rewrite Hp.
  unfold execute, bind.
  destruct (forEach (executeStatement fuel) statements ex1) as [[l|w| |] ex2]; reflexivity.
Qed.

(** The theorem at work on [exec("x = (")], whose text does not parse. *)
Lemma exec_witness :
  exists tokens statements,
    Lexer.tokenize (execText (Value.toString (VString "x = ("))) = Some tokens
    /\ Parser.parse tokens = Ok statements
    /\ evaluateExpression (S 1)
         (CallExpr (IdentifierExpr "exec") (LiteralExpr "x = (" STRING :: [])) fresh
       = match execute 1 statements fresh with
         | (Ok _, ex2) => (Ok VNone, ex2)
         | (Throw what, ex2) => (Throw ("exec error: " +:+ what), ex2)
         | (OutOfFuel, ex2) => (OutOfFuel, ex2)
         | (Undefined, ex2) => (Undefined, ex2)
         end.
Proof.
  apply (exec_reports_only_run_time_faults 1 (LiteralExpr "x = (" STRING) [] fresh fresh
           (VString "x = (")).
  reflexivity.
Defined.

(** X22.  [open] does not touch the file: it returns an open handle with
    the rendering of its first argument as path and that of its second as
    mode (["r"] without one; binary when the mode holds a [b]), whether
    the file is there or not, and changes nothing; a file that is not
    there is a fault only when it is read:
    [File read error: Could not open file for reading: ] and the path. *)
Theorem open_does_not_touch_the_file :
  (forall fuel a rest ex v ex1,
     evaluateExpression fuel a ex = (Ok v, ex1) ->
     (rest = [] ->
      evaluateExpression (S fuel) (CallExpr (IdentifierExpr "open") (a :: rest)) ex
      = (Ok (VFileObject (Some (mkFileObject (Value.toString v) "r" false true))), ex1))
     /\ (forall b more m ex2,
           rest = b :: more ->
           evaluateExpression fuel b ex1 = (Ok m, ex2) ->
           evaluateExpression (S fuel) (CallExpr (IdentifierExpr "open") (a :: rest)) ex
           = (Ok (VFileObject
                    (Some (mkFileObject (Value.toString v) (Value.toString m)
                             (contains "b" (Value.toString m)) true))), ex2)))
  /\ (forall fuel name fo ex,
        isBuiltin name = false ->
        variables ex !! name = Some (VFileObject (Some fo)) ->
        files ex !! filename fo = None ->
        evaluateExpression (2 + fuel)
          (CallExpr (IdentifierExpr name) [LiteralExpr "read" STRING]) ex
        = (Throw ("File read error: Could not open file for reading: " +:+ filename fo),
           ex)).
Proof.
  split.
  - intros fuel a rest ex v ex1 Ha.
    assert (Hcall : evaluateExpression (S fuel)
                      (CallExpr (IdentifierExpr "open") (a :: rest)) ex
                    = evaluateOpen (evaluateExpression fuel) (a :: rest) ex)
      by reflexivity.
    rewrite Hcall. unfold evaluateOpen. split.
    + intros ->. unfold bind at 1. rewrite Ha. reflexivity.
    + intros b more m ex2 -> Hb. unfold bind at 1. rewrite Ha.
      unfold bind at 1. unfold bind at 1. rewrite Hb. reflexivity.
  - intros fuel name fo ex Hb Hf Hnone.
    change (2 + fuel) with (S (S fuel)).
    rewrite (evaluateCall_file_branch _ _ _ _ (Some fo) Hb) by exact Hf.
    unfold bind at 1. cbn [evaluateExpression evaluateExpressionBody evaluateLiteral ret].
    cbn [Value.toString]. unfold bind at 1, fileValue at 1, bind at 1, get_variables.
    rewrite Hf. cbn [ret].
    change (String.eqb "read" "read") with true. cbv iota.
    unfold evaluateFileRead. rewrite Hnone. reflexivity.
Qed.

(** The theorem at work on [fh("read")] with no file on disk. *)
Lemma open_witness :
  evaluateExpression (2 + 0) (CallExpr (IdentifierExpr "fh") [LiteralExpr "read" STRING])
    with_fh
  = (Throw ("File read error: Could not open file for reading: "
            +:+ filename (mkFileObject "f.txt" "r" false true)), with_fh).
Proof.
  apply (proj2 open_does_not_touch_the_file 0 "fh"
           (mkFileObject "f.txt" "r" false true) with_fh); reflexivity.
Defined.

End ExecutorAndFrontEnd.

(** ** The interpreter *)

Section InterpreterSession.

Import PythonInterpreter.

(** X23.  [executeFile] answers whether the script ran: a file that is
    not there is reported on [std::cerr] and the answer is false; a file
    that is empty gives false without a word; any other file goes through
    the lexer and the parser, whatever it holds, its statements are
    executed with the interactive flag off, and the answer is true when
    they run through and false, with [Error: ] and the message on
    [std::cerr], when one of them faults. *)
Theorem executeFile_outcomes :
  (forall fuel filename it,
     Executor.files (executor it) !! filename = None ->
     executeFile fuel filename it
     = (Ok false, mk (executor it)
                     (cerr it +:+ "Error: Could not open file " +:+ filename +:+ endl)))
  /\ (forall fuel filename it,
        Executor.files (executor it) !! filename = Some "" ->
        executeFile fuel filename it = (Ok false, mk (executor it) (cerr it)))
  /\ (forall fuel filename it source,
        Executor.files (executor it) !! filename = Some source ->
        source <> "" ->
        exists tokens statements,
          Lexer.tokenize source = Some tokens
          /\ Parser.parse tokens = Ok statements
          /\ executeFile fuel filename it
             = match Executor.execute fuel statements
                       (executor (setInteractiveMode false it)) with
               | (Ok _, ex) => (Ok true, mk ex (cerr it))
               | (Throw what, ex) =>
                 (Ok false, mk ex ((cerr it) +:+ "Error: " +:+ what +:+ endl))
               | (OutOfFuel, ex) => (OutOfFuel, mk ex (cerr it))
               | (Undefined, ex) => (Undefined, mk ex (cerr it))
               end).
Proof.
  split; [|split].
  - intros fuel filename it H. unfold executeFile, Utils.readFile. rewrite H.
    reflexivity.
  - intros fuel filename it H. unfold executeFile, Utils.readFile, put_err. rewrite H.
    cbn [String.eqb executor cerr]. rewrite append_empty_r. reflexivity.
  - intros fuel filename it source H Hne.
    destruct (tokenize_then_parse source) as (tokens & statements & Ht & Hp & _).
    exists tokens, statements. split; [exact Ht|]. split; [exact Hp|].
    unfold executeFile, Utils.readFile. rewrite H.
    apply String.eqb_neq in Hne. rewrite Hne, Ht, Hp.
    cbn [setInteractiveMode put_err executor cerr]. rewrite append_empty_r.
    destruct (Executor.execute fuel statements _) as [[u|w| |] ex]; reflexivity.
Qed.


(** The theorem at work on a script that is not there. *)
Lemma executeFile_witness :
  executeFile 0 "none.py" with_a_script
  = (Ok false, mk (executor with_a_script)
                  (cerr with_a_script +:+ "Error: Could not open file " +:+ "none.py"
                   +:+ endl)).
Proof. apply (proj1 executeFile_outcomes 0 "none.py" with_a_script). reflexivity. Defined.

Example executeFile_runs_a_script :
  fst (executeFile 3 "s.py" with_a_script) = Ok true
  /\ fst (executeFile 3 "empty.py" with_a_script) = Ok false.
Proof. split; vm_compute; reflexivity. Qed.

Lemma extends_cin (ex ex' : Executor.t) :
  extends ex ex' -> length (Executor.cin ex') <= length (Executor.cin ex).
Proof. intros (_ & _ & [used ->]). rewrite length_app. lia. Qed.

Lemma run_cin (fuel : nat) (source : string) (it : t) :
  length (Executor.cin (executor (snd (run fuel source it))))
  <= length (Executor.cin (executor it)).
Proof.
  unfold run. destruct (Lexer.tokenize source) as [tokens|]; [|reflexivity].
  destruct (Parser.parse tokens) as [statements|w| |]; try reflexivity.
  pose proof (framed_execute fuel statements (executor it)) as H.
  destruct (Executor.execute fuel statements (executor it)) as [r ex].
  apply extends_cin, H.
Qed.

(** X27.  The interactive session is bounded by its input: every round
    but the last reads a line, and executing a line only takes lines from
    the input, so a bound on the rounds beyond the number of lines still
    to be read is never reached, and any two such bounds give the same
    session. *)
Theorem interactive_session_is_bounded_by_its_input (fuel : nat) :
  forall rounds rounds' it,
    length (Executor.cin (executor it)) < rounds ->
    length (Executor.cin (executor it)) < rounds' ->
    interactiveLoop rounds fuel it = interactiveLoop rounds' fuel it.
Proof.
  induction rounds as [|rounds IH]; intros rounds' it H H'; [lia|].
  destruct rounds' as [|rounds']; [lia|].
  cbn [interactiveLoop]. set (it1 := put ">>> " it).
  assert (Hc : Executor.cin (executor it1) = Executor.cin (executor it)) by reflexivity.
  clearbody it1. rewrite <- Hc in H, H'. clear Hc it. unfold getline.
  destruct (Executor.cin (executor it1)) as [|line rest] eqn:E; [reflexivity|].
  simpl in H, H'.
  destruct (String.eqb line "exit()" || String.eqb line "quit()"); [reflexivity|].
  destruct (directive line) as [answer|].
  - apply IH; cbn; lia.
  - match goal with
    | |- context [run fuel line ?i] =>
      pose proof (run_cin fuel line i) as Hrun; destruct (run fuel line i) as [[u|w| |] it']
    end; cbn [snd executor Executor.cin] in Hrun; try reflexivity.
    + apply IH; lia.
    + apply IH; cbn; lia.
Qed.

(** The theorem at work on two lines of input. *)
Lemma interactive_bound_witness :
  interactiveLoop 3 2 with_a_script = interactiveLoop 5 2 with_a_script.
Proof.
  apply (interactive_session_is_bounded_by_its_input 2 3 5 with_a_script); simpl; lia.
Defined.

(** X24.  The interactive mode, round by round.  Each round writes the
    prompt and reads a line.  At the end of the input the session ends.
    On [exit()] or [quit()] it ends and the lines behind stay unread.  On
    one of its own words ([help()], [help], [copyright], [credits],
    [license]) or an empty line it writes its answer and goes on.  Any
    other line goes through the lexer and the parser, whatever it holds,
    and its statements are executed: when they run through the session
    goes on in the executor they leave; when one faults, [Error: ] and the
    message go to [std::cerr] and the session goes on all the same.  The
    session itself never ends in a fault. *)
Theorem interactive_session_steps :
  (forall rounds fuel it,
     Executor.cin (executor it) = [] ->
     interactiveLoop (S rounds) fuel it = (Ok tt, put ">>> " it))
  /\ (forall rounds fuel it line rest,
        Executor.cin (executor it) = line :: rest ->
        line = "exit()" \/ line = "quit()" ->
        interactiveLoop (S rounds) fuel it = (Ok tt, prompted it rest))
  /\ (forall rounds fuel it line rest answer,
        Executor.cin (executor it) = line :: rest ->
        line <> "exit()" -> line <> "quit()" ->
        directive line = Some answer ->
        interactiveLoop (S rounds) fuel it
        = interactiveLoop rounds fuel (put answer (prompted it rest)))
  /\ (forall rounds fuel it line rest,
        Executor.cin (executor it) = line :: rest ->
        line <> "exit()" -> line <> "quit()" ->
        directive line = None ->
        exists tokens statements,
          Lexer.tokenize line = Some tokens
          /\ Parser.parse tokens = Ok statements
          /\ interactiveLoop (S rounds) fuel it
             = match Executor.execute fuel statements (executor (prompted it rest)) with
               | (Ok _, ex) => interactiveLoop rounds fuel (mk ex (cerr it))
               | (Throw what, ex) =>
                 interactiveLoop rounds fuel
                   (mk ex (cerr it +:+ "Error: " +:+ what +:+ endl))
               | (OutOfFuel, ex) => (OutOfFuel, mk ex (cerr it))
               | (Undefined, ex) => (Undefined, mk ex (cerr it))
               end)
  /\ (forall rounds fuel it what,
        fst (interactiveLoop rounds fuel it) <> Throw what).
Proof.
  split; [|split; [|split; [|split]]].
  - intros rounds fuel it H. cbn [interactiveLoop]. unfold getline, put.
    cbn [Executor.fastPutString snd executor Executor.cin]. rewrite H. reflexivity.
  - intros rounds fuel it line rest H Hexit. cbn [interactiveLoop]. unfold getline, put.
    cbn [Executor.fastPutString snd executor Executor.cin]. rewrite H.
    destruct Hexit as [-> | ->]; reflexivity.
  - intros rounds fuel it line rest answer H H1 H2 Hd.
    cbn [interactiveLoop]. unfold getline, put at 1.
    cbn [Executor.fastPutString snd executor Executor.cin]. rewrite H.
    apply String.eqb_neq in H1, H2. rewrite H1, H2. cbn [orb]. rewrite Hd. reflexivity.
  - intros rounds fuel it line rest H H1 H2 Hd.
    destruct (tokenize_then_parse line) as (tokens & statements & Ht & Hp & _).
    exists tokens, statements. split; [exact Ht|]. split; [exact Hp|].
    cbn [interactiveLoop]. unfold getline, put at 1.
    cbn [Executor.fastPutString snd executor Executor.cin]. rewrite H.
    apply String.eqb_neq in H1, H2. rewrite H1, H2. cbn [orb]. rewrite Hd.
    unfold run. rewrite Ht, Hp. unfold prompted. cbn [executor cerr].
    destruct (Executor.execute fuel statements _) as [[u|w| |] ex]; reflexivity.
  - induction rounds as [|rounds IH]; intros fuel it what; [discriminate|].
    cbn [interactiveLoop]. destruct (getline _) as [[line it1]|]; [|discriminate].
    destruct (_ || _); [discriminate|].
    destruct (directive line); [apply IH|].
    destruct (run fuel line it1) as [[u|w| |] it2]; try discriminate; apply IH.
Qed.

(** The theorem at work where the next line is [exit()]. *)
Lemma interactive_witness :
  interactiveLoop (S 0) 0 with_a_script = (Ok tt, prompted with_a_script ["x = 1"]).
Proof.
  apply (proj1 (proj2 interactive_session_steps) 0 0 with_a_script "exit()" ["x = 1"]);
    [reflexivity | left; reflexivity].
Defined.


End InterpreterSession.

(** ** White space between tokens *)

Section LexerBlanks.

Import Lexer.

Lemma while_more {St : Type} (cond : St -> bool) (body : St -> St) :
  forall fuel s r, while fuel cond body s = Some r -> while (S fuel) cond body s = Some r.
Proof.
  induction fuel as [|fuel IH]; intros s r H.
  - simpl in *. destruct (cond s); [discriminate | exact H].
  - simpl in H. destruct (cond s) eqn:E.
    + rewrite while_true by exact E. apply IH, H.
    + rewrite while_false by exact E. exact H.
Qed.

(** The loop that skips white space, from any state. *)
Lemma skip_blanks (lx : t) :
  pos lx <= String.length (source lx) ->
  exists lx1,
    while (loop_fuel lx) atBlank advance lx = Some lx1
    /\ reaches lx lx1 /\ atBlank lx1 = false.
Proof.
  intros Hpos. apply scan_terminates; [|exact Hpos].
  intros l Hl. apply andb_true_iff in Hl as [Hl _]. apply isspace_not_NUL, Hl.
Qed.

(** A round of the main loop begins where the white space ends. *)
Lemma tokenizeLoop_skip_blanks (fuel : nat) (lx lx1 : t) (tokens : list Token) :
  while (loop_fuel lx) atBlank advance lx = Some lx1 ->
  reaches lx lx1 -> atBlank lx1 = false ->
  tokenizeLoop (S fuel) lx tokens = tokenizeLoop (S fuel) lx1 tokens.
Proof.
  intros Hw (Hs & Hp1 & Hp2) Hstop. cbn [tokenizeLoop].
  change (fun lx0 : t => isspace (currentChar lx0) && negb (currentChar lx0 =? LF)%char)
    with atBlank.
  rewrite Hs.
  destruct (Nat.ltb_spec (pos lx) (String.length (source lx))) as [Hlt|Hge].
  - rewrite Hw. cbn [mbind option_bind].
    destruct (Nat.ltb_spec (pos lx1) (String.length (source lx))) as [Hlt1|Hge1].
    + rewrite (while_false atBlank) by exact Hstop. reflexivity.
    + assert (HN : currentChar lx1 = NUL).
      { unfold currentChar. apply char_at_past_end. rewrite Hs. exact Hge1. }
      rewrite HN. reflexivity.
  - assert (atBlank lx = false).
    { unfold atBlank, currentChar. rewrite char_at_past_end by exact Hge. reflexivity. }
    rewrite while_false in Hw by assumption. injection Hw as <-.
    destruct (Nat.ltb_spec (pos lx) (String.length (source lx))); [lia | reflexivity].
Qed.

(** X29.  White space other than a line feed yields no token and does
    not change the tokens that follow: tokenizing from a blank, tab or
    carriage return gives the same tokens, with the same lines and
    columns, as tokenizing from the character after it. *)
Theorem white_space_yields_no_token (lx : t) :
  isspace (currentChar lx) = true ->
  currentChar lx <> LF ->
  tokenizeFrom lx = tokenizeFrom (advance lx).
Proof.
  intros Hsp HLF.
  pose proof (currentChar_in_range _ (isspace_not_NUL _ Hsp)) as Hlt.
  assert (Hcond : atBlank lx = true).
  { unfold atBlank. rewrite Hsp. apply negb_true_iff, Ascii.eqb_neq, HLF. }
  assert (Hpos' : pos (advance lx) <= String.length (source (advance lx))).
  { rewrite advance_source, advance_pos by exact Hlt. lia. }
  destruct (skip_blanks (advance lx) Hpos') as (lx1 & Hw1 & Hr1 & Hstop).
  assert (Hw : while (loop_fuel lx) atBlank advance lx = Some lx1).
  { unfold loop_fuel in *. rewrite advance_source in Hw1.
    destruct (String.length (source lx)) as [|n] eqn:En; [lia|].
    rewrite while_true by exact Hcond.
    destruct (while_terminates atBlank advance (reaches (advance lx)) remaining)
      with (fuel := n) (s := advance lx) as (lx2 & Hw2 & _).
    - intros s Hs Hc. apply advance_step; [exact Hs|].
      apply andb_true_iff in Hc as [Hc _]. apply isspace_not_NUL, Hc.
    - apply reaches_refl, Hpos'.
    - unfold remaining. rewrite advance_source, advance_pos by lia. lia.
    - rewrite Hw2. apply while_more in Hw2. rewrite Hw2 in Hw1. exact Hw1. }
  assert (Hr : reaches lx lx1).
  { eapply reaches_trans; [apply advance_reaches; lia | exact Hr1]. }
  unfold tokenizeFrom.
  rewrite (tokenizeLoop_skip_blanks _ lx lx1 [] Hw Hr Hstop).
  rewrite (tokenizeLoop_skip_blanks _ (advance lx) lx1 [] Hw1 Hr1 Hstop).
  destruct Hr as (Hs & Hp1 & Hp2). destruct Hr1 as (Hs1 & Hq1 & Hq2).
  rewrite (tokenizeLoop_fuel (S (String.length (source lx) - pos lx))
             (S (String.length (source (advance lx)) - pos (advance lx))) lx1 []);
    [reflexivity| | |].
  - rewrite Hs. exact Hp2.
  - unfold remaining. rewrite Hs. lia.
  - unfold remaining. rewrite Hs, advance_source. rewrite advance_pos in * by exact Hlt.
    lia.
Qed.

Lemma white_space_witness :
  tokenizeFrom (mk "a  b" 1 1 1) = tokenizeFrom (advance (mk "a  b" 1 1 1)).
Proof.
  apply (white_space_yields_no_token (mk "a  b" 1 1 1)); [reflexivity | discriminate].
Defined.

End LexerBlanks.

(** ** A template region that names a variable *)

Section TemplateExtras.

Import Executor.

Lemma simpleExpression_bound (self : string -> option Value)
    (variables : gmap string Value) (expr_str name : string) (val : Value) :
  eraseSpaces expr_str = name ->
  name <> "" ->
  all_of isDigitOrDot name = false ->
  all_of isAlnumOrUnderscore name = true ->
  variables !! name = Some val ->
  simpleExpression self variables expr_str = Some (regionValue val).
Proof.
  intros Hname Hne Hdig Haln Hlook. unfold simpleExpression. cbv zeta.
  rewrite Hname. apply String.eqb_neq in Hne. rewrite Hne, Hdig, Haln, Hlook.
  destruct val; reflexivity.
Qed.

(** One region between braces, alone in a template. *)
Lemma evaluateFString_one_region (fuel : nat) (region : string) (ex : t) (v : Value) :
  (forall i, i < String.length region ->
     (char_at region i =? "{")%char = false /\ (char_at region i =? "}")%char = false) ->
  parseAndEvaluateSimpleExpression region ex = (Ok v, ex) ->
  evaluateExpression (S fuel) (FStringExpr ("{" +:+ region +:+ "}")) ex
  = (Ok (VString (Value.toString v)), ex).
Proof.
  intros Hplain Hregion.
  cbn [evaluateExpression evaluateExpressionBody]. unfold evaluateFString.
  change ("{" +:+ region +:+ "}") with (String "{" (region +:+ "}")).
  assert (Hbrace := matchBrace_plain_region region Hplain).
  assert (Hsub : substr (String "{" (region +:+ "}")) 1 (S (String.length region) - 1)
                 = region).
  { unfold substr.
    replace (S (String.length region) - 1) with (String.length region) by lia.
    change (String.substring 1 (String.length region) (String "{" (region +:+ "}")))
      with (String.substring 0 (String.length region) (region +:+ "}")).
    apply substring_append_l. }
  assert (Hfirst : char_at (String "{" (region +:+ "}")) 0 = "{"%char) by reflexivity.
  assert (Hlen : String.length (String "{" (region +:+ "}"))
                 = S (S (String.length region))).
  { simpl. rewrite length_append. simpl. lia. }
  revert Hbrace Hsub Hfirst Hlen.
  generalize (String "{" (region +:+ "}")). intros template_str Hbrace Hsub Hfirst Hlen.
  rewrite Hlen. unfold bind at 1.
  cbn [evaluateFStringLoop]. rewrite Hlen, Hfirst.
  change (0 <? S (S (String.length region))) with true. cbv iota zeta.
  change ("{" =? BACKSLASH)%char with false.
  change ("{" =? "{")%char with true. cbv iota.
  change (0 + 1) with 1. rewrite Hbrace.
  change (0 =? 0) with true. cbv iota. rewrite Hsub.
  unfold bind at 1. rewrite Hregion.
  replace (S (String.length region) + 1 <? S (S (String.length region))) with false.
  2:{ symmetry. apply Nat.ltb_ge. lia. }
  reflexivity.
Qed.

(** X28.  A template that is one region naming a bound variable renders
    the value of the variable, whatever white space surrounds the name in
    the region; a file handle is rendered as None, since the region
    evaluator does not copy handles.  The executor is left as it was. *)
Theorem template_region_renders_the_variable (fuel : nat) (ex : t)
    (region name : string) (val : Value) :
  eraseSpaces region = name ->
  name <> "" ->
  all_of isAlnumOrUnderscore name = true ->
  all_of isDigitOrDot name = false ->
  variables ex !! name = Some val ->
  evaluateExpression (S fuel) (FStringExpr ("{" +:+ region +:+ "}")) ex
  = (Ok (VString (Value.toString (regionValue val))), ex).
Proof.
  intros Hname Hne Haln Hdig Hlook.
  apply evaluateFString_one_region.
  - intros i Hi. apply not_a_brace.
    apply (eraseSpaces_all_of _ region); [rewrite Hname; exact Haln|].
    apply char_at_In, Hi.
  - unfold parseAndEvaluateSimpleExpression, bind, get_variables.
    cbn [parseAndEvaluateSimpleExpressionFuel].
    rewrite (simpleExpression_bound _ _ region name val); auto.
Qed.

Lemma template_variable_witness :
  evaluateExpression (S 0) (FStringExpr ("{" +:+ " n " +:+ "}")) with_n
  = (Ok (VString (Value.toString (regionValue (VNumber (Double.of_Z 5))))), with_n).
Proof.
  apply (template_region_renders_the_variable 0 with_n " n " "n" (VNumber (Double.of_Z 5)));
    try reflexivity. discriminate.
Defined.

End TemplateExtras.

(** ** From the text of a script to its output *)

Section Pipeline.

Import Lexer.

(** A scanning loop over [n] characters that keep it going by one
    character each, none of them a line feed, up to a state that stops
    it. *)
Lemma scan_exact (cond : t -> bool) (body : t -> t) (ok : ascii -> bool) (src : string) :
  (forall l, ok (currentChar l) = true ->
     cond l = true /\ body l = advance l
     /\ currentChar l <> LF /\ currentChar l <> NUL) ->
  forall n fuel ps ln cl,
    n <= fuel ->
    (forall i, i < n -> ok (char_at src (ps + i)) = true) ->
    cond (mk src (ps + n) ln (cl + n)) = false ->
    while fuel cond body (mk src ps ln cl) = Some (mk src (ps + n) ln (cl + n)).
Proof.
  intros Hok. induction n as [|n IH]; intros fuel ps ln cl Hfuel Hin Hout.
  - rewrite !Nat.add_0_r in *. apply while_false, Hout.
  - destruct fuel as [|fuel]; [lia|].
    assert (H0 : 0 < S n) by lia.
    pose proof (Hin 0 H0) as Hp. rewrite Nat.add_0_r in Hp.
    destruct (Hok (mk src ps ln cl) Hp) as (Hc & Hb & HLF & HNUL).
    rewrite while_true by exact Hc. rewrite Hb.
    unfold currentChar in HLF, HNUL. cbn [source pos] in HLF, HNUL.
    assert (Hlt : ps < String.length src).
    { destruct (Nat.lt_ge_cases ps (String.length src)) as [H|H]; [exact H|].
      exfalso. apply HNUL. apply char_at_past_end. exact H. }
    unfold advance. cbn [source pos line col].
    apply Nat.ltb_lt in Hlt. rewrite Hlt.
    apply Ascii.eqb_neq in HLF. rewrite HLF.
    rewrite (IH fuel (ps + 1) ln (cl + 1)).
    + replace (ps + 1 + n) with (ps + S n) by lia.
      replace (cl + 1 + n) with (cl + S n) by lia. reflexivity.
    + lia.
    + intros i Hi. replace (ps + 1 + i) with (ps + S i) by lia. apply Hin. lia.
    + replace (ps + 1 + n) with (ps + S n) by lia.
      replace (cl + 1 + n) with (cl + S n) by lia. exact Hout.
Qed.

Lemma advance_plain (src : string) (ps ln cl : nat) :
  char_at src ps <> NUL -> char_at src ps <> LF ->
  advance (mk src ps ln cl) = mk src (ps + 1) ln (cl + 1).
Proof.
  intros HNUL HLF. unfold advance. cbn [source pos line col].
  assert (Hlt : ps < String.length src).
  { destruct (Nat.lt_ge_cases ps (String.length src)) as [H|H]; [exact H|].
    exfalso. apply HNUL. apply char_at_past_end. exact H. }
  apply Nat.ltb_lt in Hlt. rewrite Hlt.
  apply Ascii.eqb_neq in HLF. rewrite HLF. reflexivity.
Qed.

(** A literal between double quotes, closed on its line, without a
    backslash: the token holds the characters between the quotes. *)
Lemma readString_literal (src : string) (ps ln cl n : nat) :
  char_at src ps = DQUOTE ->
  (forall i, i < n -> literalChar (char_at src (ps + 1 + i)) = true) ->
  char_at src (ps + 1 + n) = DQUOTE ->
  (n = 0 -> char_at src (ps + 2) <> DQUOTE) ->
  readString (mk src ps ln cl)
  = Some (mkToken STRING (substr src (ps + 1) n) ln (cl + 1 + n + 1),
          mk src (ps + 1 + n + 1) ln (cl + 1 + n + 1)).
Proof.
  intros Hopen Hlit Hclose Hempty.
  assert (Hcc : currentChar (mk src ps ln cl) = DQUOTE) by exact Hopen.
  unfold readString. rewrite !Hcc.
  rewrite advance_plain by (rewrite Hopen; discriminate).
  change (DQUOTE =? DQUOTE)%char with true. change (DQUOTE =? SQUOTE)%char with false.
  cbn [andb source pos].
  replace ((ps + 1 + 1 <? String.length src)
           && (currentChar (mk src (ps + 1) ln (cl + 1)) =? DQUOTE)%char
           && (peekChar (mk src (ps + 1) ln (cl + 1)) =? DQUOTE)%char) with false.
  2:{ symmetry. unfold currentChar, peekChar. cbn [source pos].
      destruct n as [|m].
      - replace (ps + 1 + 1) with (ps + 2) by lia.
        specialize (Hempty eq_refl). apply Ascii.eqb_neq in Hempty. rewrite Hempty.
        apply andb_false_r.
      - assert (H0 : 0 < S m) by lia. pose proof (Hlit 0 H0) as Hl.
        rewrite Nat.add_0_r in Hl. unfold literalChar in Hl.
        destruct (char_at src (ps + 1) =? DQUOTE)%char; [discriminate Hl|].
        rewrite andb_false_r. reflexivity. }
  rewrite (scan_exact _ _ literalChar src) with (n := n).
  - cbn [mbind option_bind source pos line col]. unfold currentChar. cbn [source pos].
    rewrite Hclose. change (DQUOTE =? DQUOTE)%char with true. cbv iota.
    rewrite advance_plain by (rewrite Hclose; discriminate).
    cbn [line col]. replace (ps + 1 + n - (ps + 1)) with n by lia. reflexivity.
  - intros l Hl. unfold literalChar in Hl.
    destruct (currentChar l =? DQUOTE)%char eqn:E1; [discriminate Hl|].
    destruct (currentChar l =? BACKSLASH)%char eqn:E2; [discriminate Hl|].
    destruct (currentChar l =? LF)%char eqn:E3; [discriminate Hl|].
    destruct (currentChar l =? NUL)%char eqn:E4; [discriminate Hl|].
    repeat split; try reflexivity; apply Ascii.eqb_neq; assumption.
  - unfold loop_fuel. cbn [source].
    destruct (Nat.le_gt_cases n (String.length src)) as [H|H]; [exact H|].
    exfalso. assert (Hge : String.length src <= ps + 1 + n) by lia.
    apply char_at_past_end in Hge. rewrite Hge in Hclose. discriminate.
  - exact Hlit.
  - unfold currentChar. cbn [source pos]. rewrite Hclose. reflexivity.
Qed.

(** What a round of the main loop does by the character it stands on. *)
Lemma round_identifier (fuel : nat) (lx : t) (tokens : list Token) :
  isalpha (currentChar lx) = true ->
  tokenizeLoop (S fuel) lx tokens
  = '(tok, lx0) ← readIdentifier lx; tokenizeLoop fuel lx0 (tokens ++ [tok]).
Proof.
  intros Hc. cbn [tokenizeLoop].
  pose proof (currentChar_in_range _ (isalpha_not_NUL _ Hc)) as Hlt.
  apply Nat.ltb_lt in Hlt. rewrite Hlt.
  rewrite while_false; cbn [mbind option_bind];
    revert Hc; generalize (currentChar lx); intros c Hc;
    destruct c as [[] [] [] [] [] [] [] []]; try discriminate Hc; reflexivity.
Qed.

Lemma round_string (fuel : nat) (lx : t) (tokens : list Token) :
  currentChar lx = DQUOTE ->
  tokenizeLoop (S fuel) lx tokens
  = '(tok, lx0) ← readString lx; tokenizeLoop fuel lx0 (tokens ++ [tok]).
Proof.
  intros Hc. cbn [tokenizeLoop].
  assert (Hlt : pos lx < String.length (source lx)).
  { apply currentChar_in_range. rewrite Hc. discriminate. }
  apply Nat.ltb_lt in Hlt. rewrite Hlt.
  rewrite while_false; cbn [mbind option_bind]; rewrite Hc; reflexivity.
Qed.

Lemma round_parenthesis (fuel : nat) (lx : t) (tokens : list Token) :
  currentChar lx = "("%char \/ currentChar lx = ")"%char ->
  tokenizeLoop (S fuel) lx tokens
  = let '(tok, lx0) := operatorToken lx in
    tokenizeLoop fuel lx0 (tokens ++ option_list tok).
Proof.
  intros Hc. cbn [tokenizeLoop].
  assert (Hlt : pos lx < String.length (source lx)).
  { apply currentChar_in_range. destruct Hc as [Hc|Hc]; rewrite Hc; discriminate. }
  apply Nat.ltb_lt in Hlt. rewrite Hlt.
  destruct Hc as [Hc|Hc];
    (rewrite while_false; cbn [mbind option_bind]; rewrite Hc; reflexivity).
Qed.

Lemma char_at_append_past (s1 s2 : string) (i : nat) :
  char_at (s1 +:+ s2) (String.length s1 + i) = char_at s2 i.
Proof.
  unfold char_at. rewrite (Nat.add_comm (String.length s1) i).
  rewrite <- (append_correct2 s1 s2 i). reflexivity.
Qed.

Lemma all_of_char_at (p : ascii -> bool) (s : string) (i : nat) :
  all_of p s = true -> i < String.length s -> p (char_at s i) = true.
Proof.
  intros Hall Hi. unfold all_of in Hall. rewrite forallb_forall in Hall.
  apply Hall, char_at_In, Hi.
Qed.

(** What the lexer has to know of the script. *)
Lemma printScript_shape (text : string) :
  let src := printScript text in
  let n := String.length text in
  String.length src = 9 + n
  /\ substr src 0 5 = "print"
  /\ substr src 7 n = text
  /\ (char_at src 0 = "p" /\ char_at src 5 = "(" /\ char_at src 6 = DQUOTE)%char
  /\ (forall i, i < n -> char_at src (7 + i) = char_at text i)
  /\ char_at src (7 + n) = DQUOTE
  /\ char_at src (8 + n) = ")"%char
  /\ (forall i, i < 5 -> isalnum (char_at src i) = true).
Proof.
  cbv zeta. unfold printScript.
  change ("print(" +:+ String DQUOTE (text +:+ String DQUOTE ")"))
    with (String "p" (String "r" (String "i" (String "n" (String "t" (String "("
            (String DQUOTE (text +:+ String DQUOTE ")")))))))).
  repeat split.
  - cbn [String.length]. rewrite length_append. cbn [String.length]. lia.
  - unfold substr. cbn [String.substring].
    apply substring_append_l.
  - intros i Hi. cbn [Nat.add]. rewrite !char_at_cons. apply char_at_append_l, Hi.
  - cbn [Nat.add]. rewrite !char_at_cons.
    rewrite <- (Nat.add_0_r (String.length text)). apply char_at_append_past.
  - cbn [Nat.add]. rewrite !char_at_cons.
    rewrite <- (Nat.add_1_r (String.length text)). apply char_at_append_past.
  - intros i Hi. do 5 (destruct i as [|i]; [reflexivity|]). lia.
Qed.

Lemma tokenize_printScript (text : string) :
  all_of literalChar text = true ->
  tokenize (printScript text)
  = Some [mkToken PRINT "print" 1 5; mkToken LPAREN "(" 1 5;
          mkToken STRING text 1 (8 + String.length text);
          mkToken RPAREN ")" 1 (8 + String.length text);
          mkToken EOF_TOKEN "" 1 (9 + String.length text)].
Proof.
  intros Hall.
  destruct (printScript_shape text)
    as (Hlen & Hprint & Htext & (Hc0 & Hc5 & Hc6) & Hin & Hq & Hr & Hal).
  cbv zeta in *.
  set (n := String.length text) in *.
  generalize dependent (printScript text). intros src Hlen Hprint Htext Hc0 Hc5 Hc6 Hin Hq Hr Hal.
  unfold tokenize, tokenizeFrom, init. cbn [source pos].
  rewrite Hlen. replace (S (9 + n - 0)) with (S (S (S (S (S (5 + n)))))) by lia.
  generalize (5 + n). intros f.
  (* the keyword *)
  rewrite round_identifier by (unfold currentChar; cbn [source pos]; rewrite Hc0; reflexivity).
  unfold readIdentifier. cbn [source pos].
  rewrite (scan_exact _ advance isalnum src) with (n := 5).
  2:{ intros l Hl. rewrite Hl. repeat split.
      - intros E. rewrite E in Hl. discriminate.
      - apply isalnum_not_NUL, Hl. }
  2:{ unfold loop_fuel. cbn [source]. lia. }
  2:{ exact Hal. }
  2:{ unfold currentChar. cbn [source pos Nat.add]. rewrite Hc5. reflexivity. }
  cbn [mbind option_bind source pos line col Nat.add Nat.sub app]. rewrite Hprint.
  change (getKeywordType "print") with PRINT.
  (* the opening parenthesis *)
  rewrite round_parenthesis by (left; unfold currentChar; cbn [source pos]; exact Hc5).
  unfold operatorToken, currentChar. cbn [source pos line col]. rewrite Hc5.
  cbv beta iota zeta delta [Ascii.eqb Bool.eqb].
  rewrite advance_plain by (rewrite Hc5; discriminate).
  cbn [option_list app Nat.add].
  (* the literal *)
  rewrite round_string by (unfold currentChar; cbn [source pos]; exact Hc6).
  rewrite (readString_literal src 6 1 6 n).
  2:{ exact Hc6. }
  2:{ intros i Hi. change (6 + 1 + i) with (7 + i).
      rewrite Hin by exact Hi. apply all_of_char_at; assumption. }
  2:{ exact Hq. }
  2:{ intros E. rewrite E in Hr. change (char_at src 8 = ")"%char) in Hr.
      change (6 + 2) with 8. rewrite Hr. discriminate. }
  cbn [mbind option_bind Nat.add app option_list]. rewrite Htext.
  replace (S (S (S (S (S (S (S (n + 1)))))))) with (8 + n) by lia.
  (* the closing parenthesis *)
  rewrite round_parenthesis by (right; unfold currentChar; cbn [source pos]; exact Hr).
  unfold operatorToken, currentChar. cbn [source pos line col]. rewrite Hr.
  cbv beta iota zeta delta [Ascii.eqb Bool.eqb].
  rewrite advance_plain by (rewrite Hr; discriminate).
  cbn [option_list app].
  (* the end of the text *)
  cbn [tokenizeLoop source pos]. rewrite Hlen.
  replace (8 + n + 1 <? 9 + n) with false by (symmetry; apply Nat.ltb_ge; lia).
  cbn [mbind option_bind app line col].
  replace (8 + n + 1) with (9 + n) by lia. reflexivity.
Qed.


Lemma parse_printScript (text : string) (n : nat) :
  Parser.parse [mkToken PRINT "print" 1 5; mkToken LPAREN "(" 1 5;
                mkToken STRING text 1 (8 + n);
                mkToken RPAREN ")" 1 (8 + n);
                mkToken EOF_TOKEN "" 1 (9 + n)]
  = Ok [PrintStmt [LiteralExpr text STRING]].
Proof. vm_compute. reflexivity. Qed.

Lemma execute_print_literal (fuel : nat) (text : string) (ex : Executor.t) :
  Executor.execute (S (S fuel)) [PrintStmt [LiteralExpr text STRING]] ex
  = (Ok tt, Executor.mk (Executor.variables ex) (Executor.interactiveMode ex)
              (Executor.cin ex) (Executor.cout ex +:+ text +:+ String LF "")
              (Executor.files ex) (Executor.writable ex)).
Proof.
  unfold Executor.execute, bind.
  cbn [Executor.forEach Executor.executeStatement Executor.executeStatementBody].
  unfold Executor.executePrint, bind.
  cbn [Executor.forEach Executor.evaluateExpression Executor.evaluateExpressionBody
       Executor.evaluateLiteral].
  unfold bind, ret, Executor.fastPutString.
  cbn [Executor.joined Value.toString Nat.ltb Nat.leb].
  rewrite append_empty_r. reflexivity.
Qed.

(** X30.  A script that is [print("text")], with a text free of quotes,
    backslashes and line breaks, goes through the lexer, the parser and
    the executor and writes the text and a line break to the output; the
    answer of [executeFile] is true and nothing else changes but the
    interactive flag, which is off afterwards. *)
Theorem script_prints_its_text (fuel : nat) (filename text : string)
    (it : PythonInterpreter.t) :
  all_of literalChar text = true ->
  Executor.files (PythonInterpreter.executor it) !! filename = Some (printScript text) ->
  PythonInterpreter.executeFile (S (S fuel)) filename it
  = (Ok true,
     let ex := PythonInterpreter.executor it in
     PythonInterpreter.mk
       (Executor.mk (Executor.variables ex) false (Executor.cin ex)
          (Executor.cout ex +:+ text +:+ String LF "") (Executor.files ex)
          (Executor.writable ex))
       (PythonInterpreter.cerr it)).
Proof.
  intros Hall Hfile.
  unfold PythonInterpreter.executeFile, Utils.readFile. rewrite Hfile.
  change (String.eqb (printScript text) "") with false. cbv iota.
  rewrite (tokenize_printScript text Hall), parse_printScript.
  rewrite execute_print_literal.
  cbn [PythonInterpreter.setInteractiveMode PythonInterpreter.put_err
       PythonInterpreter.executor PythonInterpreter.cerr
       Executor.variables Executor.interactiveMode Executor.cin Executor.cout
       Executor.files].
  rewrite append_empty_r. reflexivity.
Qed.

(** The theorem at work on [hi.py]. *)
Lemma script_witness :
  PythonInterpreter.executeFile (S (S 0)) "hi.py" with_a_greeting
  = (Ok true,
     let ex := PythonInterpreter.executor with_a_greeting in
     PythonInterpreter.mk
       (Executor.mk (Executor.variables ex) false (Executor.cin ex)
          (Executor.cout ex +:+ "hi" +:+ String LF "") (Executor.files ex)
          (Executor.writable ex))
       (PythonInterpreter.cerr with_a_greeting)).
Proof.
  apply (script_prints_its_text 0 "hi.py" "hi" with_a_greeting); reflexivity.
Defined.

End Pipeline.
